(** * Schema-to-ERD converter: canonical model, normalizers, resolver, assembler

    A shallow embedding of the TypeScript sources

      - [src/types.ts]                        (canonical schema model)
      - [src/parsers/*.ts]                    (modular parsers and factory)
      - [src/converter/graph-converter.ts]    (resolver and graph assembler)
      - the stand-alone script [generate-schema-graph.ts] that carries its
        own parsers with eager reference inference

    Strings are sequences of 8-bit code units (the Latin-1 part of a
    JavaScript string); on those, the string primitives below are the
    ECMAScript ones.  JavaScript [Set<string>] is [gset string]; arrays are
    lists; an optional property is an [option]. *)

From stdpp Require Import gmap strings list.
From Stdlib Require Import Ascii String NArith.

Set Warnings "-clear-no-such-hyp".

Local Open Scope string_scope.
Local Open Scope list_scope.

(** ** String primitives of the host language *)

Module JsString.

Definition code (c : ascii) : N := N_of_ascii c.

Definition inRange (lo hi n : N) : bool := ((lo <=? n) && (n <=? hi))%N.

(** Upper-case letters of Latin-1: A-Z, and U+00C0..U+00DE but U+00D7. *)
Definition isUpper (c : ascii) : bool :=
  inRange 65 90 (code c)
  || (inRange 192 222 (code c) && negb (code c =? 215)%N).

Definition lowerChar (c : ascii) : ascii :=
  if isUpper c then ascii_of_N (code c + 32) else c.

(** [String.prototype.toLowerCase] *)
Fixpoint toLowerCase (s : string) : string :=
  match s with
  | EmptyString => EmptyString
  | String c r => String (lowerChar c) (toLowerCase r)
  end.

(** White space and line terminators below U+0100: what [\s] matches and
    what [trim] removes. *)
Definition isSpace (c : ascii) : bool :=
  inRange 9 13 (code c) || (code c =? 32)%N || (code c =? 160)%N.

(** [s.replace(/\s+/g, "")] *)
Fixpoint removeWhitespace (s : string) : string :=
  match s with
  | EmptyString => EmptyString
  | String c r =>
      if isSpace c then removeWhitespace r else String c (removeWhitespace r)
  end.

(** Canonicalisation of the case-insensitive matcher (no [u] flag) for
    comparison against an ASCII pattern character: a-z go to A-Z; a code
    unit of 128 or more never canonicalises to an ASCII one. *)
Definition canonicalize (c : ascii) : ascii :=
  if inRange 97 122 (code c) then ascii_of_N (code c - 32) else c.

Fixpoint eqIgnoreCase (p s : string) : bool :=
  match p, s with
  | EmptyString, EmptyString => true
  | String a p', String b s' =>
      bool_decide (canonicalize a = canonicalize b) && eqIgnoreCase p' s'
  | _, _ => false
  end.

(** The alternatives of [/ref$|id$|_ref$|_id$/i], in the order written. *)
Definition suffixAlternatives : list string := ["ref"; "id"; "_ref"; "_id"].

(** Some alternative matches at the current position: because of [$] the
    whole rest of the input has to be the alternative. *)
Definition matchesToEnd (rest : string) : bool :=
  existsb (fun p => eqIgnoreCase p rest) suffixAlternatives.

(** [s.replace(/ref$|id$|_ref$|_id$/i, "")]: the matcher scans start
    positions from the left and replaces the first match. *)
Fixpoint replaceRefSuffix (s : string) : string :=
  if matchesToEnd s then EmptyString
  else match s with
       | EmptyString => EmptyString
       | String c r => String c (replaceRefSuffix r)
       end.

(** Truthiness of a string value. *)
Definition truthy (s : string) : bool := negb (bool_decide (s = "")).

(** Truthiness of an optional string property ([undefined] is falsy). *)
Definition truthyOpt (o : option string) : bool :=
  match o with Some s => truthy s | None => false end.

Fixpoint lastChar (s : string) : option ascii :=
  match s with
  | EmptyString => None
  | String c EmptyString => Some c
  | String _ r => lastChar r
  end.

Definition firstChar (s : string) : option ascii :=
  match s with EmptyString => None | String c _ => Some c end.

(** [s.slice(0, -1)] *)
Fixpoint dropLast (s : string) : string :=
  match s with
  | EmptyString => EmptyString
  | String c EmptyString => EmptyString
  | String c r => String c (dropLast r)
  end.

Fixpoint trimStart (s : string) : string :=
  match s with
  | EmptyString => EmptyString
  | String c r => if isSpace c then trimStart r else s
  end.

Fixpoint rev_string (acc s : string) : string :=
  match s with
  | EmptyString => acc
  | String c r => rev_string (String c acc) r
  end.

Definition trimEnd (s : string) : string :=
  rev_string "" (trimStart (rev_string "" s)).

(** [String.prototype.trim] *)
Definition trim (s : string) : string := trimEnd (trimStart s).

(** [s.startsWith(c)] and [s.endsWith(c)] for a one-character [c]. *)
Definition startsWithChar (c : ascii) (s : string) : bool :=
  bool_decide (firstChar s = Some c).
Definition endsWithChar (c : ascii) (s : string) : bool :=
  bool_decide (lastChar s = Some c).

End JsString.

Import JsString.

(** ** Canonical schema model ([types.ts]) *)

(** An entry of a field's [to] array: [{ type: string }]. *)
Record TargetRef := { tr_type : string }.

#[local] Unset Elimination Schemes.
Inductive SchemaField := {
  f_type : string;
  f_name : option string;
  f_title : option string;
  f_fields : option (list SchemaField);
  f_of : option (list SchemaField);
  f_to : option (list TargetRef)
}.
#[local] Set Elimination Schemes.

Record SchemaType := {
  t_name : string;
  t_type : string;
  t_title : option string;
  t_fields : option (list SchemaField);
  t_of : option (list SchemaField)
}.

Record ParsedSchema := {
  types : list SchemaType;
  documentTypes : gset string;
  allTypeNames : gset string
}.

(** [type.type === "document" || type.type === "object"] *)
Definition isDocumentOrObject (t : SchemaType) : bool :=
  bool_decide (t_type t = "document") || bool_decide (t_type t = "object").

(** [this.schema.types.find((t) => t.name === name)] *)
Definition findTypeByName (s : ParsedSchema) (name : string) : option SchemaType :=
  List.find (fun t => bool_decide (t_name t = name)) (types s).

(** The test guarding every reference edge: the name is in [allTypeNames]
    and the type found under it is a document or an object. *)
Definition isGraphTarget (s : ParsedSchema) (name : string) : bool :=
  bool_decide (name ∈ allTypeNames s)
  && match findTypeByName s name with
     | Some t => isDocumentOrObject t
     | None => false
     end.

(** ** Inference heuristic of the resolver *)

(** [GraphConverter.findPossibleReferenceTargets]: three guarded pushes. *)
Definition findPossibleReferenceTargets
    (s : ParsedSchema) (fieldName : string) (fieldTitle : option string)
    : list string :=
  let targets : list string := [] in
  (* Try exact name matches *)
  let targets :=
    if isGraphTarget s fieldName then targets ++ [fieldName] else targets in
  (* Try title matches *)
  let targets :=
    match fieldTitle with
    | Some title =>
        if truthy title && isGraphTarget s (toLowerCase title)
        then targets ++ [toLowerCase title] else targets
    | None => targets
    end in
  (* Try common patterns (remove 'ref', 'id', etc.) *)
  let cleanName := replaceRefSuffix fieldName in
  let targets :=
    if negb (bool_decide (cleanName = fieldName)) && isGraphTarget s cleanName
    then targets ++ [cleanName] else targets in
  targets.

(** ** The graph under construction

    What the converter hands to ts-graphviz.  An edge records the arguments
    of the accepted [createEdgeIfNotExists] call; the two endpoint strings
    given to [graph.edge] are [sourceNode] and [targetNode] below.  The
    style object is one entry of [CONFIG.RELATIONSHIP_CONFIGS] (named by
    its key) together with the [xlabel]. *)

Inductive RelationshipKind :=
  | DIRECT_REFERENCE
  | INFERRED_REFERENCE
  | ARRAY_REFERENCE
  | INFERRED_ARRAY_REFERENCE
  | OBJECT_COMPOSITION
  | ARRAY_COMPOSITION.

Record EdgeStyle := { rel : RelationshipKind; xlabel : string }.

Record Edge := {
  e_source : string;
  e_target : string;
  e_label : string;
  e_style : EdgeStyle;
  e_sourcePort : option string
}.

Definition sourceNode (e : Edge) : string :=
  if truthyOpt (e_sourcePort e)
  then e_source e +:+ ":" +:+ default "" (e_sourcePort e)
  else e_source e +:+ ":title".

Definition targetNode (e : Edge) : string := e_target e +:+ ":title".

(** A node: its id, whether it is drawn as a document, and the rows
    (field name, type label) of its HTML-like table. *)
Record Node := {
  n_id : string;
  n_isDocument : bool;
  n_rows : list (string * string)
}.

Record Digraph := { nodes : list Node; edges : list Edge }.

(** [graph.node(id, attributes)]: get the node of that id or create it, then
    apply the attributes. *)
Fixpoint upsertNode (n : Node) (ns : list Node) : list Node :=
  match ns with
  | [] => [n]
  | m :: r => if bool_decide (n_id m = n_id n) then n :: r else m :: upsertNode n r
  end.

Definition graph_node (g : Digraph) (n : Node) : Digraph :=
  {| nodes := upsertNode n (nodes g); edges := edges g |}.

(** [graph.edge([sourceNode, targetNode], style)]: always a new edge. *)
Definition graph_edge (g : Digraph) (e : Edge) : Digraph :=
  {| nodes := nodes g; edges := edges g ++ [e] |}.

(** ** [GraphConverter] *)

Record GraphConverter := {
  schema : ParsedSchema;
  graph : Digraph;
  createdEdges : gset string
}.

(** The constructor: an empty graph and an empty set of edge keys. *)
Definition newGraphConverter (s : ParsedSchema) : GraphConverter :=
  {| schema := s; graph := {| nodes := []; edges := [] |}; createdEdges := ∅ |}.

Fixpoint getFieldTypeLabel (field : SchemaField) : string :=
  match field with
  | {| f_type := ty; f_of := fof; f_to := fto |} =>
      match bool_decide (ty = "array"), fof with
      | true, Some items =>
          "Array&lt;" +:+ String.concat " | " (List.map getFieldTypeLabel items)
          +:+ "&gt;"
      | _, _ =>
          match bool_decide (ty = "reference"), fto with
          | true, Some to =>
              "Ref&lt;" +:+ String.concat " | " (List.map tr_type to) +:+ "&gt;"
          | _, _ => ty
          end
      end
  end.

(** [!field.name?.startsWith("_")] *)
Definition isVisibleField (field : SchemaField) : bool :=
  match f_name field with
  | Some name => negb (startsWithChar "_" name)
  | None => true
  end.

Definition createNode (this : GraphConverter) (type : SchemaType) : GraphConverter :=
  let fields :=
    match t_fields type with
    | Some fs =>
        List.map
          (fun field =>
             let fieldName :=
               if truthyOpt (f_name field) then default "" (f_name field)
               else "unnamed" in
             (fieldName, getFieldTypeLabel field))
          (List.filter isVisibleField fs)
    | None => []
    end in
  {| schema := schema this;
     graph := graph_node (graph this)
                {| n_id := t_name type;
                   n_isDocument :=
                     bool_decide (t_name type ∈ documentTypes (schema this));
                   n_rows := fields |};
     createdEdges := createdEdges this |}.

Definition edgeKey (source target label : string) : string :=
  source +:+ "->" +:+ target +:+ ":" +:+ label.

Definition createEdgeIfNotExists (this : GraphConverter)
    (source target label : string) (style : EdgeStyle)
    (sourcePort : option string) : GraphConverter :=
  let key := edgeKey source target label in
  if bool_decide (key ∈ createdEdges this) then this
  else
    {| schema := schema this;
       graph := graph_edge (graph this)
                  {| e_source := source; e_target := target; e_label := label;
                     e_style := style; e_sourcePort := sourcePort |};
       createdEdges := {[ key ]} ∪ createdEdges this |}.

(** The port every call site passes: the west side of the field's left cell. *)
Definition leftPort (sourceFieldId : string) : option string :=
  Some (sourceFieldId +:+ "_left:w").

(** [this.schema.types.find((t) => t.name === name && t.type === "object")] *)
Definition findObjectType (s : ParsedSchema) (name : option string)
    : option SchemaType :=
  List.find
    (fun t => bool_decide (Some (t_name t) = name)
              && bool_decide (t_type t = "object"))
    (types s).

Definition hasExplicitTargets (field : SchemaField) : bool :=
  match f_to field with
  | Some (_ :: _) => true
  | _ => false
  end.

Definition processArrayItemForEdges (this : GraphConverter)
    (sourceNodeId sourceFieldId : string) (itemType : SchemaField)
    : GraphConverter :=
  let this :=
    if bool_decide (f_type itemType = "reference") then
      if hasExplicitTargets itemType then
        fold_left
          (fun this target =>
             if isGraphTarget (schema this) (tr_type target) then
               createEdgeIfNotExists this sourceNodeId (tr_type target)
                 (sourceFieldId +:+ "[]")
                 {| rel := ARRAY_REFERENCE; xlabel := sourceFieldId +:+ "[]" |}
                 (leftPort sourceFieldId)
             else this)
          (default [] (f_to itemType)) this
      else
        (* Try to infer targets for array references too *)
        let possibleTargets :=
          findPossibleReferenceTargets (schema this) sourceFieldId
            (f_title itemType) in
        fold_left
          (fun this targetType =>
             createEdgeIfNotExists this sourceNodeId targetType
               (sourceFieldId +:+ "[]?")
               {| rel := INFERRED_ARRAY_REFERENCE;
                  xlabel := sourceFieldId +:+ "[]?" |}
               (leftPort sourceFieldId))
          possibleTargets this
    else this in
  (* Handle array of objects *)
  if bool_decide (f_type itemType = "object") && truthyOpt (f_name itemType)
  then
    match findObjectType (schema this) (f_name itemType) with
    | Some objectType =>
        createEdgeIfNotExists this sourceNodeId (t_name objectType)
          (sourceFieldId +:+ "[]")
          {| rel := ARRAY_COMPOSITION; xlabel := sourceFieldId +:+ "[]" |}
          (leftPort sourceFieldId)
    | None => this
    end
  else this.

Definition processFieldForEdges (this : GraphConverter)
    (sourceNodeId sourceFieldId : string) (field : SchemaField)
    : GraphConverter :=
  (* Handle direct references *)
  let this :=
    if bool_decide (f_type field = "reference") then
      if hasExplicitTargets field then
        fold_left
          (fun this target =>
             if isGraphTarget (schema this) (tr_type target) then
               createEdgeIfNotExists this sourceNodeId (tr_type target)
                 sourceFieldId
                 {| rel := DIRECT_REFERENCE; xlabel := sourceFieldId |}
                 (leftPort sourceFieldId)
             else this)
          (default [] (f_to field)) this
      else
        (* Fallback: Try to match by field name or title *)
        let possibleTargets :=
          findPossibleReferenceTargets (schema this) sourceFieldId
            (f_title field) in
        fold_left
          (fun this targetType =>
             createEdgeIfNotExists this sourceNodeId targetType
               (sourceFieldId +:+ "?")
               {| rel := INFERRED_REFERENCE; xlabel := sourceFieldId +:+ "?" |}
               (leftPort sourceFieldId))
          possibleTargets this
    else this in
  (* Handle direct object embeddings *)
  let this :=
    if bool_decide (f_type field = "object") && truthyOpt (f_name field) then
      match findObjectType (schema this) (f_name field) with
      | Some objectType =>
          createEdgeIfNotExists this sourceNodeId (t_name objectType)
            sourceFieldId
            {| rel := OBJECT_COMPOSITION; xlabel := sourceFieldId |}
            (leftPort sourceFieldId)
      | None => this
      end
    else this in
  (* Handle arrays of types *)
  match bool_decide (f_type field = "array"), f_of field with
  | true, Some items =>
      fold_left
        (fun this itemType =>
           processArrayItemForEdges this sourceNodeId sourceFieldId itemType)
        items this
  | _, _ => this
  end.

Definition createEdges (this : GraphConverter) (sourceType : SchemaType)
    : GraphConverter :=
  match t_fields sourceType with
  | None => this
  | Some fields =>
      fold_left
        (fun this field =>
           match f_name field with
           | Some name =>
               if truthy name
               then processFieldForEdges this (t_name sourceType) name field
               else this
           | None => this
           end)
        fields this
  end.

(** [convert]: nodes first, then edges.  The result is the converter after
    both passes; the returned text is [toDot] of its [graph]. *)
Definition convert (this : GraphConverter) : GraphConverter :=
  let this :=
    fold_left
      (fun this type =>
         if isDocumentOrObject type then createNode this type else this)
      (types (schema this)) this in
  let this :=
    fold_left
      (fun this type =>
         if isDocumentOrObject type then createEdges this type else this)
      (types (schema this)) this in
  this.

(** ** Parsers: what they share ([BaseSchemaParser]) *)

(** What a run of a parser can throw: the [new Error(message)] of each
    [throw] site of the parsers and the factory, and the [TypeError] the
    host raises when a property of [null] or [undefined] is read. *)
Inductive ParserError :=
  | FileNotFound (schemaPath : string)
  | ParseFailure (underlying : string)
  | UnrecognizedFormat
  | SanityUnrecognizedFormat
  | NotImplemented
  | UnsupportedFormat (format : string)
  | TypeError (property : string).

(** The message of the errors the code itself constructs; the wording of a
    [TypeError] is the host's. *)
Definition errorMessage (e : ParserError) : option string :=
  match e with
  | FileNotFound p => Some ("Schema file not found at " +:+ p)
  | ParseFailure m => Some ("Failed to parse schema file: " +:+ m)
  | UnrecognizedFormat => Some "Schema.club format expects an array of schema types"
  | SanityUnrecognizedFormat => Some "Sanity format expects an array of schema types"
  | NotImplemented => Some "Sanity format parser not yet implemented. Coming soon!"
  | UnsupportedFormat f =>
      Some ("Unsupported input format: " +:+ f
            +:+ ". Supported formats are: schema.club, sanity")
  | TypeError _ => None
  end.

Inductive Result (A : Type) :=
  | Ok (value : A)
  | Throw (e : ParserError).
Arguments Ok {A} value.
Arguments Throw {A} e.

Definition bind {A B} (r : Result A) (k : A -> Result B) : Result B :=
  match r with
  | Ok a => k a
  | Throw e => Throw e
  end.

Notation "x <- r ;; k" := (bind r (fun x => k))
  (at level 100, r at next level, right associativity).

(** The root value a text evaluates to: an array ([Array.isArray]) of
    entries, or anything else. *)
Inductive RawValue (Entry : Type) :=
  | RawArray (items : list Entry)
  | RawOther.
Arguments RawArray {Entry} items.
Arguments RawOther {Entry}.

(** An entry of the root array.  The parsers take the entries unchecked:
    [null] and [undefined] are the values on which reading a property
    throws; any other entry is read as an object of the declared type. *)
Inductive Element (A : Type) :=
  | Nullish
  | Object (value : A).
Arguments Nullish {A}.
Arguments Object {A} value.

(** The entries as the first callback over the array meets them: it reads
    [property] of each entry in turn, and on a nullish entry the host
    throws. *)
Fixpoint readEntries {A} (property : string) (items : list (Element A))
    : Result (list A) :=
  match items with
  | [] => Ok []
  | Nullish :: _ => Throw (TypeError property)
  | Object value :: rest =>
      values <- readEntries property rest ;;
      Ok (value :: values)
  end.

(** What a [catch] clause receives. *)
Inductive Thrown :=
  | ErrorObject (message : string)
  | NonError.

(** [createParsedSchema(types, documentTypeFilter)] *)
Definition createParsedSchema (tys : list SchemaType)
    (documentTypeFilter : SchemaType -> bool) : ParsedSchema :=
  {| types := tys;
     documentTypes :=
       list_to_set (List.map t_name (List.filter documentTypeFilter tys));
     allTypeNames := list_to_set (List.map t_name tys) |}.

(** The filter both [parse] methods pass: [(type) => type.type === "document"]. *)
Definition isDocument (t : SchemaType) : bool :=
  bool_decide (t_type t = "document").

Section Host.

(** The host's collaborators: the file system, [JSON.parse] and [eval]
    (the latter two return the value or what they throw). *)
Variable Entry : Type.
Variable fileSystem : string -> option string.
Variable JSON_parse : string -> RawValue Entry + Thrown.
Variable js_eval : string -> RawValue Entry + Thrown.

Definition loadFileContent (schemaPath : string) : Result string :=
  match fileSystem schemaPath with
  | None => Throw (FileNotFound schemaPath)
  | Some content => Ok content
  end.

(** The text looks like an array literal. *)
Definition looksLikeArray (content : string) : bool :=
  startsWithChar "[" (trim content) && endsWithChar "]" (trim content).

(** The inner [try] block of [parseJsonOrJs]. *)
Definition evalFallback (content : string) : RawValue Entry + Thrown :=
  if looksLikeArray content
  then js_eval ("(" +:+ content +:+ ")")
  else inr (ErrorObject "Schema file format not recognized").

Definition parseJsonOrJs (content : string) : Result (RawValue Entry) :=
  match JSON_parse content with
  | inl parsed => Ok parsed
  | inr jsonError =>
      match evalFallback content with
      | inl parsed => Ok parsed
      | inr evalError =>
          let errorMsg :=
            match jsonError with
            | ErrorObject message => message
            | NonError => "Unknown JSON parse error"
            end in
          Throw (ParseFailure errorMsg)
      end
  end.

End Host.

(** ** The modular parsers ([src/parsers]) *)

Module Parsers.

Inductive Parser :=
  | SchemaClubParser (schemaPath : string)
  | SanityParser (schemaPath : string).

(** [createParser(format, schemaPath)] *)
Definition createParser (format schemaPath : string) : Result Parser :=
  if bool_decide (format = "schema.club") then Ok (SchemaClubParser schemaPath)
  else if bool_decide (format = "sanity") then Ok (SanityParser schemaPath)
  else Throw (UnsupportedFormat format).

Section Parse.

Variable fileSystem : string -> option string.
Variable JSON_parse : string -> RawValue (Element SchemaType) + Thrown.
Variable js_eval : string -> RawValue (Element SchemaType) + Thrown.

(** [SchemaClubParser.parse]: the entries are used as they are, cast to
    [SchemaType[]] without a check.  The document filter that
    [createParsedSchema] is given, [(type) => type.type === "document"], is
    the first code to read them. *)
Definition SchemaClubParser_parse (schemaPath : string) : Result ParsedSchema :=
  content <- loadFileContent fileSystem schemaPath ;;
  rawSchema <- parseJsonOrJs (Element SchemaType) JSON_parse js_eval content ;;
  match rawSchema with
  | RawOther => Throw UnrecognizedFormat
  | RawArray items =>
      tys <- readEntries "type" items ;;
      Ok (createParsedSchema tys isDocument)
  end.

(** [SanityParser.parse]: a placeholder that throws. *)
Definition SanityParser_parse (schemaPath : string) : Result ParsedSchema :=
  Throw NotImplemented.

(** The abstract [parse()], dispatched on the class of the parser. *)
Definition parse (p : Parser) : Result ParsedSchema :=
  match p with
  | SchemaClubParser schemaPath => SchemaClubParser_parse schemaPath
  | SanityParser schemaPath => SanityParser_parse schemaPath
  end.

End Parse.

End Parsers.

(** ** The stand-alone script: a schema.club parser that transforms entries *)

Module Script.

(** A raw field as the transformer reads it ([field: any]): every
    property may be missing. *)
#[local] Unset Elimination Schemes.
Inductive RawField := {
  rf_name : option string;
  rf_type : option string;
  rf_title : option string;
  rf_of : option (list RawField);
  rf_fields : option (list RawField);
  rf_to : option (list TargetRef)
}.
#[local] Set Elimination Schemes.

Record RawType := {
  rt_name : option string;
  rt_type : option string;
  rt_title : option string;
  rt_fields : option (list RawField)
}.

(** [SchemaClubParser.inferReferenceTarget] *)
Definition inferReferenceTarget (fieldName : string)
    (fieldTitle : option string) : option string :=
  let patterns : list (option string) :=
    [ (* Remove common suffixes *)
      Some (replaceRefSuffix fieldName);
      (* Use title if available *)
      match fieldTitle with
      | Some title =>
          if truthy title then Some (removeWhitespace (toLowerCase title))
          else None
      | None => None
      end;
      (* Use field name as-is *)
      Some fieldName;
      (* Plural to singular *)
      if endsWithChar "s" fieldName then Some (dropLast fieldName) else None ] in
  (* .filter(Boolean) *)
  let patterns : list string :=
    List.filter truthy (omap (fun p => p) patterns) in
  (* Return the first non-empty pattern *)
  List.find (fun pattern => truthy pattern && (0 <? String.length pattern)%nat)
    patterns.

(** [SchemaClubParser.transformSchemaClubField] *)
Fixpoint transformSchemaClubField (field : RawField) : option SchemaField :=
  match field with
  | Build_RawField name type title fof ffields _ =>
      if negb (truthyOpt name) || negb (truthyOpt type) then None
      else
        let name := default "" name in
        let type := default "" type in
        (* Handle references - infer target from field name *)
        let toTargets :=
          if bool_decide (type = "reference") then
            match inferReferenceTarget name title with
            | Some possibleTarget => Some [ {| tr_type := possibleTarget |} ]
            | None => None
            end
          else None in
        (* Handle arrays *)
        let ofItems :=
          match bool_decide (type = "array"), fof with
          | true, Some items => Some (omap transformSchemaClubField items)
          | _, _ => None
          end in
        (* Handle nested fields for objects *)
        let fields :=
          match ffields with
          | Some subFields => Some (omap transformSchemaClubField subFields)
          | None => None
          end in
        Some {| f_type := type; f_name := Some name; f_title := title;
                f_fields := fields; f_of := ofItems; f_to := toTargets |}
  end.

(** [SchemaClubParser.transformSchemaClubType] *)
Definition transformSchemaClubType (schemaClubType : RawType) : SchemaType :=
  {| t_name := default "" (rt_name schemaClubType);
     t_type := default "" (rt_type schemaClubType);
     t_title := rt_title schemaClubType;
     t_fields :=
       match rt_fields schemaClubType with
       | Some fields => Some (omap transformSchemaClubField fields)
       | None => None
       end;
     t_of := None |}.

(** The transformation of the root array:
    [rawSchema.filter((item) => item.name && item.type).map(...)]. *)
Definition transformSchema (rawSchema : list RawType) : list SchemaType :=
  List.map transformSchemaClubType
    (List.filter (fun item => truthyOpt (rt_name item) && truthyOpt (rt_type item))
       rawSchema).

Section Parse.

Variable fileSystem : string -> option string.
Variable JSON_parse : string -> RawValue (Element RawType) + Thrown.
Variable js_eval : string -> RawValue (Element RawType) + Thrown.

(** [SchemaClubParser.parse] of the script.  The filter
    [(item) => item.name && item.type] is the first code to read the
    entries. *)
Definition SchemaClubParser_parse (schemaPath : string) : Result ParsedSchema :=
  content <- loadFileContent fileSystem schemaPath ;;
  rawSchema <- parseJsonOrJs (Element RawType) JSON_parse js_eval content ;;
  match rawSchema with
  | RawOther => Throw UnrecognizedFormat
  | RawArray items =>
      entries <- readEntries "name" items ;;
      Ok (createParsedSchema (transformSchema entries) isDocument)
  end.

End Parse.

End Script.

(** ** The candidate edge stream

    The resolver and the assembler are fused in the source: every rule
    calls [createEdgeIfNotExists] on the spot.  [schemaCandidates] lists
    those calls in the order they are made; [offer] is one such call. *)

Definition offer (this : GraphConverter) (c : Edge) : GraphConverter :=
  createEdgeIfNotExists this (e_source c) (e_target c) (e_label c) (e_style c)
    (e_sourcePort c).

Definition candidate (sourceNodeId target sourceFieldId suffix : string)
    (kind : RelationshipKind) : Edge :=
  {| e_source := sourceNodeId; e_target := target;
     e_label := sourceFieldId +:+ suffix;
     e_style := {| rel := kind; xlabel := sourceFieldId +:+ suffix |};
     e_sourcePort := leftPort sourceFieldId |}.

(** The calls of the top-level rules carry the bare field id as label. *)
Definition plainCandidate (sourceNodeId target sourceFieldId : string)
    (kind : RelationshipKind) : Edge :=
  {| e_source := sourceNodeId; e_target := target;
     e_label := sourceFieldId;
     e_style := {| rel := kind; xlabel := sourceFieldId |};
     e_sourcePort := leftPort sourceFieldId |}.

Definition itemCandidates (s : ParsedSchema) (sourceNodeId sourceFieldId : string)
    (itemType : SchemaField) : list Edge :=
  (if bool_decide (f_type itemType = "reference") then
     if hasExplicitTargets itemType then
       List.map
         (fun target =>
            candidate sourceNodeId (tr_type target) sourceFieldId "[]"
              ARRAY_REFERENCE)
         (List.filter (fun target => isGraphTarget s (tr_type target))
            (default [] (f_to itemType)))
     else
       List.map
         (fun targetType =>
            candidate sourceNodeId targetType sourceFieldId "[]?"
              INFERRED_ARRAY_REFERENCE)
         (findPossibleReferenceTargets s sourceFieldId (f_title itemType))
   else [])
  ++
  (if bool_decide (f_type itemType = "object") && truthyOpt (f_name itemType)
   then
     match findObjectType s (f_name itemType) with
     | Some objectType =>
         [candidate sourceNodeId (t_name objectType) sourceFieldId "[]"
            ARRAY_COMPOSITION]
     | None => []
     end
   else []).

Definition fieldCandidates (s : ParsedSchema) (sourceNodeId sourceFieldId : string)
    (field : SchemaField) : list Edge :=
  (if bool_decide (f_type field = "reference") then
     if hasExplicitTargets field then
       List.map
         (fun target =>
            plainCandidate sourceNodeId (tr_type target) sourceFieldId
              DIRECT_REFERENCE)
         (List.filter (fun target => isGraphTarget s (tr_type target))
            (default [] (f_to field)))
     else
       List.map
         (fun targetType =>
            candidate sourceNodeId targetType sourceFieldId "?"
              INFERRED_REFERENCE)
         (findPossibleReferenceTargets s sourceFieldId (f_title field))
   else [])
  ++
  (if bool_decide (f_type field = "object") && truthyOpt (f_name field) then
     match findObjectType s (f_name field) with
     | Some objectType =>
         [plainCandidate sourceNodeId (t_name objectType) sourceFieldId
            OBJECT_COMPOSITION]
     | None => []
     end
   else [])
  ++
  match bool_decide (f_type field = "array"), f_of field with
  | true, Some items => flat_map (itemCandidates s sourceNodeId sourceFieldId) items
  | _, _ => []
  end.

(** A field from which resolution starts: its name is present and non-empty. *)
Definition isNamed (field : SchemaField) : bool := truthyOpt (f_name field).

Definition typeCandidates (s : ParsedSchema) (sourceType : SchemaType) : list Edge :=
  flat_map
    (fun field =>
       if isNamed field
       then fieldCandidates s (t_name sourceType) (default "" (f_name field)) field
       else [])
    (default [] (t_fields sourceType)).

Definition schemaCandidates (s : ParsedSchema) : list Edge :=
  flat_map
    (fun type => if isDocumentOrObject type then typeCandidates s type else [])
    (types s).

(** The dedup key of an edge as the converter builds it. *)
Definition keyOf (e : Edge) : string :=
  edgeKey (e_source e) (e_target e) (e_label e).

(** The label an emitted edge shows: the [xlabel] of its style. *)
Definition displayLabel (e : Edge) : string := xlabel (e_style e).

(** The identity of an edge in the produced graph. *)
Definition edgeIdentity (e : Edge) : string * string * string :=
  (e_source e, e_target e, displayLabel e).

(** First occurrences of each key, given the keys already seen. *)
Fixpoint firstOccurrences (seen : gset string) (cs : list Edge) : list Edge :=
  match cs with
  | [] => []
  | c :: r =>
      if bool_decide (keyOf c ∈ seen) then firstOccurrences seen r
      else c :: firstOccurrences ({[ keyOf c ]} ∪ seen) r
  end.

(** ** The heuristic as the specification words it

    Kept apart from the code's [findPossibleReferenceTargets] to compare the
    two: the title is lower-cased and stripped of white space, and the
    result is deduplicated. *)

Fixpoint dedupFirst (seen l : list string) : list string :=
  match l with
  | [] => []
  | x :: r =>
      if bool_decide (x ∈ seen) then dedupFirst seen r
      else x :: dedupFirst (x :: seen) r
  end.

Definition findPossibleReferenceTargets_spec
    (s : ParsedSchema) (fieldName : string) (fieldTitle : option string)
    : list string :=
  let cleanName := replaceRefSuffix fieldName in
  dedupFirst []
    (List.filter (isGraphTarget s)
       ([fieldName]
        ++ match fieldTitle with
           | Some title => [removeWhitespace (toLowerCase title)]
           | None => []
           end
        ++ (if bool_decide (cleanName = fieldName) then [] else [cleanName]))).

(** The names the code tries, in order, before validating each of them. *)
Definition triedNames (fieldName : string) (fieldTitle : option string)
    : list string :=
  [fieldName]
  ++ match fieldTitle with
     | Some title => if truthy title then [toLowerCase title] else []
     | None => []
     end
  ++ (if bool_decide (replaceRefSuffix fieldName = fieldName) then []
      else [replaceRefSuffix fieldName]).

(** An option read as the list of at most one target. *)
Definition targetList (o : option string) : list string :=
  match o with Some t => [t] | None => [] end.

Definition isReferenceKind (k : RelationshipKind) : bool :=
  match k with
  | DIRECT_REFERENCE | INFERRED_REFERENCE
  | ARRAY_REFERENCE | INFERRED_ARRAY_REFERENCE => true
  | OBJECT_COMPOSITION | ARRAY_COMPOSITION => false
  end.

(** [sourceType] with another field list. *)
Definition withFields (sourceType : SchemaType) (fields : list SchemaField)
    : SchemaType :=
  {| t_name := t_name sourceType; t_type := t_type sourceType;
     t_title := t_title sourceType; t_fields := Some fields;
     t_of := t_of sourceType |}.

(** ** The parse stage as the specification words it

    Stated on the host's [JSON.parse] and [eval] alone, apart from the code
    of [parseJsonOrJs]. *)

(** The message a parse failure carries: the message of the error strict
    parsing threw, or a fixed text when what it threw is no [Error]. *)
Definition thrownMessage (t : Thrown) : string :=
  match t with
  | ErrorObject message => message
  | NonError => "Unknown JSON parse error"
  end.

(** The text, trimmed, begins with an opening and ends with a closing
    square bracket. *)
Definition arrayLiteral (content : string) : Prop :=
  firstChar (trim content) = Some "["%char /\ lastChar (trim content) = Some "]"%char.

(** The parsed root of a text: what strict parsing returns; or, when strict
    parsing throws and the text is an array literal, what evaluating the
    text in parentheses returns. *)
Inductive parsedRoot {Entry} (JSON_parse js_eval : string -> RawValue Entry + Thrown)
    (content : string) : RawValue Entry -> Prop :=
  | root_strict root :
      JSON_parse content = inl root ->
      parsedRoot JSON_parse js_eval content root
  | root_evaluated jsonError root :
      JSON_parse content = inr jsonError ->
      arrayLiteral content ->
      js_eval ("(" +:+ content +:+ ")") = inl root ->
      parsedRoot JSON_parse js_eval content root.

(** Strict parsing throws and the fallback fails too: the text is no array
    literal, or evaluating it throws.  The message is the one of the strict
    parser's error. *)
Inductive parseFails {Entry} (JSON_parse js_eval : string -> RawValue Entry + Thrown)
    (content : string) : string -> Prop :=
  | fails_unevaluated jsonError :
      JSON_parse content = inr jsonError ->
      ~ arrayLiteral content ->
      parseFails JSON_parse js_eval content (thrownMessage jsonError)
  | fails_evaluated jsonError evalError :
      JSON_parse content = inr jsonError ->
      arrayLiteral content ->
      js_eval ("(" +:+ content +:+ ")") = inr evalError ->
      parseFails JSON_parse js_eval content (thrownMessage jsonError).

(** ** Concrete schemas *)

Module Examples.

Definition field (type : string) (name title : option string)
    (ofItems : option (list SchemaField)) (to : option (list TargetRef))
    : SchemaField :=
  {| f_type := type; f_name := name; f_title := title; f_fields := None;
     f_of := ofItems; f_to := to |}.

Definition type (name kind : string) (fields : option (list SchemaField))
    : SchemaType :=
  {| t_name := name; t_type := kind; t_title := None; t_fields := fields;
     t_of := None |}.

(** [product] has a reference field [categoryRef] without targets;
    [category] is a document. *)
Definition categoryRef : SchemaField :=
  field "reference" (Some "categoryRef") None None None.
Definition product : SchemaType := type "product" "document" (Some [categoryRef]).
Definition category : SchemaType := type "category" "document" None.
Definition productSchema : ParsedSchema :=
  createParsedSchema [product; category] isDocument.

(** The same input as the script's parser receives it. *)
Definition rawCategoryRef : Script.RawField :=
  {| Script.rf_name := Some "categoryRef"; Script.rf_type := Some "reference";
     Script.rf_title := None; Script.rf_of := None; Script.rf_fields := None;
     Script.rf_to := None |}.
Definition rawProduct : Script.RawType :=
  {| Script.rt_name := Some "product"; Script.rt_type := Some "document";
     Script.rt_title := None; Script.rt_fields := Some [rawCategoryRef] |}.
Definition rawCategory : Script.RawType :=
  {| Script.rt_name := Some "category"; Script.rt_type := Some "document";
     Script.rt_title := None; Script.rt_fields := None |}.

(** An array field whose two item descriptors lead to the same key
    [product->tag:tags[]] with different styles. *)
Definition tags : SchemaField :=
  field "array" (Some "tags") None
    (Some [ field "reference" None None None (Some [ {| tr_type := "tag" |} ]);
            field "object" (Some "tag") None None None ])
    None.
Definition tagged : SchemaType := type "product" "document" (Some [tags]).
Definition tag : SchemaType := type "tag" "object" None.
Definition taggedSchema : ParsedSchema :=
  createParsedSchema [tagged; tag] isDocument.
Definition tagsEdge : Edge := candidate "product" "tag" "tags" "[]" ARRAY_REFERENCE.

(** Two types of one name. *)
Definition page : SchemaType := type "page" "document" None.
Definition pageAgain : SchemaType := type "page" "object" (Some []).

(** A registry with one document [category], and one with [blogpost]. *)
Definition categoryOnly : ParsedSchema := createParsedSchema [category] isDocument.
Definition blogOnly : ParsedSchema :=
  createParsedSchema [type "blogpost" "document" None] isDocument.
Definition authors : ParsedSchema :=
  createParsedSchema [type "author" "document" None; type "writer" "document" None]
    isDocument.
Definition emptySchema : ParsedSchema := createParsedSchema [] isDocument.

(** A reference field with the target [ghost], which no registry knows,
    and a primitive alias that is known but is no graph type. *)
Definition ghostRef : SchemaField :=
  field "reference" (Some "owner") None None (Some [ {| tr_type := "ghost" |} ]).
Definition aliasSchema : ParsedSchema :=
  createParsedSchema [product; category; type "slug" "string" None] isDocument.
Definition slugRef : SchemaField :=
  field "reference" (Some "slug") None None (Some [ {| tr_type := "slug" |} ]).

(** A reference to [category] in a field without a name. *)
Definition unnamedRef : SchemaField :=
  field "reference" None None None (Some [ {| tr_type := "category" |} ]).
Definition anonymous : SchemaType :=
  type "product" "document" (Some [unnamedRef; categoryRef]).

(** A type [a] with two array fields, and the types [b:c] and [b].  The
    three candidate edges of [a] have one dedup key, [a->b:c:d[]]: the
    first goes to [b:c] with the label [d[]], the second and the third go
    to [b] with the label [c:d[]]. *)
Definition collidingFields : list SchemaField :=
  [ field "array" (Some "d") None
      (Some [ field "reference" None None None (Some [ {| tr_type := "b:c" |} ]) ])
      None;
    field "array" (Some "c:d") None
      (Some [ field "reference" None None None (Some [ {| tr_type := "b" |} ]);
              field "object" (Some "b") None None None ])
      None ].
Definition collidingSchema : ParsedSchema :=
  createParsedSchema
    [ type "a" "document" (Some collidingFields);
      type "b:c" "document" None; type "b" "object" None ]
    isDocument.

(** The same schema with the second field named [e]: no key collides. *)
Definition separateFields : list SchemaField :=
  [ field "array" (Some "d") None
      (Some [ field "reference" None None None (Some [ {| tr_type := "b:c" |} ]) ])
      None;
    field "array" (Some "e") None
      (Some [ field "reference" None None None (Some [ {| tr_type := "b" |} ]);
              field "object" (Some "b") None None None ])
      None ].
Definition separateSchema : ParsedSchema :=
  createParsedSchema
    [ type "a" "document" (Some separateFields);
      type "b:c" "document" None; type "b" "object" None ]
    isDocument.

(** A host with four files: a text that is neither JSON nor a literal, an
    array literal that is no JSON (unquoted keys), an array holding [null],
    and an object. *)
Definition pageLiteral : string := "[{name: 'page', type: 'document'}]".
Definition files (path : string) : option string :=
  if bool_decide (path = "broken.json") then Some "[a b]"
  else if bool_decide (path = "schema.js") then Some pageLiteral
  else if bool_decide (path = "null.json") then Some "[null]"
  else if bool_decide (path = "object.json") then Some "{}"
  else None.
Definition strict (content : string) : RawValue (Element SchemaType) + Thrown :=
  if bool_decide (content = "[null]") then inl (RawArray [Nullish])
  else if bool_decide (content = "{}") then inl RawOther
  else inr (ErrorObject "Unexpected token in JSON at position 1").
Definition evaluate (code : string) : RawValue (Element SchemaType) + Thrown :=
  if bool_decide (code = "(" +:+ pageLiteral +:+ ")") then inl (RawArray [Object page])
  else inr (ErrorObject "Unexpected identifier").

End Examples.

(** ** Further notions used by the properties below *)

(** The row [createNode] shows for a field: its name, or [unnamed], and its
    type label. *)
Definition rowOf (field : SchemaField) : string * string :=
  (if truthyOpt (f_name field) then default "" (f_name field) else "unnamed",
   getFieldTypeLabel field).

(** The node [createNode] hands to [graph.node] for a type. *)
Definition nodeOf (s : ParsedSchema) (type : SchemaType) : Node :=
  {| n_id := t_name type;
     n_isDocument := bool_decide (t_name type ∈ documentTypes s);
     n_rows := List.map rowOf (List.filter isVisibleField (default [] (t_fields type))) |}.

(** The suffix each relationship kind appends to the field id in its label. *)
Definition kindSuffix (k : RelationshipKind) : string :=
  match k with
  | DIRECT_REFERENCE | OBJECT_COMPOSITION => ""
  | INFERRED_REFERENCE => "?"
  | ARRAY_REFERENCE | ARRAY_COMPOSITION => "[]"
  | INFERRED_ARRAY_REFERENCE => "[]?"
  end.

(** The [type] of the top-level field in whose branch a kind is emitted. *)
Definition originKind (k : RelationshipKind) : string :=
  match k with
  | DIRECT_REFERENCE | INFERRED_REFERENCE => "reference"
  | OBJECT_COMPOSITION => "object"
  | ARRAY_REFERENCE | INFERRED_ARRAY_REFERENCE | ARRAY_COMPOSITION => "array"
  end.

(** A field as the script's schema.club normalizer leaves it, at every
    depth: name and type are non-empty; a reference has exactly one target,
    a non-empty name, and other kinds have none; only arrays have items. *)
Fixpoint normalized (f : SchemaField) : bool :=
  match f with
  | Build_SchemaField type name _ fields ofItems to =>
      truthy type && truthyOpt name
      && (if bool_decide (type = "reference")
          then match to with
               | Some [t] => truthy (tr_type t)
               | _ => false
               end
          else match to with None => true | Some _ => false end)
      && (match ofItems with
          | Some items => bool_decide (type = "array") && forallb normalized items
          | None => true
          end)
      && (match fields with
          | Some subFields => forallb normalized subFields
          | None => true
          end)
  end.

(** What every candidate of the field [fid] of the type [src] looks like:
    its source and port, its label and the kind's suffix, the field kind
    its relationship kind comes from, and a target that is a document or
    object type of the schema. *)
Definition shaped (s : ParsedSchema) (src fid originType : string) (c : Edge) : Prop :=
  e_source c = src
  /\ e_sourcePort c = leftPort fid
  /\ e_label c = fid +:+ kindSuffix (rel (e_style c))
  /\ displayLabel c = e_label c
  /\ originType = originKind (rel (e_style c))
  /\ exists ty, In ty (types s) /\ isDocumentOrObject ty = true
                /\ t_name ty = e_target c.

(** [P] holds of every field of an optional field list. *)
Definition allOf {A} (P : A -> Prop) (o : option (list A)) : Prop :=
  match o with
  | Some l => Forall P l
  | None => True
  end.

(** Induction over raw fields, through their items and nested fields. *)
Fixpoint RawField_nested_ind (P : Script.RawField -> Prop)
    (step : forall name type title fof ffields fto,
        allOf P fof -> allOf P ffields ->
        P (Script.Build_RawField name type title fof ffields fto))
    (r : Script.RawField) : P r :=
  match r with
  | Script.Build_RawField name type title fof ffields fto =>
      let all :=
        fix all (l : list Script.RawField) : Forall P l :=
          match l with
          | [] => Forall_nil_2 P
          | x :: l' => Forall_cons_2 P x l' (RawField_nested_ind P step x) (all l')
          end in
      step name type title fof ffields fto
        (match fof as o return allOf P o with
         | Some items => all items
         | None => I
         end)
        (match ffields as o return allOf P o with
         | Some subFields => all subFields
         | None => I
         end)
  end.

(** ** The script's Sanity parser: its simple-format transformation *)

Module SimpleFormat.

(** [SanityParser.transformSimpleField]: like the schema.club transformer,
    but an explicit [to] array of a reference is kept. *)
Fixpoint transformSimpleField (field : Script.RawField) : option SchemaField :=
  match field with
  | Script.Build_RawField name type title fof ffields fto =>
      if negb (truthyOpt name) || negb (truthyOpt type) then None
      else
        let name := default "" name in
        let type := default "" type in
        let toTargets :=
          if bool_decide (type = "reference") then
            match fto with
            | Some to =>
                (* Handle explicit references with 'to' property *)
                Some to
            | None =>
                (* Handle references without explicit 'to' - infer from name *)
                match Script.inferReferenceTarget name title with
                | Some possibleTarget => Some [ {| tr_type := possibleTarget |} ]
                | None => None
                end
            end
          else None in
        let ofItems :=
          match bool_decide (type = "array"), fof with
          | true, Some items => Some (omap transformSimpleField items)
          | _, _ => None
          end in
        let fields :=
          match ffields with
          | Some subFields => Some (omap transformSimpleField subFields)
          | None => None
          end in
        Some {| f_type := type; f_name := Some name; f_title := title;
                f_fields := fields; f_of := ofItems; f_to := toTargets |}
  end.

(** [SanityParser.transformSimpleType] *)
Definition transformSimpleType (simpleType : Script.RawType) : SchemaType :=
  {| t_name := default "" (Script.rt_name simpleType);
     t_type := default "" (Script.rt_type simpleType);
     t_title := Script.rt_title simpleType;
     t_fields :=
       match Script.rt_fields simpleType with
       | Some fields => Some (omap transformSimpleField fields)
       | None => None
       end;
     t_of := None |}.

(** No reference field, at any depth, carries an explicit [to]. *)
Fixpoint noExplicitTargets (field : Script.RawField) : bool :=
  match field with
  | Script.Build_RawField _ type _ fof ffields fto =>
      negb (bool_decide (type = Some "reference") && bool_decide (is_Some fto))
      && match fof with Some items => forallb noExplicitTargets items | None => true end
      && match ffields with
         | Some subFields => forallb noExplicitTargets subFields
         | None => true
         end
  end.

End SimpleFormat.

(** ** The script's Sanity parser: the format with nested attributes

    The entries of Sanity's extracted schema, as the transformer reads them.
    Every property may be missing; where one is present it has the type the
    transformer expects of it: [type], [name], [title] and [dereferencesTo]
    are strings, [value] is an object, [of] is an array of objects or a
    single object, and [attributes] is an object whose members are listed in
    the order [Object.entries] yields them. *)

Module SanityFormat.

#[local] Unset Elimination Schemes.
Inductive SanityNode := {
  sn_type : option string;
  sn_name : option string;
  sn_dereferencesTo : option string;
  sn_value : option SanityNode;
  sn_of : option (list SanityNode + SanityNode);
  sn_attributes : option (list (string * SanityNode))
}.
#[local] Set Elimination Schemes.

Record SanityEntry := {
  se_name : option string;
  se_type : option string;
  se_title : option string;
  se_fields : option (list Script.RawField);
  se_attributes : option (list (string * SanityNode));
  se_value : option SanityNode
}.

(** [SanityParser.getFieldType] *)
Definition getFieldType (value : SanityNode) : string :=
  match sn_type value with
  | Some type => if truthy type then type else "unknown"
  | None => "unknown"
  end.

(** What one pass of the loop of [extractAllReferencesRecursive] pushes for
    a node; each recursive call returns its own deduplicated list. *)
Fixpoint nodeReferences (node : SanityNode) : list string :=
  match node with
  | Build_SanityNode type name dereferencesTo value ofMembers attributes =>
      (* Direct reference *)
      (if truthyOpt dereferencesTo then [default "" dereferencesTo] else [])
      (* Inline type reference *)
      ++ (if bool_decide (type = Some "inline") && truthyOpt name
          then [default "" name] else [])
      (* Check nested value *)
      ++ match value with
         | Some v => dedupFirst [] (flat_map nodeReferences [v])
         | None => []
         end
      (* Check union 'of' arrays *)
      ++ match ofMembers with
         | Some (inl members) => dedupFirst [] (flat_map nodeReferences members)
         | _ => []
         end
      (* Check object attributes *)
      ++ match attributes with
         | Some entries =>
             flat_map
               (fun entry => dedupFirst [] (flat_map nodeReferences [snd entry]))
               entries
         | None => []
         end
  end.

(** [SanityParser.extractAllReferencesRecursive] *)
Definition extractAllReferencesRecursive (nodes : list SanityNode) : list string :=
  dedupFirst [] (flat_map nodeReferences nodes).

Definition referenceItem (targets : list string) : SchemaField :=
  {| f_type := "reference"; f_name := None; f_title := None; f_fields := None;
     f_of := None; f_to := Some (List.map (fun ref => {| tr_type := ref |}) targets) |}.

Definition plainItem (type : string) : SchemaField :=
  {| f_type := type; f_name := None; f_title := None; f_fields := None;
     f_of := None; f_to := None |}.

Definition nonEmpty {A} (l : list A) : bool :=
  match l with [] => false | _ :: _ => true end.

(** The callback of the [map] in [transformArrayItems]. *)
Definition transformArrayItem (item : SanityNode) : option SchemaField :=
  (* Direct reference case *)
  if truthyOpt (sn_dereferencesTo item)
  then Some (referenceItem [default "" (sn_dereferencesTo item)])
  else
    (* Union type case - check all union options *)
    let references :=
      match bool_decide (sn_type item = Some "union"), sn_of item with
      | true, Some (inl members) => extractAllReferencesRecursive members
      | _, _ => []
      end in
    if nonEmpty references then Some (referenceItem references)
    else
      (* Object with nested references *)
      let nestedRefs :=
        if bool_decide (sn_type item = Some "object")
        then extractAllReferencesRecursive [item] else [] in
      if nonEmpty nestedRefs then Some (referenceItem nestedRefs)
      else if truthyOpt (sn_type item) then Some (plainItem (default "" (sn_type item)))
      else match sn_value item with
           | Some value => Some (plainItem (getFieldType value))
           | None => None
           end.

(** [SanityParser.transformArrayItems] *)
Definition transformArrayItems (arrayOf : list SanityNode + SanityNode)
    : list SchemaField :=
  let arrayOf := match arrayOf with inl items => items | inr item => [item] end in
  omap transformArrayItem arrayOf.

(** [SanityParser.transformSanityField] *)
Fixpoint transformSanityField (fieldName : string) (fieldDef : SanityNode)
    : option SchemaField :=
  match sn_value fieldDef with
  | None => None
  | Some value =>
      let fieldType := getFieldType value in
      (* Handle references - check both top level and nested in value *)
      let '(fieldType, fieldTo) :=
        if truthyOpt (sn_dereferencesTo fieldDef) || truthyOpt (sn_dereferencesTo value)
        then
          let targetType :=
            if truthyOpt (sn_dereferencesTo fieldDef)
            then default "" (sn_dereferencesTo fieldDef)
            else default "" (sn_dereferencesTo value) in
          ("reference", Some [ {| tr_type := targetType |} ])
        else (fieldType, None) in
      (* Check for deeply nested references in the entire field definition *)
      let allRefs := extractAllReferencesRecursive [fieldDef] in
      let '(fieldType, fieldTo) :=
        match nonEmpty allRefs, fieldTo with
        | true, None =>
            ("reference", Some (List.map (fun ref => {| tr_type := ref |}) allRefs))
        | _, _ => (fieldType, fieldTo)
        end in
      (* Handle arrays *)
      let '(fieldType, fieldOf) :=
        match bool_decide (sn_type value = Some "array"), sn_of value with
        | true, Some arrayOf => ("array", Some (transformArrayItems arrayOf))
        | _, _ => (fieldType, None)
        end in
      (* Handle objects - check if it's a reference object first *)
      let '(fieldType, fieldTo, fieldFields) :=
        if bool_decide (sn_type value = Some "object") then
          if truthyOpt (sn_dereferencesTo value) then
            ("reference",
             Some [ {| tr_type := default "" (sn_dereferencesTo value) |} ], None)
          else
            match sn_attributes value with
            | Some attributes =>
                ("object", fieldTo,
                 Some
                   ((fix subFields (entries : list (string * SanityNode)) :=
                       match entries with
                       | [] => []
                       | (subFieldName, subFieldDef) :: rest =>
                           if negb (startsWithChar "_" subFieldName) then
                             match transformSanityField subFieldName subFieldDef with
                             | Some subField => subField :: subFields rest
                             | None => subFields rest
                             end
                           else subFields rest
                       end) attributes))
            | None => (fieldType, fieldTo, None)
            end
        else (fieldType, fieldTo, None) in
      Some {| f_type := fieldType; f_name := Some fieldName; f_title := None;
              f_fields := fieldFields; f_of := fieldOf; f_to := fieldTo |}
  end.

(** The loop over [Object.entries(attributesSource)] of
    [transformSanityType]. *)
Fixpoint transformAttributes (entries : list (string * SanityNode))
    : list SchemaField :=
  match entries with
  | [] => []
  | (fieldName, fieldDef) :: rest =>
      (* Skip internal Sanity fields that start with _ *)
      if startsWithChar "_" fieldName then transformAttributes rest
      else
        match transformSanityField fieldName fieldDef with
        | Some field => field :: transformAttributes rest
        | None => transformAttributes rest
        end
  end.

(** [SanityParser.transformSanityType] *)
Definition transformSanityType (sanityType : SanityEntry) : SchemaType :=
  (* Determine the actual type from Sanity's nested structure *)
  let actualType :=
    match se_type sanityType with
    | Some type => if truthy type then type else "object"
    | None => "object" (* default *)
    end in
  (* For Sanity "type" definitions, look deeper into the value structure *)
  let actualType :=
    match bool_decide (actualType = "type"), se_value sanityType with
    | true, Some value =>
        if truthyOpt (sn_type value) then default "" (sn_type value) else actualType
    | _, _ => actualType
    end in
  (* Transform attributes to fields - look in the right place for attributes *)
  let attributesSource :=
    match se_attributes sanityType with
    | Some attributes => Some attributes
    | None =>
        match se_value sanityType with
        | Some value => sn_attributes value
        | None => None
        end
    end in
  {| t_name := default "" (se_name sanityType);
     t_type := actualType;
     t_title := se_title sanityType;
     t_fields :=
       match attributesSource with
       | Some attributes => Some (transformAttributes attributes)
       | None => None
       end;
     t_of := None |}.

(** An entry read as the simple format reads it. *)
Definition asSimple (item : SanityEntry) : Script.RawType :=
  {| Script.rt_name := se_name item; Script.rt_type := se_type item;
     Script.rt_title := se_title item; Script.rt_fields := se_fields item |}.

(** [sampleItem && sampleItem.attributes && !sampleItem.fields] for
    [sampleItem = rawSchema[0]]. *)
Definition isComplexFormat (rawSchema : list SanityEntry) : bool :=
  match rawSchema with
  | sampleItem :: _ =>
      bool_decide (is_Some (se_attributes sampleItem))
      && negb (bool_decide (is_Some (se_fields sampleItem)))
  | [] => false
  end.

(** [SanityParser.parse], from the array it has parsed on: the types it
    hands to [createParsedSchema]. *)
Definition transformSchema (rawSchema : list SanityEntry) : list SchemaType :=
  let named :=
    List.filter (fun item => truthyOpt (se_name item) && truthyOpt (se_type item))
      rawSchema in
  if isComplexFormat rawSchema
  then List.map transformSanityType named
  else List.map (fun item => SimpleFormat.transformSimpleType (asSimple item)) named.

(** A node and everything the reference search visits below it: its value,
    the members of an [of] array, the values of its attributes. *)
Fixpoint visited (node : SanityNode) : list SanityNode :=
  match node with
  | Build_SanityNode _ _ _ value ofMembers attributes =>
      node
      :: match value with Some v => visited v | None => [] end
      ++ match ofMembers with
         | Some (inl members) => flat_map visited members
         | _ => []
         end
      ++ match attributes with
         | Some entries => flat_map (fun entry => visited (snd entry)) entries
         | None => []
         end
  end.

(** The node names [ref] as a reference: by [dereferencesTo], or as the
    name of an inline type. *)
Definition mentions (node : SanityNode) (ref : string) : Prop :=
  (sn_dereferencesTo node = Some ref /\ truthy ref = true)
  \/ (sn_type node = Some "inline" /\ sn_name node = Some ref /\ truthy ref = true).

(** Induction over nodes, through value, [of] and attributes. *)
Fixpoint SanityNode_nested_ind (P : SanityNode -> Prop)
    (step : forall type name dereferencesTo value ofMembers attributes,
        match value with Some v => P v | None => True end ->
        match ofMembers with
        | Some (inl members) => Forall P members
        | Some (inr single) => P single
        | None => True
        end ->
        match attributes with
        | Some entries => Forall (fun entry => P (snd entry)) entries
        | None => True
        end ->
        P (Build_SanityNode type name dereferencesTo value ofMembers attributes))
    (node : SanityNode) : P node :=
  match node with
  | Build_SanityNode type name dereferencesTo value ofMembers attributes =>
      step type name dereferencesTo value ofMembers attributes
        (match value as o return match o with Some v => P v | None => True end with
         | Some v => SanityNode_nested_ind P step v
         | None => I
         end)
        (match ofMembers as o
               return match o with
                      | Some (inl members) => Forall P members
                      | Some (inr single) => P single
                      | None => True
                      end with
         | Some (inl members) =>
             (fix all (l : list SanityNode) : Forall P l :=
                match l with
                | [] => Forall_nil_2 P
                | x :: l' =>
                    Forall_cons_2 P x l' (SanityNode_nested_ind P step x) (all l')
                end) members
         | Some (inr single) => SanityNode_nested_ind P step single
         | None => I
         end)
        (match attributes as o
               return match o with
                      | Some entries => Forall (fun entry => P (snd entry)) entries
                      | None => True
                      end with
         | Some entries =>
             (fix all (l : list (string * SanityNode))
                : Forall (fun entry => P (snd entry)) l :=
                match l with
                | [] => Forall_nil_2 (fun entry => P (snd entry))
                | x :: l' =>
                    Forall_cons_2 (fun entry => P (snd entry)) x l'
                      (SanityNode_nested_ind P step (snd x)) (all l')
                end) entries
         | None => I
         end)
  end.

Section Parse.

Variable fileSystem : string -> option string.
Variable JSON_parse : string -> RawValue (Element SanityEntry) + Thrown.
Variable js_eval : string -> RawValue (Element SanityEntry) + Thrown.

(** [SanityParser.parse] of the script.  [rawSchema[0]] is only tested for
    truth before its properties are read; the filter
    [(item) => item.name && item.type], which both branches start with, is
    the first code to read a property of every entry. *)
Definition SanityParser_parse (schemaPath : string) : Result ParsedSchema :=
  content <- loadFileContent fileSystem schemaPath ;;
  rawSchema <- parseJsonOrJs (Element SanityEntry) JSON_parse js_eval content ;;
  match rawSchema with
  | RawOther => Throw SanityUnrecognizedFormat
  | RawArray items =>
      entries <- readEntries "name" items ;;
      Ok (createParsedSchema (transformSchema entries) isDocument)
  end.

End Parse.

(** No field name, at any depth of nested object fields, begins with an
    underscore. *)
Fixpoint publicNames (f : SchemaField) : bool :=
  match f with
  | Build_SchemaField _ name _ fields _ _ =>
      match name with
      | Some n => negb (startsWithChar "_" n)
      | None => true
      end
      && match fields with
         | Some subFields => forallb publicNames subFields
         | None => true
         end
  end.

End SanityFormat.

(** ** A concrete schema in the nested format *)

Module SanityExamples.

Definition node (type dereferencesTo : option string)
    (value : option SanityFormat.SanityNode)
    (ofMembers : option (list SanityFormat.SanityNode + SanityFormat.SanityNode))
    (attributes : option (list (string * SanityFormat.SanityNode)))
    : SanityFormat.SanityNode :=
  {| SanityFormat.sn_type := type; SanityFormat.sn_name := None;
     SanityFormat.sn_dereferencesTo := dereferencesTo;
     SanityFormat.sn_value := value; SanityFormat.sn_of := ofMembers;
     SanityFormat.sn_attributes := attributes |}.

(** An attribute holding a string. *)
Definition stringAttribute : SanityFormat.SanityNode :=
  node (Some "objectAttribute") None (Some (node (Some "string") None None None None))
    None None.

(** An attribute holding a reference object that dereferences to [person]. *)
Definition authorAttribute : SanityFormat.SanityNode :=
  node (Some "objectAttribute") None
    (Some (node (Some "object") (Some "person") None None
             (Some [("_ref", stringAttribute)])))
    None None.

(** An attribute holding an array of objects. *)
Definition blocksAttribute : SanityFormat.SanityNode :=
  node (Some "objectAttribute") None
    (Some (node (Some "array") None None
             (Some (inr (node (Some "object") None None None
                           (Some [("text", stringAttribute)]))))
             None))
    None None.

(** An attribute holding an array of references to [person]. *)
Definition reviewersAttribute : SanityFormat.SanityNode :=
  node (Some "objectAttribute") None
    (Some (node (Some "array") None None
             (Some (inl [node (Some "object") (Some "person") None None None]))
             None))
    None None.

Definition post : SanityFormat.SanityEntry :=
  {| SanityFormat.se_name := Some "post"; SanityFormat.se_type := Some "document";
     SanityFormat.se_title := None; SanityFormat.se_fields := None;
     SanityFormat.se_attributes :=
       Some [("_id", stringAttribute); ("title", stringAttribute);
             ("author", authorAttribute); ("blocks", blocksAttribute);
             ("reviewers", reviewersAttribute)];
     SanityFormat.se_value := None |}.

Definition person : SanityFormat.SanityEntry :=
  {| SanityFormat.se_name := Some "person"; SanityFormat.se_type := Some "document";
     SanityFormat.se_title := None; SanityFormat.se_fields := None;
     SanityFormat.se_attributes := Some [("name", stringAttribute)];
     SanityFormat.se_value := None |}.

(** The field the transformer makes of [authorAttribute]. *)
Definition authorField : SchemaField :=
  {| f_type := "reference"; f_name := Some "author"; f_title := None;
     f_fields := None; f_of := None; f_to := Some [ {| tr_type := "person" |} ] |}.

(** The edge a conversion draws for the [reviewers] array of [post]. *)
Definition reviewersEdge : Edge :=
  candidate "post" "person" "reviewers" "[]" ARRAY_REFERENCE.

(** An entry of the simple format. *)
Definition simplePost : SanityFormat.SanityEntry :=
  {| SanityFormat.se_name := Some "post"; SanityFormat.se_type := Some "document";
     SanityFormat.se_title := None;
     SanityFormat.se_fields := Some [Examples.rawCategoryRef];
     SanityFormat.se_attributes := None; SanityFormat.se_value := None |}.

Definition simpleCategory : SanityFormat.SanityEntry :=
  {| SanityFormat.se_name := Some "category"; SanityFormat.se_type := Some "document";
     SanityFormat.se_title := None; SanityFormat.se_fields := None;
     SanityFormat.se_attributes := None; SanityFormat.se_value := None |}.

(** A host with one file, an array literal of the two simple entries, as
    the script's Sanity parser and as its schema.club parser read it. *)
Definition simpleLiteral : string :=
  "[{name: 'post', type: 'document', fields: [{name: 'categoryRef', type: 'reference'}]}, {name: 'category', type: 'document'}]".
Definition files (path : string) : option string :=
  if bool_decide (path = "schema.js") then Some simpleLiteral else None.
Definition strict {Entry} (content : string) : RawValue Entry + Thrown :=
  inr (ErrorObject "Unexpected token n in JSON at position 2").
Definition evaluate (code : string)
    : RawValue (Element SanityFormat.SanityEntry) + Thrown :=
  if bool_decide (code = "(" +:+ simpleLiteral +:+ ")")
  then inl (RawArray [Object simplePost; Object simpleCategory])
  else inr (ErrorObject "Unexpected identifier").
Definition evaluateClub (code : string) : RawValue (Element Script.RawType) + Thrown :=
  if bool_decide (code = "(" +:+ simpleLiteral +:+ ")")
  then inl (RawArray [Object (SanityFormat.asSimple simplePost);
                      Object (SanityFormat.asSimple simpleCategory)])
  else inr (ErrorObject "Unexpected identifier").

End SanityExamples.

(** * Properties *)

(** ** The schema is a frame of every method *)

Lemma offer_schema this c : schema (offer this c) = schema this.
Proof.
  unfold offer, createEdgeIfNotExists.
  destruct (bool_decide _); reflexivity.
Qed.

Lemma fold_offer_schema cs : forall this,
  schema (fold_left offer cs this) = schema this.
Proof.
  induction cs as [|c cs IH]; intros this; simpl; [reflexivity|].
  rewrite IH. apply offer_schema.
Qed.

Lemma createNode_schema this type : schema (createNode this type) = schema this.
Proof. reflexivity. Qed.

(** ** The fused code is a fold of [offer] over the candidate stream *)

Lemma fold_guarded_offer {A} (P : ParsedSchema -> A -> bool) (mk : A -> Edge)
    (l : list A) : forall this,
  fold_left (fun this a => if P (schema this) a then offer this (mk a) else this)
    l this
  = fold_left offer (List.map mk (List.filter (P (schema this)) l)) this.
Proof.
  induction l as [|a l IH]; intros this; simpl; [reflexivity|].
  rewrite IH. destruct (P (schema this) a) eqn:HP; simpl.
  - rewrite offer_schema. reflexivity.
  - reflexivity.
Qed.

Lemma fold_map_offer {A} (mk : A -> Edge) (l : list A) : forall this,
  fold_left (fun this a => offer this (mk a)) l this
  = fold_left offer (List.map mk l) this.
Proof.
  induction l as [|a l IH]; intros this; simpl; [reflexivity|apply IH].
Qed.

Lemma processArrayItemForEdges_fold this src fid item :
  processArrayItemForEdges this src fid item
  = fold_left offer (itemCandidates (schema this) src fid item) this.
Proof.
  unfold processArrayItemForEdges, itemCandidates.
  rewrite fold_left_app.
  set (refs := if bool_decide (f_type item = "reference") then _ else []).
  set (this1 := if bool_decide (f_type item = "reference") then _ else this).
  assert (H1 : this1 = fold_left offer refs this).
  { subst this1 refs. destruct (bool_decide (f_type item = "reference")); [|reflexivity].
    destruct (hasExplicitTargets item).
    - apply (fold_guarded_offer (fun s target => isGraphTarget s (tr_type target))
               (fun target => candidate src (tr_type target) fid "[]" ARRAY_REFERENCE)).
    - apply (fold_map_offer
               (fun targetType => candidate src targetType fid "[]?"
                                    INFERRED_ARRAY_REFERENCE)). }
  rewrite <- H1.
  assert (Hs : schema this1 = schema this).
  { rewrite H1. apply fold_offer_schema. }
  rewrite Hs.
  destruct (bool_decide (f_type item = "object") && truthyOpt (f_name item));
    [|reflexivity].
  destruct (findObjectType (schema this) (f_name item)); reflexivity.
Qed.

Lemma fold_items_offer src fid items : forall this,
  fold_left (fun this item => processArrayItemForEdges this src fid item) items this
  = fold_left offer (flat_map (itemCandidates (schema this) src fid) items) this.
Proof.
  induction items as [|item items IH]; intros this; simpl; [reflexivity|].
  rewrite fold_left_app, IH, processArrayItemForEdges_fold.
  rewrite fold_offer_schema. reflexivity.
Qed.

Lemma processFieldForEdges_fold this src fid field :
  processFieldForEdges this src fid field
  = fold_left offer (fieldCandidates (schema this) src fid field) this.
Proof.
  unfold processFieldForEdges, fieldCandidates.
  rewrite !fold_left_app.
  set (refs := if bool_decide (f_type field = "reference") then _ else []).
  set (this1 := if bool_decide (f_type field = "reference") then _ else this).
  assert (H1 : this1 = fold_left offer refs this).
  { subst this1 refs. destruct (bool_decide (f_type field = "reference")); [|reflexivity].
    destruct (hasExplicitTargets field).
    - apply (fold_guarded_offer (fun s target => isGraphTarget s (tr_type target))
               (fun target => plainCandidate src (tr_type target) fid DIRECT_REFERENCE)).
    - apply (fold_map_offer
               (fun targetType => candidate src targetType fid "?" INFERRED_REFERENCE)). }
  rewrite <- H1.
  assert (Hs1 : schema this1 = schema this).
  { rewrite H1. apply fold_offer_schema. }
  clearbody this1 refs.
  set (objs := if bool_decide (f_type field = "object") && _ then _ else []).
  set (this2 := if bool_decide (f_type field = "object") && _ then _ else this1).
  assert (H2 : this2 = fold_left offer objs this1).
  { subst this2 objs. rewrite Hs1.
    destruct (bool_decide (f_type field = "object") && truthyOpt (f_name field));
      [|reflexivity].
    destruct (findObjectType (schema this) (f_name field)); reflexivity. }
  rewrite <- H2.
  assert (Hs2 : schema this2 = schema this).
  { rewrite H2, fold_offer_schema. exact Hs1. }
  clearbody this2 objs.
  destruct (bool_decide (f_type field = "array")); [|reflexivity].
  destruct (f_of field) as [items|]; [|reflexivity].
  rewrite fold_items_offer, Hs2. reflexivity.
Qed.

Lemma createEdges_fold this sourceType :
  createEdges this sourceType
  = fold_left offer (typeCandidates (schema this) sourceType) this.
Proof.
  unfold createEdges, typeCandidates.
  destruct (t_fields sourceType) as [fields|]; [|reflexivity]. simpl.
  revert this. induction fields as [|field fields IH]; intros this; simpl;
    [reflexivity|].
  rewrite fold_left_app, IH. unfold isNamed.
  destruct (f_name field) as [name|]; simpl; [|reflexivity].
  destruct (truthy name); simpl; [|reflexivity].
  rewrite processFieldForEdges_fold, fold_offer_schema. reflexivity.
Qed.

Lemma createEdges_schema this sourceType :
  schema (createEdges this sourceType) = schema this.
Proof. rewrite createEdges_fold. apply fold_offer_schema. Qed.

Lemma edge_pass_fold tys : forall this,
  fold_left
    (fun this type => if isDocumentOrObject type then createEdges this type else this)
    tys this
  = fold_left offer
      (flat_map
         (fun type =>
            if isDocumentOrObject type then typeCandidates (schema this) type else [])
         tys)
      this.
Proof.
  induction tys as [|type tys IH]; intros this; simpl; [reflexivity|].
  rewrite fold_left_app, IH.
  destruct (isDocumentOrObject type); simpl; [|reflexivity].
  rewrite createEdges_fold, fold_offer_schema. reflexivity.
Qed.

(** The node pass touches neither the schema, nor the edges, nor the keys. *)
Lemma node_pass_frame tys : forall this,
  let this' :=
    fold_left
      (fun this type => if isDocumentOrObject type then createNode this type else this)
      tys this in
  schema this' = schema this
  /\ edges (graph this') = edges (graph this)
  /\ createdEdges this' = createdEdges this.
Proof.
  induction tys as [|type tys IH]; intros this; simpl; [tauto|].
  destruct (IH (if isDocumentOrObject type then createNode this type else this))
    as (Hs & He & Hk).
  rewrite Hs, He, Hk.
  destruct (isDocumentOrObject type); simpl; tauto.
Qed.

(** ** What a fold of [offer] leaves in the graph *)

Lemma fold_offer_edges cs : forall this,
  edges (graph (fold_left offer cs this))
  = edges (graph this) ++ firstOccurrences (createdEdges this) cs.
Proof.
  induction cs as [|c cs IH]; intros this; simpl.
  - rewrite app_nil_r. reflexivity.
  - rewrite IH. unfold offer, createEdgeIfNotExists. fold (keyOf c).
    destruct (bool_decide (keyOf c ∈ createdEdges this)); simpl; [reflexivity|].
    rewrite <- app_assoc. simpl. destruct c; reflexivity.
Qed.

Lemma convert_edges s :
  edges (graph (convert (newGraphConverter s)))
  = firstOccurrences ∅ (schemaCandidates s).
Proof.
  unfold convert.
  pose proof (node_pass_frame (types (schema (newGraphConverter s)))
                (newGraphConverter s)) as H.
  cbv zeta in H. destruct H as (Hs & He & Hk).
  rewrite Hs, edge_pass_fold, fold_offer_edges, Hs, He, Hk. reflexivity.
Qed.

Lemma firstOccurrences_In cs : forall seen e,
  In e (firstOccurrences seen cs) -> In e cs /\ keyOf e ∉ seen.
Proof.
  induction cs as [|c cs IH]; intros seen e; simpl; [intros []|].
  case_bool_decide as Hc.
  - intros He. destruct (IH _ _ He). tauto.
  - intros [Heq|He]; [subst e; tauto|].
    destruct (IH _ _ He) as [Hin Hk]. split; [tauto|].
    intros Hseen. apply Hk, elem_of_union_r, Hseen.
Qed.

Lemma firstOccurrences_NoDup cs : forall seen,
  NoDup (keyOf <$> firstOccurrences seen cs).
Proof.
  induction cs as [|c cs IH]; intros seen; simpl; [constructor|].
  case_bool_decide as Hc; [apply IH|].
  rewrite fmap_cons. apply NoDup_cons. split; [|apply IH].
  intros Hin. apply list_elem_of_fmap in Hin as (e & Hk & He).
  apply list_elem_of_In, firstOccurrences_In in He as [_ Hfresh].
  rewrite Hk in Hfresh. set_solver.
Qed.

(** Every candidate shows the label it is keyed by. *)
Lemma itemCandidates_label s src fid item c :
  In c (itemCandidates s src fid item) -> displayLabel c = e_label c.
Proof.
  unfold itemCandidates. rewrite in_app_iff. intros [H|H].
  - destruct (bool_decide _); [|contradiction].
    destruct (hasExplicitTargets item);
      apply in_map_iff in H as (? & <- & _); reflexivity.
  - destruct (_ && _); [|contradiction].
    destruct (findObjectType _ _); [|contradiction].
    destruct H as [<-|[]]. reflexivity.
Qed.

Lemma fieldCandidates_label s src fid field c :
  In c (fieldCandidates s src fid field) -> displayLabel c = e_label c.
Proof.
  unfold fieldCandidates. rewrite !in_app_iff. intros [H|[H|H]].
  - destruct (bool_decide _); [|contradiction].
    destruct (hasExplicitTargets field);
      apply in_map_iff in H as (? & <- & _); reflexivity.
  - destruct (_ && _); [|contradiction].
    destruct (findObjectType _ _); [|contradiction].
    destruct H as [<-|[]]. reflexivity.
  - destruct (bool_decide _); [|contradiction].
    destruct (f_of field); [|contradiction].
    apply in_flat_map in H as (item & _ & H).
    eapply itemCandidates_label; eauto.
Qed.

Lemma schemaCandidates_label s c :
  In c (schemaCandidates s) -> displayLabel c = e_label c.
Proof.
  unfold schemaCandidates. intros H.
  apply in_flat_map in H as (type & _ & H).
  destruct (isDocumentOrObject type); [|contradiction].
  unfold typeCandidates in H.
  apply in_flat_map in H as (field & _ & H).
  destruct (isNamed field); [|contradiction].
  eapply fieldCandidates_label; eauto.
Qed.

Lemma keyOf_identity c :
  displayLabel c = e_label c ->
  keyOf c = (fun '(src, tgt, lbl) => edgeKey src tgt lbl) (edgeIdentity c).
Proof. unfold keyOf, edgeIdentity. intros ->. reflexivity. Qed.

Lemma first_occurrence_found cs :
  (forall c, In c cs -> displayLabel c = e_label c) ->
  forall seen e,
    In e (firstOccurrences seen cs) ->
    List.find (fun c => bool_decide (edgeIdentity c = edgeIdentity e)) cs = Some e.
Proof.
  induction cs as [|c cs IH]; intros Hlbl seen e; simpl; [tauto|].
  assert (Hsame : edgeIdentity c = edgeIdentity e -> In e cs -> keyOf c = keyOf e).
  { intros Hid Hin.
    rewrite (keyOf_identity c) by (apply Hlbl; left; reflexivity).
    rewrite (keyOf_identity e) by (apply Hlbl; right; exact Hin).
    rewrite Hid. reflexivity. }
  specialize (IH (fun c' Hc' => Hlbl c' (or_intror Hc'))).
  case_bool_decide as Hc.
  - intros He. destruct (firstOccurrences_In _ _ _ He) as [Hin Hfresh].
    case_bool_decide as Hid.
    + exfalso. apply Hfresh. rewrite <- (Hsame Hid Hin). exact Hc.
    + exact (IH _ _ He).
  - intros [Heq|He].
    + subst e. rewrite bool_decide_eq_true_2; reflexivity.
    + destruct (firstOccurrences_In _ _ _ He) as [Hin Hfresh].
      case_bool_decide as Hid.
      * exfalso. apply Hfresh. rewrite <- (Hsame Hid Hin). set_solver.
      * exact (IH _ _ He).
Qed.

(** ** C1: no duplicate edges, first occurrence kept *)

(** For every schema, the edges the converter emits are the first
    occurrences, by dedup key, of the candidate calls taken in type order
    and then field order; no two emitted edges agree on all of source type,
    target type and display label; and an emitted edge is the first
    candidate of its (source, target, display label), style included. *)
Theorem convert_no_duplicate_edges (s : ParsedSchema) :
  edges (graph (convert (newGraphConverter s)))
    = firstOccurrences ∅ (schemaCandidates s)
  /\ NoDup (edgeIdentity <$> edges (graph (convert (newGraphConverter s))))
  /\ forall e,
       In e (edges (graph (convert (newGraphConverter s)))) ->
       List.find (fun c => bool_decide (edgeIdentity c = edgeIdentity e))
         (schemaCandidates s) = Some e.
Proof.
  rewrite convert_edges. split; [reflexivity|]. split.
  - apply (NoDup_fmap_1 (fun '(src, tgt, lbl) => edgeKey src tgt lbl)).
    rewrite <- list_fmap_compose.
    erewrite list_fmap_ext; [apply (firstOccurrences_NoDup _ ∅)|].
    intros i e He. simpl. symmetry. apply keyOf_identity.
    apply (schemaCandidates_label s).
    apply list_elem_of_lookup_2, list_elem_of_In in He.
    apply firstOccurrences_In in He. tauto.
  - intros e He. eapply first_occurrence_found; [|exact He].
    intros c. apply schemaCandidates_label.
Qed.

Lemma convert_no_duplicate_edges_witness :
  List.find (fun c => bool_decide (edgeIdentity c = edgeIdentity Examples.tagsEdge))
    (schemaCandidates Examples.taggedSchema) = Some Examples.tagsEdge.
Proof.
  apply (proj2 (proj2 (convert_no_duplicate_edges Examples.taggedSchema))).
  vm_compute. left. reflexivity.
Defined.

(** The dedup key is a concatenation, so two different
    (source, target, label) triples can produce one key. *)
Lemma edgeKey_not_injective :
  edgeKey "a" "b:c" "d" = edgeKey "a" "b" "c:d"
  /\ ("a", "b:c", "d") <> ("a", "b", "c:d").
Proof. split; [reflexivity|discriminate]. Qed.

Lemma find_split {A} (p : A -> bool) (l : list A) (x : A) :
  List.find p l = Some x ->
  exists before after,
    l = before ++ x :: after /\ forall y, In y before -> p y = false.
Proof.
  induction l as [|a l IH]; cbn [List.find]; [discriminate|].
  destruct (p a) eqn:Hp.
  - intros [= ->]. exists [], l. split; [reflexivity|intros y []].
  - intros Hfind. destruct (IH Hfind) as (before & after & -> & Hbefore).
    exists (a :: before), after. split; [reflexivity|].
    intros y [<-|Hy]; [exact Hp|exact (Hbefore y Hy)].
Qed.

Lemma firstOccurrences_keeps (before : list Edge) :
  forall seen e after,
    keyOf e ∉ seen ->
    (forall c, In c before -> keyOf c <> keyOf e) ->
    In e (firstOccurrences seen (before ++ e :: after)).
Proof.
  induction before as [|c before IH]; intros seen e after Hfresh Hbefore;
    cbn [app firstOccurrences].
  - rewrite bool_decide_eq_false_2 by exact Hfresh. left. reflexivity.
  - assert (Hc : keyOf c <> keyOf e) by (apply Hbefore; left; reflexivity).
    assert (Hrest : forall c', In c' before -> keyOf c' <> keyOf e)
      by (intros c' Hc'; apply Hbefore; right; exact Hc').
    case_bool_decide as Hseen.
    + apply IH; assumption.
    + right. apply IH; [|exact Hrest]. clear -Hfresh Hc. set_solver.
Qed.

(** Where no two candidates with different (source, target, display
    label) have one dedup key, the first candidate of every triple is
    emitted: the rule the key stands for is kept in full. *)
Lemma first_of_triple_kept_without_collision (s : ParsedSchema) :
  (forall c c',
      In c (schemaCandidates s) -> In c' (schemaCandidates s) ->
      keyOf c = keyOf c' -> edgeIdentity c = edgeIdentity c') ->
  forall c,
    In c (schemaCandidates s) ->
    exists e,
      List.find (fun c' => bool_decide (edgeIdentity c' = edgeIdentity c))
        (schemaCandidates s) = Some e
      /\ In e (edges (graph (convert (newGraphConverter s)))).
Proof.
  intros Hinj c Hc. rewrite convert_edges.
  destruct (List.find (fun c' => bool_decide (edgeIdentity c' = edgeIdentity c))
              (schemaCandidates s)) as [e|] eqn:Hfind.
  - exists e. split; [reflexivity|].
    destruct (find_some _ _ Hfind) as [He Hsame].
    apply bool_decide_eq_true in Hsame.
    destruct (find_split _ _ _ Hfind) as (before & after & Hsplit & Hbefore).
    rewrite Hsplit. apply firstOccurrences_keeps; [set_solver|].
    intros c' Hc' Hkey.
    assert (Hin : In c' (schemaCandidates s))
      by (rewrite Hsplit; apply in_or_app; left; exact Hc').
    specialize (Hbefore c' Hc'). apply bool_decide_eq_false in Hbefore.
    apply Hbefore. rewrite (Hinj c' e Hin He Hkey). exact Hsame.
  - pose proof (find_none _ _ Hfind c Hc) as Hnone.
    apply bool_decide_eq_false in Hnone. contradiction Hnone. reflexivity.
Qed.

Lemma first_of_triple_kept_example :
  exists e,
    List.find
      (fun c' => bool_decide
                   (edgeIdentity c'
                    = edgeIdentity (candidate "a" "b" "e" "[]" ARRAY_COMPOSITION)))
      (schemaCandidates Examples.separateSchema) = Some e
    /\ In e (edges (graph (convert (newGraphConverter Examples.separateSchema)))).
Proof.
  assert (Hcs : schemaCandidates Examples.separateSchema
                = [ candidate "a" "b:c" "d" "[]" ARRAY_REFERENCE;
                    candidate "a" "b" "e" "[]" ARRAY_REFERENCE;
                    candidate "a" "b" "e" "[]" ARRAY_COMPOSITION ])
    by (vm_compute; reflexivity).
  apply first_of_triple_kept_without_collision; rewrite Hcs.
  - intros c c' [<-|[<-|[<-|[]]]] [<-|[<-|[<-|[]]]] Hkey;
      try reflexivity; vm_compute in Hkey; discriminate Hkey.
  - right. right. left. reflexivity.
Qed.

(** C1 (code defect).  The dedup key is the text [source->target:label],
    and different triples can give one text.  On [collidingSchema] the
    candidates of [a] are, in order, an array reference to [b:c] labelled
    [d[]], then an array reference and an array composition to [b], both
    labelled [c:d[]].  All three have the key [a->b:c:d[]], so the
    converter emits the first and nothing else: the two candidates that
    share the triple of [a], [b] and [c:d[]] are both dropped, although no
    emitted edge has that triple.  With the second field named [e] the keys
    differ, and the first candidate of each triple is kept, the later one
    of the same triple dropped. *)
Theorem colliding_keys_lose_a_triple :
  schemaCandidates Examples.collidingSchema
  = [ candidate "a" "b:c" "d" "[]" ARRAY_REFERENCE;
      candidate "a" "b" "c:d" "[]" ARRAY_REFERENCE;
      candidate "a" "b" "c:d" "[]" ARRAY_COMPOSITION ]
  /\ keyOf (candidate "a" "b" "c:d" "[]" ARRAY_REFERENCE)
     = keyOf (candidate "a" "b:c" "d" "[]" ARRAY_REFERENCE)
  /\ edgeIdentity (candidate "a" "b" "c:d" "[]" ARRAY_REFERENCE)
     <> edgeIdentity (candidate "a" "b:c" "d" "[]" ARRAY_REFERENCE)
  /\ edgeIdentity (candidate "a" "b" "c:d" "[]" ARRAY_COMPOSITION)
     = edgeIdentity (candidate "a" "b" "c:d" "[]" ARRAY_REFERENCE)
  /\ edges (graph (convert (newGraphConverter Examples.collidingSchema)))
     = [ candidate "a" "b:c" "d" "[]" ARRAY_REFERENCE ]
  /\ schemaCandidates Examples.separateSchema
     = [ candidate "a" "b:c" "d" "[]" ARRAY_REFERENCE;
         candidate "a" "b" "e" "[]" ARRAY_REFERENCE;
         candidate "a" "b" "e" "[]" ARRAY_COMPOSITION ]
  /\ edges (graph (convert (newGraphConverter Examples.separateSchema)))
     = [ candidate "a" "b:c" "d" "[]" ARRAY_REFERENCE;
         candidate "a" "b" "e" "[]" ARRAY_REFERENCE ].
Proof.
  split; [vm_compute; reflexivity|]. split; [reflexivity|].
  split; [discriminate|]. split; [reflexivity|].
  repeat split; vm_compute; reflexivity.
Qed.

(** ** C9: the schema is read only *)

(** C9.  A conversion run (node pass, then edge pass) leaves the schema of
    the converter as it was: started on the normalizer's [ParsedSchema], the
    converter still holds that very value afterwards. *)
Theorem convert_preserves_schema :
  (forall this : GraphConverter, schema (convert this) = schema this)
  /\ (forall s : ParsedSchema, schema (convert (newGraphConverter s)) = s).
Proof.
  assert (H : forall this, schema (convert this) = schema this).
  { intros this. unfold convert.
    pose proof (node_pass_frame (types (schema this)) this) as Hn.
    cbv zeta in Hn. destruct Hn as (Hs & _ & _).
    rewrite edge_pass_fold, fold_offer_schema. exact Hs. }
  split; [exact H|]. intros s. rewrite H. reflexivity.
Qed.

(** ** C10: resolution starts from named fields only *)

Lemma typeCandidates_unnamed s sourceType before field after :
  isNamed field = false ->
  typeCandidates s (withFields sourceType (before ++ field :: after))
  = typeCandidates s (withFields sourceType (before ++ after)).
Proof.
  intros Hf. unfold typeCandidates. simpl.
  rewrite !flat_map_app. simpl. rewrite Hf. reflexivity.
Qed.

(** C10.  A top-level field whose name is absent (or empty) contributes
    nothing: with or without it, [createEdges] ends in the same converter,
    whatever the field's kind, targets or items; and the edges a type adds
    all come from the candidates of its named fields. *)
Theorem unnamed_field_yields_no_edges
    (this : GraphConverter) (sourceType : SchemaType)
    (before after : list SchemaField) (field : SchemaField) :
  isNamed field = false ->
  createEdges this (withFields sourceType (before ++ field :: after))
  = createEdges this (withFields sourceType (before ++ after))
  /\ createEdges this (withFields sourceType (before ++ field :: after))
     = fold_left offer
         (flat_map
            (fun f => fieldCandidates (schema this) (t_name sourceType)
                        (default "" (f_name f)) f)
            (List.filter isNamed (before ++ after)))
         this.
Proof.
  intros Hf. rewrite !createEdges_fold, typeCandidates_unnamed by exact Hf.
  split; [reflexivity|]. f_equal.
  unfold typeCandidates. simpl.
  induction (before ++ after) as [|f l IH]; simpl; [reflexivity|].
  rewrite IH. destruct (isNamed f); reflexivity.
Qed.

Lemma unnamed_field_yields_no_edges_witness :
  createEdges (newGraphConverter Examples.productSchema) Examples.anonymous
  = createEdges (newGraphConverter Examples.productSchema) Examples.product.
Proof.
  exact (proj1 (unnamed_field_yields_no_edges
                  (newGraphConverter Examples.productSchema) Examples.product
                  [] [Examples.categoryRef] Examples.unnamedRef eq_refl)).
Defined.

(** ** C6: unresolvable targets and fields are skipped *)

Lemma findPossibleReferenceTargets_sound s fieldName fieldTitle t :
  In t (findPossibleReferenceTargets s fieldName fieldTitle) ->
  isGraphTarget s t = true.
Proof.
  unfold findPossibleReferenceTargets.
  destruct (isGraphTarget s fieldName) eqn:Hn;
    destruct fieldTitle as [title|];
    try destruct (truthy title && isGraphTarget s (toLowerCase title)) eqn:Ht;
    destruct (negb (bool_decide (replaceRefSuffix fieldName = fieldName))
              && isGraphTarget s (replaceRefSuffix fieldName)) eqn:Hc;
    simpl; intros H;
    repeat match goal with
           | H : _ \/ _ |- _ => destruct H as [H|H]
           | H : False |- _ => destruct H
           end;
    subst;
    try exact Hn;
    try (apply andb_prop in Ht; exact (proj2 Ht));
    try (apply andb_prop in Hc; exact (proj2 Hc)).
Qed.

Lemma itemCandidates_reference_target s src fid item c :
  In c (itemCandidates s src fid item) ->
  isReferenceKind (rel (e_style c)) = true ->
  isGraphTarget s (e_target c) = true.
Proof.
  unfold itemCandidates. rewrite in_app_iff. intros [H|H] Hk.
  - destruct (bool_decide _); [|contradiction].
    destruct (hasExplicitTargets item); apply in_map_iff in H as (t & <- & Ht); simpl.
    + apply filter_In in Ht. tauto.
    + eapply findPossibleReferenceTargets_sound; eauto.
  - destruct (_ && _); [|contradiction].
    destruct (findObjectType _ _); [|contradiction].
    destruct H as [<-|[]]. discriminate Hk.
Qed.

Lemma fieldCandidates_reference_target s src fid field c :
  In c (fieldCandidates s src fid field) ->
  isReferenceKind (rel (e_style c)) = true ->
  isGraphTarget s (e_target c) = true.
Proof.
  unfold fieldCandidates. rewrite !in_app_iff. intros [H|[H|H]] Hk.
  - destruct (bool_decide _); [|contradiction].
    destruct (hasExplicitTargets field); apply in_map_iff in H as (t & <- & Ht); simpl.
    + apply filter_In in Ht. tauto.
    + eapply findPossibleReferenceTargets_sound; eauto.
  - destruct (_ && _); [|contradiction].
    destruct (findObjectType _ _); [|contradiction].
    destruct H as [<-|[]]. discriminate Hk.
  - destruct (bool_decide _); [|contradiction].
    destruct (f_of field); [|contradiction].
    apply in_flat_map in H as (item & _ & H).
    eapply itemCandidates_reference_target; eauto.
Qed.

Lemma new_edges_are_candidates cs this e :
  In e (edges (graph (fold_left offer cs this))) ->
  In e (edges (graph this)) \/ In e cs.
Proof.
  rewrite fold_offer_edges, in_app_iff. intros [H|H]; [tauto|].
  apply firstOccurrences_In in H. tauto.
Qed.

Lemma filter_all_false {A} (P : A -> bool) (l : list A) :
  (forall a, In a l -> P a = false) -> List.filter P l = [].
Proof.
  induction l as [|a l IH]; intros H; simpl; [reflexivity|].
  rewrite (H a) by (left; reflexivity). apply IH.
  intros b Hb. apply H. right. exact Hb.
Qed.

(** C6.  Resolution is a total function into converters (there is no error
    outcome).  Processing a field or an array item adds no reference edge
    whose target fails the registry test (absent from [allTypeNames], or of
    a category other than document and object); a reference field none of
    whose explicit targets passes, or which has none and for which the
    heuristic finds nothing, leaves the converter as it was; so does an
    object field whose name is no object type; and so does a field that is
    neither reference, object nor array. *)
Theorem unresolvable_targets_yield_no_edges
    (this : GraphConverter) (src fid : string) (field : SchemaField) :
  (forall e,
      In e (edges (graph (processFieldForEdges this src fid field))) ->
      isReferenceKind (rel (e_style e)) = true ->
      isGraphTarget (schema this) (e_target e) = false ->
      In e (edges (graph this)))
  /\ (forall e,
      In e (edges (graph (processArrayItemForEdges this src fid field))) ->
      isReferenceKind (rel (e_style e)) = true ->
      isGraphTarget (schema this) (e_target e) = false ->
      In e (edges (graph this)))
  /\ (f_type field = "reference" ->
      (forall t, In t (default [] (f_to field)) ->
                 isGraphTarget (schema this) (tr_type t) = false) ->
      (hasExplicitTargets field = false ->
       findPossibleReferenceTargets (schema this) fid (f_title field) = []) ->
      processFieldForEdges this src fid field = this
      /\ processArrayItemForEdges this src fid field = this)
  /\ (f_type field = "object" ->
      findObjectType (schema this) (f_name field) = None ->
      processFieldForEdges this src fid field = this
      /\ processArrayItemForEdges this src fid field = this)
  /\ (f_type field <> "reference" -> f_type field <> "object" ->
      f_type field <> "array" ->
      processFieldForEdges this src fid field = this
      /\ processArrayItemForEdges this src fid field = this).
Proof.
  split; [|split; [|split; [|split]]].
  - intros e He Hk Ht. rewrite processFieldForEdges_fold in He.
    apply new_edges_are_candidates in He as [He|He]; [exact He|].
    apply fieldCandidates_reference_target in He; [congruence|exact Hk].
  - intros e He Hk Ht. rewrite processArrayItemForEdges_fold in He.
    apply new_edges_are_candidates in He as [He|He]; [exact He|].
    apply itemCandidates_reference_target in He; [congruence|exact Hk].
  - intros Hty Hall Hinf.
    rewrite processFieldForEdges_fold, processArrayItemForEdges_fold.
    unfold fieldCandidates, itemCandidates.
    rewrite Hty, (bool_decide_eq_true_2 _ eq_refl).
    rewrite !(bool_decide_eq_false_2 ("reference" = _)) by discriminate. simpl.
    rewrite !app_nil_r.
    destruct (hasExplicitTargets field).
    + rewrite filter_all_false by exact Hall. split; reflexivity.
    + rewrite Hinf by reflexivity. split; reflexivity.
  - intros Hty Hnone.
    rewrite processFieldForEdges_fold, processArrayItemForEdges_fold.
    unfold fieldCandidates, itemCandidates.
    rewrite Hnone, Hty.
    rewrite !(bool_decide_eq_false_2 ("object" = _)) by discriminate. simpl.
    destruct (truthyOpt (f_name field)); split; reflexivity.
  - intros Hr Ho Ha.
    rewrite processFieldForEdges_fold, processArrayItemForEdges_fold.
    unfold fieldCandidates, itemCandidates.
    rewrite !bool_decide_eq_false_2 by assumption. split; reflexivity.
Qed.

Lemma unresolvable_targets_yield_no_edges_witness :
  (processFieldForEdges (newGraphConverter Examples.productSchema)
     "product" "owner" Examples.ghostRef
   = newGraphConverter Examples.productSchema)
  /\ (processFieldForEdges (newGraphConverter Examples.aliasSchema)
        "product" "slug" Examples.slugRef
      = newGraphConverter Examples.aliasSchema).
Proof.
  split.
  - refine (proj1 (proj1 (proj2 (proj2 (unresolvable_targets_yield_no_edges
              (newGraphConverter Examples.productSchema) "product" "owner"
              Examples.ghostRef))) eq_refl _ _)).
    + intros t [<-|[]]. vm_compute. reflexivity.
    + intros H. vm_compute in H. discriminate H.
  - refine (proj1 (proj1 (proj2 (proj2 (unresolvable_targets_yield_no_edges
              (newGraphConverter Examples.aliasSchema) "product" "slug"
              Examples.slugRef))) eq_refl _ _)).
    + intros t [<-|[]]. vm_compute. reflexivity.
    + intros H. vm_compute in H. discriminate H.
Defined.

(** ** C2: what the resolver's heuristic returns *)

(** C2 fails as worded.  With the registry holding the document [category],
    the field [category] titled [Category] yields the same name twice, so
    the list is not deduplicated; and with the registry holding [blogpost],
    the title [Blog Post] is looked up as [blog post] (white space kept) and
    yields nothing, where the wording of the specification yields
    [blogpost]. *)
Lemma findPossibleReferenceTargets_not_as_specified :
  findPossibleReferenceTargets Examples.categoryOnly "category" (Some "Category")
    = ["category"; "category"]
  /\ ~ NoDup (findPossibleReferenceTargets Examples.categoryOnly "category"
                (Some "Category"))
  /\ findPossibleReferenceTargets_spec Examples.categoryOnly "category"
       (Some "Category") = ["category"]
  /\ findPossibleReferenceTargets Examples.blogOnly "post" (Some "Blog Post") = []
  /\ findPossibleReferenceTargets_spec Examples.blogOnly "post" (Some "Blog Post")
     = ["blogpost"].
Proof.
  assert (H : findPossibleReferenceTargets Examples.categoryOnly "category"
                (Some "Category") = ["category"; "category"])
    by (vm_compute; reflexivity).
  split; [exact H|]. split.
  - rewrite H. intros Hnd. apply NoDup_cons in Hnd as [Hnotin _].
    apply Hnotin. left.
  - repeat split; vm_compute; reflexivity.
Qed.

Lemma findPossibleReferenceTargets_tried
    (s : ParsedSchema) (fieldName : string) (fieldTitle : option string) :
  findPossibleReferenceTargets s fieldName fieldTitle
  = List.filter (isGraphTarget s) (triedNames fieldName fieldTitle).
Proof.
  unfold findPossibleReferenceTargets, triedNames.
  rewrite !List.filter_app. simpl.
  destruct (isGraphTarget s fieldName); simpl;
    destruct fieldTitle as [title|]; simpl;
    try (destruct (truthy title); simpl;
         try destruct (isGraphTarget s (toLowerCase title)); simpl);
    destruct (bool_decide (replaceRefSuffix fieldName = fieldName)); simpl;
    try destruct (isGraphTarget s (replaceRefSuffix fieldName)); reflexivity.
Qed.

(** C2 (amended).  The result is the list of the tried names that pass the
    registry test, in the order tried and with repetitions kept: the field
    name; the title lower-cased (white space untouched), when the title is
    non-empty; the field name without its trailing ref, id, _ref or _id,
    when that differs from the field name.  Each name is tested on its own
    and a failing one is dropped. *)
Theorem findPossibleReferenceTargets_filters_tried_names
    (s : ParsedSchema) (fieldName : string) (fieldTitle : option string) :
  findPossibleReferenceTargets s fieldName fieldTitle
  = List.filter (isGraphTarget s) (triedNames fieldName fieldTitle).
Proof.
  unfold findPossibleReferenceTargets, triedNames.
  rewrite !List.filter_app. simpl.
  destruct (isGraphTarget s fieldName); simpl;
    destruct fieldTitle as [title|]; simpl;
    try (destruct (truthy title); simpl;
         try destruct (isGraphTarget s (toLowerCase title)); simpl);
    destruct (bool_decide (replaceRefSuffix fieldName = fieldName)); simpl;
    try destruct (isGraphTarget s (replaceRefSuffix fieldName)); reflexivity.
Qed.

(** ** C3: the eager inference of the script's normalizer *)

(** C3 fails as worded.  For the field [authorRef] titled [Writer] and a
    registry with the documents [author] and [writer], the normalizer infers
    the single target [author] while the resolver's heuristic finds [writer]
    and then [author]; for [categoryRef] and an empty registry the
    normalizer still infers [category] while the heuristic finds nothing. *)
Lemma inferReferenceTarget_not_the_resolver_heuristic :
  targetList (Script.inferReferenceTarget "authorRef" (Some "Writer")) = ["author"]
  /\ findPossibleReferenceTargets Examples.authors "authorRef" (Some "Writer")
     = ["writer"; "author"]
  /\ targetList (Script.inferReferenceTarget "categoryRef" None) = ["category"]
  /\ findPossibleReferenceTargets Examples.emptySchema "categoryRef" None = [].
Proof. repeat split; vm_compute; reflexivity. Qed.

Lemma truthy_false s : truthy s = false -> s = "".
Proof.
  unfold truthy. case_bool_decide; [trivial|discriminate].
Qed.

Lemma inferReferenceTarget_unfolded (fieldName : string) (fieldTitle : option string) :
  Script.inferReferenceTarget fieldName fieldTitle
  = (let title :=
       match fieldTitle with
       | Some title => removeWhitespace (toLowerCase title)
       | None => ""
       end in
     if truthy (replaceRefSuffix fieldName) then Some (replaceRefSuffix fieldName)
     else if truthy title then Some title
     else if truthy fieldName then Some fieldName
     else None).
Proof.
  unfold Script.inferReferenceTarget. cbv zeta.
  assert (Hlen : forall p, truthy p = true ->
                   (truthy p && (0 <? String.length p)%nat) = true).
  { intros [|c p] Hp; [discriminate Hp|reflexivity]. }
  assert (Hplural : truthy fieldName = false -> endsWithChar "s" fieldName = false).
  { intros Hn. apply truthy_false in Hn. subst fieldName. reflexivity. }
  assert (Hempty : forall t, truthy t = false ->
                     truthy (removeWhitespace (toLowerCase t)) = false).
  { intros t Ht. apply truthy_false in Ht. subst t. reflexivity. }
  destruct fieldTitle as [title|];
    [destruct (truthy title) eqn:Ht; [|rewrite (Hempty _ Ht)]|];
    (destruct (truthy fieldName) eqn:Hn;
      [destruct (endsWithChar "s" fieldName)|rewrite (Hplural eq_refl)]);
    cbn [omap list_omap List.filter];
    (destruct (truthy (replaceRefSuffix fieldName)) eqn:Hclean;
      [cbn [List.find]; rewrite (Hlen _ Hclean); reflexivity|]);
    try (destruct (truthy (removeWhitespace (toLowerCase title))) eqn:Hw;
         [cbn [List.find]; rewrite (Hlen _ Hw); reflexivity|]);
    rewrite ?Hn; cbn [List.find]; rewrite ?(Hlen _ Hn); reflexivity.
Qed.

(** C3 (amended).  For a reference field that comes without targets, the
    normalizer infers at most one, consulting no registry: the field name
    without its trailing ref, id, _ref or _id when that is not empty,
    otherwise the title lower-cased with white space removed when that is
    not empty, otherwise the field name; the field gets this name as its
    only target.  When the stripped name is not empty it is one of the
    names the resolver's heuristic tries, so the resolver's result holds it
    whenever the registry has it as a document or object type. *)
Theorem inferReferenceTarget_first_nonempty
    (fieldName : string) (fieldTitle : option string) :
  Script.inferReferenceTarget fieldName fieldTitle
  = (let title :=
       match fieldTitle with
       | Some title => removeWhitespace (toLowerCase title)
       | None => ""
       end in
     if truthy (replaceRefSuffix fieldName) then Some (replaceRefSuffix fieldName)
     else if truthy title then Some title
     else if truthy fieldName then Some fieldName
     else None)
  /\ (forall fof ffields fto,
        default [] fto = [] ->
        f_to <$> Script.transformSchemaClubField
                   {| Script.rf_name := Some fieldName;
                      Script.rf_type := Some "reference";
                      Script.rf_title := fieldTitle; Script.rf_of := fof;
                      Script.rf_fields := ffields; Script.rf_to := fto |}
        = if truthy fieldName
          then Some ((fun t => [ {| tr_type := t |} ])
                       <$> Script.inferReferenceTarget fieldName fieldTitle)
          else None)
  /\ (truthy (replaceRefSuffix fieldName) = true ->
      Script.inferReferenceTarget fieldName fieldTitle
      = Some (replaceRefSuffix fieldName)
      /\ In (replaceRefSuffix fieldName) (triedNames fieldName fieldTitle)
      /\ forall s,
           isGraphTarget s (replaceRefSuffix fieldName) = true ->
           In (replaceRefSuffix fieldName)
             (findPossibleReferenceTargets s fieldName fieldTitle)).
Proof.
  split; [apply inferReferenceTarget_unfolded|]. split.
  { intros fof ffields fto _. simpl.
    destruct (truthy fieldName); simpl; [|reflexivity].
    destruct (Script.inferReferenceTarget fieldName fieldTitle); reflexivity. }
  intros Hstem.
  assert (Htried : In (replaceRefSuffix fieldName) (triedNames fieldName fieldTitle)).
  { unfold triedNames. case_bool_decide as Hsame.
    - rewrite Hsame. left. reflexivity.
    - apply in_or_app. right. apply in_or_app. right. left. reflexivity. }
  split; [|split; [exact Htried|]].
  - rewrite inferReferenceTarget_unfolded. cbv zeta. rewrite Hstem. reflexivity.
  - intros s Htarget. rewrite findPossibleReferenceTargets_tried.
    apply filter_In. split; assumption.
Qed.

Lemma inferReferenceTarget_first_nonempty_witness :
  f_to <$> Script.transformSchemaClubField Examples.rawCategoryRef
  = Some (Some [ {| tr_type := "category" |} ])
  /\ Script.inferReferenceTarget "categoryRef" None = Some "category"
  /\ In "category" (triedNames "categoryRef" None)
  /\ forall s,
       isGraphTarget s "category" = true ->
       In "category" (findPossibleReferenceTargets s "categoryRef" None).
Proof.
  split.
  - exact (proj1 (proj2 (inferReferenceTarget_first_nonempty "categoryRef" None))
             None None None eq_refl).
  - exact (proj2 (proj2 (inferReferenceTarget_first_nonempty "categoryRef" None))
             eq_refl).
Defined.

(** ** C4: the product / category scenario *)

(** C4 fails on the script's pipeline.  Its schema.club normalizer infers
    the target [category] for [categoryRef] and stores it as an explicit
    target, so the resolver takes the explicit branch: the single edge is
    labelled [categoryRef] and is a direct reference, not an inferred one. *)
Lemma eager_inference_gives_direct_reference :
  edges (graph (convert (newGraphConverter
    (createParsedSchema
       (Script.transformSchema [Examples.rawProduct; Examples.rawCategory])
       isDocument))))
  = [plainCandidate "product" "category" "categoryRef" DIRECT_REFERENCE]
  /\ ~ (exists e,
          edges (graph (convert (newGraphConverter
            (createParsedSchema
               (Script.transformSchema [Examples.rawProduct; Examples.rawCategory])
               isDocument)))) = [e]
          /\ displayLabel e = "categoryRef?"
          /\ rel (e_style e) = INFERRED_REFERENCE).
Proof.
  assert (H : edges (graph (convert (newGraphConverter
                (createParsedSchema
                   (Script.transformSchema [Examples.rawProduct; Examples.rawCategory])
                   isDocument))))
              = [plainCandidate "product" "category" "categoryRef" DIRECT_REFERENCE])
    by (vm_compute; reflexivity).
  split; [exact H|]. rewrite H. intros (e & He & _ & Hk).
  injection He as <-. discriminate Hk.
Qed.

(** C4 (amended).  On this input the graph has exactly one edge, from
    [product] to [category].  When the field reaches the resolver without
    targets, as the modular schema.club parser passes it on, the edge is
    labelled [categoryRef?] and is an inferred reference; after the
    script's normalizer, which fills in the target [category], it is
    labelled [categoryRef] and is a direct reference. *)
Theorem categoryRef_scenario :
  edges (graph (convert (newGraphConverter
    (createParsedSchema [Examples.product; Examples.category] isDocument))))
  = [candidate "product" "category" "categoryRef" "?" INFERRED_REFERENCE]
  /\ Script.transformSchema [Examples.rawProduct; Examples.rawCategory]
     = [Examples.type "product" "document"
          (Some [Examples.field "reference" (Some "categoryRef") None None
                   (Some [ {| tr_type := "category" |} ])]);
        Examples.category]
  /\ edges (graph (convert (newGraphConverter
       (createParsedSchema
          (Script.transformSchema [Examples.rawProduct; Examples.rawCategory])
          isDocument))))
     = [plainCandidate "product" "category" "categoryRef" DIRECT_REFERENCE].
Proof. repeat split; vm_compute; reflexivity. Qed.

(** ** C5: two types of one name *)

(** C5 fails as worded.  Built from two types named [page], the registry
    holds both of them: the later one is not dropped (and the result has no
    place for a warning). *)
Lemma createParsedSchema_keeps_duplicates :
  types (createParsedSchema [Examples.page; Examples.pageAgain] isDocument)
  = [Examples.page; Examples.pageAgain]
  /\ types (createParsedSchema [Examples.page; Examples.pageAgain] isDocument)
     <> [Examples.page]
  /\ ~ NoDup (t_name <$> types
               (createParsedSchema [Examples.page; Examples.pageAgain] isDocument)).
Proof.
  split; [reflexivity|]. split; [discriminate|].
  simpl. intros Hnd. apply NoDup_cons in Hnd as [Hnotin _].
  apply Hnotin. left.
Qed.

Lemma find_first_occurrence (before after : list SchemaType) (ty : SchemaType) :
  (forall u, In u before -> t_name u <> t_name ty) ->
  List.find (fun t => bool_decide (t_name t = t_name ty)) (before ++ ty :: after)
  = Some ty.
Proof.
  induction before as [|u before IH]; intros Hb; simpl.
  - rewrite bool_decide_eq_true_2; reflexivity.
  - rewrite bool_decide_eq_false_2 by (apply Hb; left; reflexivity).
    apply IH. intros v Hv. apply Hb. right. exact Hv.
Qed.

(** C5 (amended).  [createParsedSchema] is total and keeps the type list as
    given, duplicates included and in order; [allTypeNames] holds exactly
    the names that occur and [documentTypes] the names of the types the
    filter accepts; a lookup by name finds the first type of that name. *)
Theorem createParsedSchema_registry
    (tys : list SchemaType) (documentTypeFilter : SchemaType -> bool) :
  types (createParsedSchema tys documentTypeFilter) = tys
  /\ (forall name,
        name ∈ allTypeNames (createParsedSchema tys documentTypeFilter)
        <-> exists ty, In ty tys /\ t_name ty = name)
  /\ (forall name,
        name ∈ documentTypes (createParsedSchema tys documentTypeFilter)
        <-> exists ty, In ty tys /\ documentTypeFilter ty = true /\ t_name ty = name)
  /\ (forall before ty after,
        tys = before ++ ty :: after ->
        (forall u, In u before -> t_name u <> t_name ty) ->
        findTypeByName (createParsedSchema tys documentTypeFilter) (t_name ty)
        = Some ty).
Proof.
  split; [reflexivity|]. split; [|split].
  - intros name. simpl. rewrite elem_of_list_to_set, list_elem_of_In, in_map_iff.
    split; intros (ty & H1 & H2); exists ty; tauto.
  - intros name. simpl. rewrite elem_of_list_to_set, list_elem_of_In, in_map_iff.
    split.
    + intros (ty & Hn & Hin). apply filter_In in Hin. exists ty. tauto.
    + intros (ty & Hin & Hf & Hn). exists ty. rewrite filter_In. tauto.
  - intros before ty after -> Hb. unfold findTypeByName. simpl.
    apply find_first_occurrence. exact Hb.
Qed.

Lemma createParsedSchema_registry_witness :
  findTypeByName (createParsedSchema [Examples.page; Examples.pageAgain] isDocument)
    "page" = Some Examples.page.
Proof.
  refine (proj2 (proj2 (proj2 (createParsedSchema_registry
            [Examples.page; Examples.pageAgain] isDocument)))
            [] Examples.page [Examples.pageAgain] eq_refl _).
  intros u [].
Defined.

(** ** What the parse stage returns and throws *)

Lemma readEntries_Ok {A} (property : string) (items : list (Element A)) :
  forall values,
    readEntries property items = Ok values <-> items = Object <$> values.
Proof.
  induction items as [|[|value] items IH]; intros values; cbn [readEntries].
  - destruct values; split; try discriminate; reflexivity.
  - split; [discriminate|]. destruct values; discriminate.
  - destruct (readEntries property items) as [rest|e] eqn:Hrest; cbn [bind].
    + split.
      * intros [= <-]. rewrite fmap_cons. f_equal. apply IH. reflexivity.
      * destruct values as [|v values]; [discriminate|].
        rewrite fmap_cons. intros [= -> Hitems].
        apply IH in Hitems. injection Hitems as ->. reflexivity.
    + split; [discriminate|].
      destruct values as [|v values]; [discriminate|].
      rewrite fmap_cons. intros [= -> Hitems].
      apply IH in Hitems. discriminate Hitems.
Qed.

Lemma readEntries_Throw {A} (property : string) (items : list (Element A)) :
  forall e,
    readEntries property items = Throw e
    <-> e = TypeError property /\ In Nullish items.
Proof.
  induction items as [|[|value] items IH]; intros e; cbn [readEntries].
  - split; [discriminate|]. intros [_ []].
  - split.
    + intros [= <-]. split; [reflexivity|left; reflexivity].
    + intros [-> _]. reflexivity.
  - destruct (readEntries property items) as [rest|e'] eqn:Hrest; cbn [bind].
    + split; [discriminate|]. intros [He [Hin|Hin]]; [discriminate Hin|].
      discriminate (proj2 (IH e) (conj He Hin)).
    + destruct (proj1 (IH e') eq_refl) as [-> Hin]. split.
      * intros [= <-]. split; [reflexivity|right; exact Hin].
      * intros [-> _]. reflexivity.
Qed.

Lemma looksLikeArray_arrayLiteral content :
  looksLikeArray content = true <-> arrayLiteral content.
Proof.
  unfold looksLikeArray, arrayLiteral, startsWithChar, endsWithChar.
  rewrite andb_true_iff, !bool_decide_eq_true. reflexivity.
Qed.

Lemma parseJsonOrJs_Ok {Entry}
    (JSON_parse js_eval : string -> RawValue Entry + Thrown) content root :
  parseJsonOrJs Entry JSON_parse js_eval content = Ok root
  <-> parsedRoot JSON_parse js_eval content root.
Proof.
  unfold parseJsonOrJs, evalFallback. split.
  - destruct (JSON_parse content) as [parsed|jsonError] eqn:Hjson.
    + intros [= <-]. apply root_strict. exact Hjson.
    + destruct (looksLikeArray content) eqn:Hshape; [|discriminate].
      destruct (js_eval _) as [parsed|evalError] eqn:Heval; [|discriminate].
      intros [= <-]. eapply root_evaluated; [exact Hjson| |exact Heval].
      apply looksLikeArray_arrayLiteral. exact Hshape.
  - intros [r Hjson|jsonError r Hjson Hshape Heval].
    + rewrite Hjson. reflexivity.
    + apply looksLikeArray_arrayLiteral in Hshape.
      rewrite Hjson, Hshape, Heval. reflexivity.
Qed.

Lemma parseJsonOrJs_Throw {Entry}
    (JSON_parse js_eval : string -> RawValue Entry + Thrown) content e :
  parseJsonOrJs Entry JSON_parse js_eval content = Throw e
  <-> exists m, e = ParseFailure m /\ parseFails JSON_parse js_eval content m.
Proof.
  unfold parseJsonOrJs, evalFallback. split.
  - destruct (JSON_parse content) as [parsed|jsonError] eqn:Hjson; [discriminate|].
    destruct (looksLikeArray content) eqn:Hshape.
    + destruct (js_eval _) as [parsed|evalError] eqn:Heval; [discriminate|].
      intros [= <-]. exists (thrownMessage jsonError).
      split; [destruct jsonError; reflexivity|].
      eapply fails_evaluated; [exact Hjson| |exact Heval].
      apply looksLikeArray_arrayLiteral. exact Hshape.
    + intros [= <-]. exists (thrownMessage jsonError).
      split; [destruct jsonError; reflexivity|].
      apply fails_unevaluated; [exact Hjson|].
      rewrite <- looksLikeArray_arrayLiteral, Hshape. discriminate.
  - intros (m & -> & [jsonError Hjson Hshape|jsonError evalError Hjson Hshape Heval]).
    + rewrite Hjson.
      destruct (looksLikeArray content) eqn:Hl;
        [exfalso; apply Hshape, looksLikeArray_arrayLiteral, Hl|].
      destruct jsonError; reflexivity.
    + apply looksLikeArray_arrayLiteral in Hshape.
      rewrite Hjson, Hshape, Heval. destruct jsonError; reflexivity.
Qed.

(** A text has at most one parsed root, and none when parsing fails. *)
Lemma parsedRoot_unique {Entry}
    (JSON_parse js_eval : string -> RawValue Entry + Thrown) content r1 r2 :
  parsedRoot JSON_parse js_eval content r1 ->
  parsedRoot JSON_parse js_eval content r2 -> r1 = r2.
Proof.
  intros H1 H2. apply parseJsonOrJs_Ok in H1, H2. congruence.
Qed.

(** The outcome of the modular schema.club parser on a present file. *)
Lemma modular_parse_outcome
    (fileSystem : string -> option string)
    (JSON_parse js_eval : string -> RawValue (Element SchemaType) + Thrown)
    (schemaPath content : string) :
  fileSystem schemaPath = Some content ->
  Parsers.SchemaClubParser_parse fileSystem JSON_parse js_eval schemaPath
  = match parseJsonOrJs (Element SchemaType) JSON_parse js_eval content with
    | Ok RawOther => Throw UnrecognizedFormat
    | Ok (RawArray items) =>
        match readEntries "type" items with
        | Ok tys => Ok (createParsedSchema tys isDocument)
        | Throw e => Throw e
        end
    | Throw e => Throw e
    end.
Proof.
  intros Hfile. unfold Parsers.SchemaClubParser_parse, loadFileContent.
  rewrite Hfile. cbn [bind].
  destruct (parseJsonOrJs _ _ _ _) as [[items|]|e]; cbn [bind]; try reflexivity;
    destruct (readEntries "type" items); reflexivity.
Qed.

(** ** C8: the errors of the parse stage *)

(** C8 fails as worded.  The file [null.json] holds [[null]]: strict
    parsing succeeds and the root is an array, yet the parser throws, and
    what it throws is neither of the two errors: building the registry
    reads [type] of the entry [null], and the host raises a [TypeError]. *)
Lemma null_entry_raises_type_error :
  Examples.files "null.json" = Some "[null]"
  /\ Examples.strict "[null]" = inl (RawArray [Nullish])
  /\ Parsers.SchemaClubParser_parse Examples.files Examples.strict Examples.evaluate
       "null.json"
     = Throw (TypeError "type")
  /\ TypeError "type" <> UnrecognizedFormat
  /\ (forall m, TypeError "type" <> ParseFailure m).
Proof.
  split; [reflexivity|]. split; [reflexivity|]. split; [reflexivity|].
  split; [discriminate|]. intros m. discriminate.
Qed.

(** C8 (amended).  With the schema file present, the schema.club parser
    throws the unrecognized-format error exactly when the parsed root is
    not an array; it throws the parse failure exactly when strict parsing
    throws and the fallback fails as well (the text is no array literal, or
    evaluating it throws), and the failure carries the message of the strict
    parser's error; it throws the host's [TypeError] exactly when the root
    is an array with an entry that is [null] or [undefined]; it returns a
    schema exactly when the root is an array of objects, and the schema is
    the registry of these; and it throws nothing else. *)
Theorem parse_stage_errors
    (fileSystem : string -> option string)
    (JSON_parse js_eval : string -> RawValue (Element SchemaType) + Thrown)
    (schemaPath content : string) :
  fileSystem schemaPath = Some content ->
  (Parsers.SchemaClubParser_parse fileSystem JSON_parse js_eval schemaPath
     = Throw UnrecognizedFormat
   <-> parsedRoot JSON_parse js_eval content RawOther)
  /\ (forall m,
        Parsers.SchemaClubParser_parse fileSystem JSON_parse js_eval schemaPath
          = Throw (ParseFailure m)
        <-> parseFails JSON_parse js_eval content m)
  /\ (forall property,
        Parsers.SchemaClubParser_parse fileSystem JSON_parse js_eval schemaPath
          = Throw (TypeError property)
        <-> property = "type"
            /\ exists items,
                 parsedRoot JSON_parse js_eval content (RawArray items)
                 /\ In Nullish items)
  /\ (forall s,
        Parsers.SchemaClubParser_parse fileSystem JSON_parse js_eval schemaPath = Ok s
        <-> exists tys,
              parsedRoot JSON_parse js_eval content (RawArray (Object <$> tys))
              /\ s = createParsedSchema tys isDocument)
  /\ (forall e,
        Parsers.SchemaClubParser_parse fileSystem JSON_parse js_eval schemaPath
          = Throw e ->
        e = UnrecognizedFormat \/ (exists m, e = ParseFailure m)
        \/ e = TypeError "type").
Proof.
  intros Hfile. rewrite (modular_parse_outcome _ _ _ _ _ Hfile).
  destruct (parseJsonOrJs _ JSON_parse js_eval content) as [[items|]|e] eqn:Hparse.
  - pose proof (proj1 (parseJsonOrJs_Ok _ _ _ _) Hparse) as Hroot.
    assert (Huniq : forall r, parsedRoot JSON_parse js_eval content r ->
                      r = RawArray items)
      by (intros r Hr; exact (parsedRoot_unique _ _ _ _ _ Hr Hroot)).
    assert (Hnofail : forall m, ~ parseFails JSON_parse js_eval content m).
    { intros m Hm.
      assert (Hthrow : parseJsonOrJs _ JSON_parse js_eval content
                       = Throw (ParseFailure m))
        by (apply parseJsonOrJs_Throw; eauto).
      congruence. }
    destruct (readEntries "type" items) as [tys|e] eqn:Hread.
    + apply readEntries_Ok in Hread. subst items.
      split; [split; [discriminate|intros Hr; discriminate (Huniq _ Hr)]|].
      split; [intros m; split; [discriminate|intros Hm; destruct (Hnofail _ Hm)]|].
      split.
      { intros property. split; [discriminate|].
        intros (_ & items & Hr & Hin). apply Huniq in Hr. injection Hr as ->.
        apply in_map_iff in Hin as (t & Ht & _). discriminate Ht. }
      split; [|discriminate].
      intros s. split.
      * intros [= <-]. exists tys. split; [exact Hroot|reflexivity].
      * intros (tys' & Hr & ->). apply Huniq in Hr. injection Hr as Hr.
        pose proof (proj2 (readEntries_Ok "type" _ tys') eq_refl) as Hsame.
        rewrite Hr, (proj2 (readEntries_Ok "type" _ tys) eq_refl) in Hsame.
        injection Hsame as ->. reflexivity.
    + apply readEntries_Throw in Hread as [-> Hin].
      split; [split; [discriminate|intros Hr; discriminate (Huniq _ Hr)]|].
      split; [intros m; split; [discriminate|intros Hm; destruct (Hnofail _ Hm)]|].
      split.
      { intros property. split.
        - intros [= <-]. split; [reflexivity|]. exists items. tauto.
        - intros [-> _]. reflexivity. }
      split; [|intros e [= <-]; tauto].
      intros s. split; [discriminate|].
      intros (tys & Hr & _). apply Huniq in Hr. injection Hr as <-.
      apply in_map_iff in Hin as (t & Ht & _). discriminate Ht.
  - pose proof (proj1 (parseJsonOrJs_Ok _ _ _ _) Hparse) as Hroot.
    assert (Huniq : forall r, parsedRoot JSON_parse js_eval content r -> r = RawOther)
      by (intros r Hr; exact (parsedRoot_unique _ _ _ _ _ Hr Hroot)).
    split; [tauto|].
    split.
    { intros m. split; [discriminate|]. intros Hm.
      assert (Hthrow : parseJsonOrJs _ JSON_parse js_eval content
                       = Throw (ParseFailure m))
        by (apply parseJsonOrJs_Throw; eauto).
      congruence. }
    split.
    { intros property. split; [discriminate|].
      intros (_ & items & Hr & _). discriminate (Huniq _ Hr). }
    split; [|intros e [= <-]; tauto].
    intros s. split; [discriminate|].
    intros (tys & Hr & _). discriminate (Huniq _ Hr).
  - pose proof (proj1 (parseJsonOrJs_Throw _ _ _ _) Hparse) as (m0 & -> & Hfail).
    assert (Hnoroot : forall r, ~ parsedRoot JSON_parse js_eval content r).
    { intros r Hr. apply parseJsonOrJs_Ok in Hr. congruence. }
    split; [split; [discriminate|intros Hr; destruct (Hnoroot _ Hr)]|].
    split.
    { intros m. split.
      - intros [= <-]. exact Hfail.
      - intros Hm.
        assert (Hthrow : parseJsonOrJs _ JSON_parse js_eval content
                         = Throw (ParseFailure m))
          by (apply parseJsonOrJs_Throw; eauto).
        congruence. }
    split.
    { intros property. split; [discriminate|].
      intros (_ & items & Hr & _). destruct (Hnoroot _ Hr). }
    split; [|intros e [= <-]; eauto].
    intros s. split; [discriminate|].
    intros (tys & Hr & _). destruct (Hnoroot _ Hr).
Qed.

Lemma parse_stage_errors_witness :
  Parsers.SchemaClubParser_parse Examples.files Examples.strict Examples.evaluate
    "broken.json"
  = Throw (ParseFailure "Unexpected token in JSON at position 1").
Proof.
  apply (proj2 (proj1 (proj2 (parse_stage_errors Examples.files Examples.strict
                 Examples.evaluate "broken.json" "[a b]" eq_refl))
                 "Unexpected token in JSON at position 1")).
  exact (fails_evaluated Examples.strict Examples.evaluate "[a b]"
           (ErrorObject "Unexpected token in JSON at position 1")
           (ErrorObject "Unexpected identifier")
           eq_refl (conj eq_refl eq_refl) eq_refl).
Defined.

(** * Further properties of the converter *)

(** ** Repeated calls of [createEdgeIfNotExists] *)

Lemma append_empty_r (s : string) : s +:+ "" = s.
Proof.
  induction s as [|c s IH]; [reflexivity|].
  change (String c (s +:+ "") = String c s). f_equal. exact IH.
Qed.

(** X1.  A call of [createEdgeIfNotExists] records its key, and a later call
    with the same source, target and label changes nothing, whatever style
    and port it brings; a call adds at most one edge, at the end. *)
Theorem createEdgeIfNotExists_idempotent
    (this : GraphConverter) (source target label : string)
    (style style' : EdgeStyle) (port port' : option string) :
  edgeKey source target label
    ∈ createdEdges (createEdgeIfNotExists this source target label style port)
  /\ createEdgeIfNotExists
       (createEdgeIfNotExists this source target label style port)
       source target label style' port'
     = createEdgeIfNotExists this source target label style port
  /\ (edges (graph (createEdgeIfNotExists this source target label style port))
      = edges (graph this)
      \/ edges (graph (createEdgeIfNotExists this source target label style port))
         = edges (graph this)
           ++ [ {| e_source := source; e_target := target; e_label := label;
                   e_style := style; e_sourcePort := port |} ]).
Proof.
  assert (Hin : edgeKey source target label
                  ∈ createdEdges
                      (createEdgeIfNotExists this source target label style port)).
  { unfold createEdgeIfNotExists. case_bool_decide as Hk; simpl; [exact Hk|].
    apply elem_of_union_l, elem_of_singleton. reflexivity. }
  split; [exact Hin|]. split.
  - unfold createEdgeIfNotExists at 1.
    rewrite bool_decide_eq_true_2 by exact Hin. reflexivity.
  - unfold createEdgeIfNotExists. case_bool_decide; simpl; [left|right]; reflexivity.
Qed.

(** ** The key set and the edge list stay in step *)

Lemma fold_offer_keys cs : forall this,
  createdEdges (fold_left offer cs this)
  = list_to_set (keyOf <$> cs) ∪ createdEdges this.
Proof.
  induction cs as [|c cs IH]; intros this.
  - cbn [fold_left]. rewrite fmap_nil, list_to_set_nil, (left_id_L ∅ (∪)).
    reflexivity.
  - cbn [fold_left]. rewrite IH, fmap_cons, list_to_set_cons.
    generalize (list_to_set (keyOf <$> cs) : gset string). intros K. clear IH.
    unfold offer, createEdgeIfNotExists. fold (keyOf c).
    case_bool_decide as Hk; simpl; set_solver.
Qed.

Lemma fold_offer_nodes cs : forall this,
  nodes (graph (fold_left offer cs this)) = nodes (graph this).
Proof.
  induction cs as [|c cs IH]; intros this; simpl; [reflexivity|].
  rewrite IH. unfold offer, createEdgeIfNotExists.
  destruct (bool_decide _); reflexivity.
Qed.

Lemma firstOccurrences_keys cs : forall seen,
  list_to_set (keyOf <$> firstOccurrences seen cs) ∪ seen
  = list_to_set (keyOf <$> cs) ∪ seen.
Proof.
  induction cs as [|c cs IH]; intros seen; [reflexivity|].
  cbn [firstOccurrences]. rewrite fmap_cons, list_to_set_cons.
  case_bool_decide as Hk.
  - rewrite IH. generalize (list_to_set (keyOf <$> cs) : gset string).
    intros K. clear IH. set_solver.
  - rewrite fmap_cons, list_to_set_cons.
    specialize (IH ({[keyOf c]} ∪ seen)). revert IH.
    generalize (list_to_set (keyOf <$> cs) : gset string).
    generalize (list_to_set (keyOf <$> firstOccurrences ({[keyOf c]} ∪ seen) cs)
                : gset string).
    intros K1 K2 IH.
    transitivity (K1 ∪ ({[keyOf c]} ∪ seen)); [clear; set_solver|].
    rewrite IH. clear. set_solver.
Qed.

Lemma firstOccurrences_all_seen cs : forall seen,
  (forall c, In c cs -> keyOf c ∈ seen) -> firstOccurrences seen cs = [].
Proof.
  induction cs as [|c cs IH]; intros seen H; simpl; [reflexivity|].
  rewrite bool_decide_eq_true_2 by (apply H; left; reflexivity).
  apply IH. intros c' Hc'. apply H. right. exact Hc'.
Qed.

(** [convert] from any converter, as a fold over the candidates of its
    schema. *)
Lemma convert_unfolded (this : GraphConverter) :
  edges (graph (convert this))
    = edges (graph this)
      ++ firstOccurrences (createdEdges this) (schemaCandidates (schema this))
  /\ createdEdges (convert this)
     = list_to_set (keyOf <$> schemaCandidates (schema this)) ∪ createdEdges this
  /\ nodes (graph (convert this))
     = nodes (graph
         (fold_left
            (fun this type =>
               if isDocumentOrObject type then createNode this type else this)
            (types (schema this)) this)).
Proof.
  unfold convert.
  pose proof (node_pass_frame (types (schema this)) this) as H.
  cbv zeta in H. destruct H as (Hs & He & Hk).
  rewrite Hs, edge_pass_fold, fold_offer_edges, fold_offer_keys, fold_offer_nodes,
    Hs, He, Hk.
  repeat split; reflexivity.
Qed.

(** X2.  If the key set of a converter holds exactly the keys of the edges
    in its graph, the same is true after any call of
    [createEdgeIfNotExists] and after [convert]. *)
Theorem created_keys_match_edges (this : GraphConverter) :
  createdEdges this = list_to_set (keyOf <$> edges (graph this)) ->
  (forall source target label style port,
      createdEdges (createEdgeIfNotExists this source target label style port)
      = list_to_set
          (keyOf <$> edges (graph
             (createEdgeIfNotExists this source target label style port))))
  /\ createdEdges (convert this)
     = list_to_set (keyOf <$> edges (graph (convert this))).
Proof.
  intros Hsync. split.
  - intros source target label style port. unfold createEdgeIfNotExists.
    case_bool_decide as Hk; simpl; [exact Hsync|].
    rewrite fmap_app, list_to_set_app_L, <- Hsync. simpl.
    unfold keyOf at 1. simpl. set_solver.
  - destruct (convert_unfolded this) as (He & Hk & _).
    rewrite He, Hk, fmap_app, list_to_set_app_L, <- Hsync.
    rewrite <- (firstOccurrences_keys _ (createdEdges this)). set_solver.
Qed.

Lemma created_keys_match_edges_witness :
  createdEdges (convert (newGraphConverter Examples.taggedSchema))
  = list_to_set
      (keyOf <$> edges (graph (convert (newGraphConverter Examples.taggedSchema)))).
Proof.
  exact (proj2 (created_keys_match_edges (newGraphConverter Examples.taggedSchema)
                  eq_refl)).
Defined.

(** X3.  A second [convert] on the same converter finds every key taken:
    it adds no edge and no key. *)
Theorem convert_twice_adds_no_edge (this : GraphConverter) :
  edges (graph (convert (convert this))) = edges (graph (convert this))
  /\ createdEdges (convert (convert this)) = createdEdges (convert this).
Proof.
  destruct (convert_unfolded (convert this)) as (He & Hk & _).
  destruct (convert_unfolded this) as (_ & Hk1 & _).
  assert (Hs : schema (convert this) = schema this).
  { unfold convert.
    pose proof (node_pass_frame (types (schema this)) this) as Hn.
    cbv zeta in Hn. destruct Hn as (Hs & _ & _).
    rewrite edge_pass_fold, fold_offer_schema. exact Hs. }
  rewrite He, Hk, Hs. split.
  - rewrite firstOccurrences_all_seen; [apply app_nil_r|].
    intros c Hc. rewrite Hk1. apply elem_of_union_l, elem_of_list_to_set.
    apply list_elem_of_fmap. exists c. split; [reflexivity|].
    apply list_elem_of_In. exact Hc.
  - rewrite Hk1. set_solver.
Qed.

(** ** Where candidates come from, and what they look like *)

(** A name stands for a node: some document or object type carries it. *)
Lemma isGraphTarget_type s name :
  isGraphTarget s name = true ->
  exists ty, In ty (types s) /\ isDocumentOrObject ty = true /\ t_name ty = name.
Proof.
  unfold isGraphTarget, findTypeByName. intros H.
  apply andb_prop in H as [_ H].
  destruct (List.find _ (types s)) as [ty|] eqn:Hf; [|discriminate].
  apply find_some in Hf as [Hin Hn]. apply bool_decide_eq_true in Hn.
  exists ty. tauto.
Qed.

Lemma findObjectType_type s name ty :
  findObjectType s name = Some ty ->
  In ty (types s) /\ isDocumentOrObject ty = true /\ Some (t_name ty) = name.
Proof.
  unfold findObjectType. intros Hf.
  apply find_some in Hf as [Hin H]. apply andb_prop in H as [Hn Ho].
  apply bool_decide_eq_true in Hn. split; [exact Hin|]. split; [|exact Hn].
  unfold isDocumentOrObject. rewrite Ho. apply orb_true_r.
Qed.

Lemma itemCandidates_shaped s src fid item c :
  In c (itemCandidates s src fid item) -> shaped s src fid "array" c.
Proof.
  unfold itemCandidates, shaped. rewrite in_app_iff. intros [H|H].
  - destruct (bool_decide _); [|contradiction].
    destruct (hasExplicitTargets item); apply in_map_iff in H as (t & <- & Ht); simpl.
    + apply filter_In in Ht as [_ Ht]. apply isGraphTarget_type in Ht. tauto.
    + apply findPossibleReferenceTargets_sound, isGraphTarget_type in Ht. tauto.
  - destruct (_ && _); [|contradiction].
    destruct (findObjectType _ _) as [ty|] eqn:Hf; [|contradiction].
    destruct H as [<-|[]]. simpl.
    apply findObjectType_type in Hf as (Hin & Hd & _).
    repeat split; try reflexivity. exists ty. tauto.
Qed.

Lemma fieldCandidates_shaped s src fid field c :
  In c (fieldCandidates s src fid field) -> shaped s src fid (f_type field) c.
Proof.
  unfold fieldCandidates. rewrite !in_app_iff. intros [H|[H|H]].
  - case_bool_decide as Hty; [|contradiction]. unfold shaped. rewrite Hty.
    destruct (hasExplicitTargets field); apply in_map_iff in H as (t & <- & Ht); simpl.
    + apply filter_In in Ht as [_ Ht]. apply isGraphTarget_type in Ht.
      rewrite append_empty_r. tauto.
    + apply findPossibleReferenceTargets_sound, isGraphTarget_type in Ht. tauto.
  - destruct (bool_decide (f_type field = "object")) eqn:Hty; [|contradiction].
    apply bool_decide_eq_true in Hty. simpl in H.
    destruct (truthyOpt (f_name field)); [|contradiction].
    destruct (findObjectType _ _) as [ty|] eqn:Hf; [|contradiction].
    destruct H as [<-|[]]. unfold shaped. rewrite Hty. simpl.
    apply findObjectType_type in Hf as (Hin & Hd & _).
    rewrite append_empty_r. repeat split; try reflexivity. exists ty. tauto.
  - case_bool_decide as Hty; [|contradiction].
    destruct (f_of field); [|contradiction].
    apply in_flat_map in H as (item & _ & H). rewrite Hty.
    eapply itemCandidates_shaped; eauto.
Qed.

Lemma schemaCandidates_origin s c :
  In c (schemaCandidates s) ->
  exists ty field fid,
    In ty (types s) /\ isDocumentOrObject ty = true
    /\ In field (default [] (t_fields ty))
    /\ f_name field = Some fid /\ truthy fid = true
    /\ shaped s (t_name ty) fid (f_type field) c.
Proof.
  unfold schemaCandidates. intros H.
  apply in_flat_map in H as (ty & Hty & H).
  destruct (isDocumentOrObject ty) eqn:Hd; [|contradiction].
  unfold typeCandidates in H.
  apply in_flat_map in H as (field & Hfield & H).
  unfold isNamed in H.
  destruct (f_name field) as [fid|] eqn:Hn; simpl in H; [|contradiction].
  destruct (truthy fid) eqn:Hfid; [|contradiction].
  exists ty, field, fid. repeat split; try assumption.
  all: apply fieldCandidates_shaped in H; destruct H as (? & ? & ? & ? & ? & ?);
    assumption.
Qed.

(** ** Nodes *)

Lemma upsertNode_In n ns m :
  In m (upsertNode n ns) -> m = n \/ In m ns.
Proof.
  induction ns as [|k ns IH]; simpl.
  - intros [<-|[]]. left. reflexivity.
  - case_bool_decide as Hk; simpl; intros [<-|H]; tauto.
Qed.

Lemma upsertNode_has n ns : In n (upsertNode n ns).
Proof.
  induction ns as [|k ns IH]; simpl; [left; reflexivity|].
  case_bool_decide as Hk; simpl; tauto.
Qed.

Lemma upsertNode_keeps_ids n ns m :
  In m ns -> exists m', In m' (upsertNode n ns) /\ n_id m' = n_id m.
Proof.
  induction ns as [|k ns IH]; simpl; [intros []|].
  intros [<-|H].
  - case_bool_decide as Hk; simpl.
    + exists n. split; [left; reflexivity|]. symmetry. exact Hk.
    + exists k. split; [left; reflexivity|reflexivity].
  - case_bool_decide as Hk; simpl.
    + exists m. split; [right; exact H|reflexivity].
    + destruct (IH H) as (m' & Hin & Hid). exists m'. tauto.
Qed.

Lemma createNode_nodeOf this type :
  createNode this type
  = {| schema := schema this;
       graph := graph_node (graph this) (nodeOf (schema this) type);
       createdEdges := createdEdges this |}.
Proof.
  unfold createNode, nodeOf, rowOf. destruct (t_fields type); reflexivity.
Qed.

Lemma node_pass_nodes tys : forall this n,
  In n (nodes (graph
    (fold_left
       (fun this type => if isDocumentOrObject type then createNode this type else this)
       tys this))) ->
  In n (nodes (graph this))
  \/ exists ty, In ty tys /\ isDocumentOrObject ty = true
                /\ n = nodeOf (schema this) ty.
Proof.
  induction tys as [|ty tys IH]; intros this n; simpl; [tauto|].
  intros H. apply IH in H as [H|(ty' & Hin & Hd & ->)].
  - destruct (isDocumentOrObject ty) eqn:Hd; [|tauto].
    rewrite createNode_nodeOf in H. simpl in H.
    apply upsertNode_In in H as [->|H]; [|tauto].
    right. exists ty. tauto.
  - right. exists ty'. split; [tauto|]. split; [exact Hd|].
    destruct (isDocumentOrObject ty); reflexivity.
Qed.

Lemma node_pass_keeps_ids tys : forall this m,
  In m (nodes (graph this)) ->
  exists m',
    In m' (nodes (graph
      (fold_left
         (fun this type => if isDocumentOrObject type then createNode this type else this)
         tys this)))
    /\ n_id m' = n_id m.
Proof.
  induction tys as [|ty tys IH]; intros this m H; simpl; [eauto|].
  destruct (isDocumentOrObject ty); [|apply IH; exact H].
  rewrite createNode_nodeOf.
  destruct (upsertNode_keeps_ids (nodeOf (schema this) ty) _ _ H) as (m1 & Hin1 & Hid1).
  destruct (IH {| schema := schema this;
                  graph := graph_node (graph this) (nodeOf (schema this) ty);
                  createdEdges := createdEdges this |} m1 Hin1) as (m' & Hin & Hid).
  exists m'. split; [exact Hin|congruence].
Qed.

Lemma node_pass_covers tys : forall this ty,
  In ty tys -> isDocumentOrObject ty = true ->
  exists n,
    In n (nodes (graph
      (fold_left
         (fun this type => if isDocumentOrObject type then createNode this type else this)
         tys this)))
    /\ n_id n = t_name ty.
Proof.
  induction tys as [|ty' tys IH]; intros this ty; simpl; [intros []|].
  intros [->|Hin] Hd.
  - rewrite Hd, createNode_nodeOf.
    destruct (node_pass_keeps_ids tys
                {| schema := schema this;
                   graph := graph_node (graph this) (nodeOf (schema this) ty);
                   createdEdges := createdEdges this |}
                (nodeOf (schema this) ty)) as (m' & Hm & Hid).
    { simpl. apply upsertNode_has. }
    exists m'. split; [exact Hm|exact Hid].
  - apply IH; assumption.
Qed.

Lemma convert_emits_candidates s e :
  In e (edges (graph (convert (newGraphConverter s)))) -> In e (schemaCandidates s).
Proof.
  rewrite convert_edges. intros H. apply firstOccurrences_In in H. tauto.
Qed.

Lemma convert_nodes s :
  nodes (graph (convert (newGraphConverter s)))
  = nodes (graph
      (fold_left
         (fun this type => if isDocumentOrObject type then createNode this type else this)
         (types s) (newGraphConverter s))).
Proof. exact (proj2 (proj2 (convert_unfolded (newGraphConverter s)))). Qed.

(** X4.  No edge dangles: the source and the target of every emitted edge
    are names of document or object types of the schema, and the graph has
    a node under each of the two names. *)
Theorem edges_connect_existing_nodes (s : ParsedSchema) (e : Edge) :
  In e (edges (graph (convert (newGraphConverter s)))) ->
  (exists ty, In ty (types s) /\ isDocumentOrObject ty = true
              /\ t_name ty = e_source e)
  /\ (exists ty, In ty (types s) /\ isDocumentOrObject ty = true
                 /\ t_name ty = e_target e)
  /\ (exists n, In n (nodes (graph (convert (newGraphConverter s))))
                /\ n_id n = e_source e)
  /\ (exists n, In n (nodes (graph (convert (newGraphConverter s))))
                /\ n_id n = e_target e).
Proof.
  intros He. apply convert_emits_candidates, schemaCandidates_origin in He.
  destruct He as (ty & field & fid & Hty & Hd & _ & _ & _ & Hshape).
  destruct Hshape as (Hsrc & _ & _ & _ & _ & (tgt & Htgt & Hdt & Hnt)).
  rewrite convert_nodes, Hsrc, <- Hnt.
  repeat split.
  - exists ty. tauto.
  - exists tgt. tauto.
  - apply node_pass_covers; assumption.
  - apply node_pass_covers; assumption.
Qed.

Lemma edges_connect_existing_nodes_witness :
  exists n, In n (nodes (graph (convert (newGraphConverter Examples.taggedSchema))))
            /\ n_id n = "tag".
Proof.
  refine (proj2 (proj2 (proj2 (edges_connect_existing_nodes Examples.taggedSchema
            Examples.tagsEdge _)))).
  vm_compute. left. reflexivity.
Defined.

(** X5.  Every node of the graph is the node of a document or object type
    of the schema, every such type has a node under its name, and a node's
    rows are the rows of the type's fields whose name does not begin with
    an underscore: no row has an empty name or one that begins with an
    underscore. *)
Theorem nodes_are_graph_types (s : ParsedSchema) :
  (forall n,
      In n (nodes (graph (convert (newGraphConverter s)))) ->
      exists ty, In ty (types s) /\ isDocumentOrObject ty = true /\ n = nodeOf s ty)
  /\ (forall ty,
        In ty (types s) -> isDocumentOrObject ty = true ->
        exists n, In n (nodes (graph (convert (newGraphConverter s))))
                  /\ n_id n = t_name ty)
  /\ (forall ty row,
        In row (n_rows (nodeOf s ty)) ->
        row.1 <> "" /\ startsWithChar "_" row.1 = false
        /\ exists field,
             In field (default [] (t_fields ty)) /\ isVisibleField field = true
             /\ row = rowOf field).
Proof.
  rewrite convert_nodes. split; [|split].
  - intros n Hn. apply node_pass_nodes in Hn as [[]|H]. exact H.
  - intros ty Hin Hd. apply node_pass_covers; assumption.
  - intros ty row Hrow. unfold nodeOf in Hrow. simpl in Hrow.
    apply in_map_iff in Hrow as (field & <- & Hf).
    apply filter_In in Hf as [Hin Hvis].
    split; [|split; [|exists field; tauto]].
    + unfold rowOf, isVisibleField in *. simpl.
      destruct (f_name field) as [name|]; simpl; [|discriminate].
      destruct (truthy name) eqn:Ht; [|discriminate].
      intros ->. discriminate Ht.
    + unfold rowOf, isVisibleField in *. simpl.
      destruct (f_name field) as [name|]; simpl; [|reflexivity].
      destruct (truthy name); [|reflexivity].
      apply negb_true_iff. exact Hvis.
Qed.

Lemma nodes_are_graph_types_witness :
  exists n, In n (nodes (graph (convert (newGraphConverter Examples.taggedSchema))))
            /\ n_id n = t_name Examples.tag.
Proof.
  refine (proj1 (proj2 (nodes_are_graph_types Examples.taggedSchema))
            Examples.tag _ eq_refl).
  right. left. reflexivity.
Defined.

(** X6.  Every emitted edge comes from a named field of a document or
    object type: its source is that type, its relationship kind is one of
    the kinds of the field's branch (reference, object or array), its label
    is the field name followed by the kind's suffix (nothing, [?], [[]] or
    [[]?]), and it leaves the node at the field's left port. *)
Theorem edge_label_follows_kind (s : ParsedSchema) (e : Edge) :
  In e (edges (graph (convert (newGraphConverter s)))) ->
  exists ty field fid,
    In ty (types s) /\ isDocumentOrObject ty = true /\ e_source e = t_name ty
    /\ In field (default [] (t_fields ty)) /\ f_name field = Some fid /\ fid <> ""
    /\ f_type field = originKind (rel (e_style e))
    /\ displayLabel e = fid +:+ kindSuffix (rel (e_style e))
    /\ e_sourcePort e = leftPort fid
    /\ sourceNode e = t_name ty +:+ ":" +:+ fid +:+ "_left:w".
Proof.
  intros He. apply convert_emits_candidates, schemaCandidates_origin in He.
  destruct He as (ty & field & fid & Hty & Hd & Hfield & Hname & Hfid & Hshape).
  destruct Hshape as (Hsrc & Hport & Hlabel & Hdisp & Hkind & _).
  exists ty, field, fid. repeat split; try assumption.
  - intros ->. discriminate Hfid.
  - rewrite Hdisp. exact Hlabel.
  - unfold sourceNode. rewrite Hport, Hsrc. unfold leftPort. simpl.
    destruct fid; reflexivity.
Qed.

Lemma edge_label_follows_kind_witness :
  exists ty field fid,
    In ty (types Examples.taggedSchema) /\ isDocumentOrObject ty = true
    /\ e_source Examples.tagsEdge = t_name ty
    /\ In field (default [] (t_fields ty)) /\ f_name field = Some fid /\ fid <> ""
    /\ f_type field = originKind (rel (e_style Examples.tagsEdge))
    /\ displayLabel Examples.tagsEdge
       = fid +:+ kindSuffix (rel (e_style Examples.tagsEdge))
    /\ e_sourcePort Examples.tagsEdge = leftPort fid
    /\ sourceNode Examples.tagsEdge = t_name ty +:+ ":" +:+ fid +:+ "_left:w".
Proof.
  apply (edge_label_follows_kind Examples.taggedSchema Examples.tagsEdge).
  vm_compute. left. reflexivity.
Defined.

(** ** The suffix pattern *)

Lemma eqIgnoreCase_length p : forall s,
  eqIgnoreCase p s = true -> String.length p = String.length s.
Proof.
  induction p as [|a p IH]; intros [|b s]; simpl; try discriminate; [reflexivity|].
  intros H. apply andb_prop in H as [_ H]. f_equal. apply IH. exact H.
Qed.

Lemma matchesToEnd_length rest :
  matchesToEnd rest = true -> 2 <= String.length rest <= 4.
Proof.
  unfold matchesToEnd, suffixAlternatives. cbn [existsb]. intros H.
  repeat (apply orb_prop in H as [H|H]); try discriminate H;
    apply eqIgnoreCase_length in H; simpl in H; lia.
Qed.

Lemma length_append_string (a b : string) :
  String.length (a +:+ b) = String.length a + String.length b.
Proof.
  induction a as [|c a IH]; [reflexivity|].
  change (S (String.length (a +:+ b)) = S (String.length a + String.length b)).
  rewrite IH. reflexivity.
Qed.

Lemma replaceRefSuffix_unfold s :
  replaceRefSuffix s
  = if matchesToEnd s then ""
    else match s with
         | EmptyString => ""
         | String c r => String c (replaceRefSuffix r)
         end.
Proof. destruct s; reflexivity. Qed.

Lemma replaceRefSuffix_cons c r :
  matchesToEnd (String c r) = false ->
  replaceRefSuffix (String c r) = String c (replaceRefSuffix r).
Proof. intros H. rewrite replaceRefSuffix_unfold, H. reflexivity. Qed.

Lemma replaceRefSuffix_match s :
  matchesToEnd s = true -> replaceRefSuffix s = "".
Proof. intros H. rewrite replaceRefSuffix_unfold, H. reflexivity. Qed.

(** X7.  [replaceRefSuffix] cuts a suffix off its argument and nothing
    else.  The suffix is empty exactly when nothing was replaced;
    otherwise it is one of ref, id, _ref, _id up to letter case, two to
    four characters long, and it is the longest suffix of the argument that
    matches: whatever matching suffix the argument has, the result is no
    longer than what is in front of it. *)
Theorem replaceRefSuffix_cuts_longest_suffix (s : string) :
  (exists suffix,
      s = replaceRefSuffix s +:+ suffix
      /\ (suffix = "" \/ (matchesToEnd suffix = true
                          /\ 2 <= String.length suffix <= 4))
      /\ (suffix = "" <-> replaceRefSuffix s = s))
  /\ (forall front back,
        s = front +:+ back -> matchesToEnd back = true ->
        String.length (replaceRefSuffix s) <= String.length front).
Proof.
  split.
  - induction s as [|c r IH].
    + exists "". repeat split; try reflexivity. left. reflexivity.
    + destruct (matchesToEnd (String c r)) eqn:Hm.
      * exists (String c r).
        assert (Hr : replaceRefSuffix (String c r) = "")
          by (apply replaceRefSuffix_match; exact Hm).
        rewrite Hr. split; [reflexivity|]. split.
        -- right. split; [exact Hm|]. apply matchesToEnd_length. exact Hm.
        -- split; discriminate.
      * destruct IH as (suffix & Hs & Hsuf & Hiff).
        exists suffix. rewrite (replaceRefSuffix_cons _ _ Hm).
        split; [|split].
        -- change (String c r = String c (replaceRefSuffix r +:+ suffix)).
           f_equal. exact Hs.
        -- exact Hsuf.
        -- split.
           ++ intros H. f_equal. apply Hiff. exact H.
           ++ intros [= H]. apply Hiff. exact H.
  - induction s as [|c r IH]; intros front back Hs Hm.
    + simpl. lia.
    + destruct (matchesToEnd (String c r)) eqn:Hmr.
      * rewrite (replaceRefSuffix_match _ Hmr). simpl. lia.
      * rewrite (replaceRefSuffix_cons _ _ Hmr).
        destruct front as [|a front].
        -- change (String c r = back) in Hs. subst back. congruence.
        -- change (String c r = String a (front +:+ back)) in Hs.
           injection Hs as _ Hr.
           specialize (IH front back Hr Hm). simpl. lia.
Qed.

Lemma replaceRefSuffix_cuts_longest_suffix_witness :
  String.length (replaceRefSuffix "category_Ref") <= String.length "category_".
Proof.
  exact (proj2 (replaceRefSuffix_cuts_longest_suffix "category_Ref")
           "category_" "Ref" eq_refl eq_refl).
Defined.

Lemma matchesToEnd_after_underscore_form c suf :
  eqIgnoreCase "_ref" suf = true \/ eqIgnoreCase "_id" suf = true ->
  matchesToEnd (String c suf) = false.
Proof.
  intros H.
  destruct (matchesToEnd (String c suf)) eqn:Hm; [|reflexivity].
  exfalso. pose proof (matchesToEnd_length _ Hm) as Hlen.
  destruct H as [H|H].
  - apply eqIgnoreCase_length in H. simpl in H, Hlen. lia.
  - pose proof (eqIgnoreCase_length _ _ H) as Hsuf.
    destruct suf as [|a [|b [|d [|? ?]]]]; simpl in Hsuf; try lia.
    cbn [eqIgnoreCase] in H. apply andb_prop in H as [Ha _].
    apply bool_decide_eq_true in Ha.
    unfold matchesToEnd, suffixAlternatives in Hm.
    cbn [existsb eqIgnoreCase] in Hm. rewrite <- Ha in Hm.
    rewrite (bool_decide_eq_false_2 (canonicalize "r" = canonicalize "_")) in Hm
      by discriminate.
    rewrite !andb_false_r in Hm. discriminate Hm.
Qed.

(** X8.  A trailing _ref or _id, in any letter case, is removed together
    with its underscore, whatever stands in front of it. *)
Theorem replaceRefSuffix_underscore_forms (s suffix : string) :
  eqIgnoreCase "_ref" suffix = true \/ eqIgnoreCase "_id" suffix = true ->
  replaceRefSuffix (s +:+ suffix) = s.
Proof.
  intros H.
  assert (Hm : matchesToEnd suffix = true).
  { unfold matchesToEnd, suffixAlternatives. cbn [existsb].
    destruct H as [-> | ->]; rewrite ?orb_true_r; reflexivity. }
  induction s as [|c r IH].
  - change (replaceRefSuffix suffix = "").
    apply replaceRefSuffix_match. exact Hm.
  - change (replaceRefSuffix (String c (r +:+ suffix)) = String c r).
    rewrite replaceRefSuffix_cons; [f_equal; exact IH|].
    destruct r as [|b r].
    + apply matchesToEnd_after_underscore_form. exact H.
    + destruct (matchesToEnd (String c (String b r +:+ suffix))) eqn:Hmm;
        [|reflexivity].
      exfalso. apply matchesToEnd_length in Hmm.
      apply matchesToEnd_length in Hm.
      change (2 <= S (String.length (String b r +:+ suffix)) <= 4) in Hmm.
      rewrite length_append_string in Hmm. simpl in Hmm.
      assert (3 <= String.length suffix).
      { destruct H as [H|H]; apply eqIgnoreCase_length in H; simpl in H; lia. }
      lia.
Qed.

Lemma replaceRefSuffix_underscore_forms_witness :
  replaceRefSuffix ("category" +:+ "_ID") = "category".
Proof.
  apply replaceRefSuffix_underscore_forms. right. reflexivity.
Defined.

(** ** A run of the modular program: factory, then [parse] *)

(** X9.  The outcome of creating a parser for a format and calling its
    [parse], in the order the checks are made: an unknown format is
    rejected by the factory; the format [sanity] ends in the
    not-implemented error, also when the file is missing; for [schema.club]
    a missing file is reported with its path; and a schema is returned
    exactly for [schema.club], an existing file and a parsed root that is
    an array of objects, none of its entries being [null] or [undefined];
    the schema is the registry of these entries. *)
Theorem modular_run_outcomes
    (fileSystem : string -> option string)
    (JSON_parse js_eval : string -> RawValue (Element SchemaType) + Thrown)
    (format schemaPath : string) :
  (format <> "schema.club" -> format <> "sanity" ->
     (p <- Parsers.createParser format schemaPath ;;
      Parsers.parse fileSystem JSON_parse js_eval p)
     = Throw (UnsupportedFormat format))
  /\ (format = "sanity" ->
      (p <- Parsers.createParser format schemaPath ;;
       Parsers.parse fileSystem JSON_parse js_eval p)
      = Throw NotImplemented)
  /\ (format = "schema.club" -> fileSystem schemaPath = None ->
      (p <- Parsers.createParser format schemaPath ;;
       Parsers.parse fileSystem JSON_parse js_eval p)
      = Throw (FileNotFound schemaPath))
  /\ (forall s,
        (p <- Parsers.createParser format schemaPath ;;
         Parsers.parse fileSystem JSON_parse js_eval p) = Ok s
        <-> format = "schema.club"
            /\ exists content tys,
                 fileSystem schemaPath = Some content
                 /\ parsedRoot JSON_parse js_eval content (RawArray (Object <$> tys))
                 /\ s = createParsedSchema tys isDocument).
Proof.
  unfold Parsers.createParser.
  split; [|split; [|split]].
  - intros H1 H2. rewrite !bool_decide_eq_false_2 by assumption. reflexivity.
  - intros ->. reflexivity.
  - intros -> Hfile. simpl.
    unfold Parsers.SchemaClubParser_parse, loadFileContent. rewrite Hfile. reflexivity.
  - intros s. case_bool_decide as Hf1; [|case_bool_decide as Hf2]; cbn [bind Parsers.parse].
    + destruct (fileSystem schemaPath) as [content|] eqn:Hfile.
      * rewrite (modular_parse_outcome _ _ _ _ _ Hfile). split.
        -- intros Hok. split; [exact Hf1|]. exists content.
           destruct (parseJsonOrJs _ _ _ _) as [[items|]|e] eqn:Hparse;
             try discriminate Hok.
           destruct (readEntries "type" items) as [tys|e] eqn:Hread;
             try discriminate Hok.
           injection Hok as <-. exists tys.
           apply readEntries_Ok in Hread. subst items.
           apply parseJsonOrJs_Ok in Hparse. auto.
        -- intros (_ & c & tys & [= <-] & Hroot & ->).
           apply parseJsonOrJs_Ok in Hroot. rewrite Hroot.
           rewrite (proj2 (readEntries_Ok "type" _ tys) eq_refl). reflexivity.
      * unfold Parsers.SchemaClubParser_parse, loadFileContent. rewrite Hfile.
        split; [discriminate|]. intros (_ & c & tys & Hc & _). discriminate Hc.
    + unfold Parsers.SanityParser_parse. split; [discriminate|].
      intros [-> _]. contradiction Hf1. reflexivity.
    + split; [discriminate|]. intros [-> _]. contradiction Hf1. reflexivity.
Qed.

Lemma modular_run_outcomes_witness :
  (p <- Parsers.createParser "schema.club" "schema.js" ;;
   Parsers.parse Examples.files Examples.strict Examples.evaluate p)
  = Ok (createParsedSchema [Examples.page] isDocument).
Proof.
  apply (proj2 (proj2 (proj2 (proj2 (modular_run_outcomes Examples.files
           Examples.strict Examples.evaluate "schema.club" "schema.js")))
           (createParsedSchema [Examples.page] isDocument))).
  split; [reflexivity|]. exists Examples.pageLiteral, [Examples.page].
  split; [reflexivity|]. split; [|reflexivity].
  eapply root_evaluated; [reflexivity|split; reflexivity|reflexivity].
Defined.

(** ** The registry a parser builds *)

(** X10.  In a registry built by [createParsedSchema], the document names
    are among the type names, and the membership test in front of every
    lookup is implied by the lookup: a name is a reference target exactly
    when the first type of that name is a document or an object.  So a name
    whose first type is of another category is never a target, even if a
    later type of the same name is a document. *)
Theorem registry_lookup_decides
    (tys : list SchemaType) (documentTypeFilter : SchemaType -> bool) :
  documentTypes (createParsedSchema tys documentTypeFilter)
    ⊆ allTypeNames (createParsedSchema tys documentTypeFilter)
  /\ (forall name,
        isGraphTarget (createParsedSchema tys documentTypeFilter) name
        = match findTypeByName (createParsedSchema tys documentTypeFilter) name with
          | Some ty => isDocumentOrObject ty
          | None => false
          end)
  /\ (forall before ty after,
        tys = before ++ ty :: after ->
        (forall u, In u before -> t_name u <> t_name ty) ->
        isDocumentOrObject ty = false ->
        isGraphTarget (createParsedSchema tys documentTypeFilter) (t_name ty) = false).
Proof.
  assert (Hlookup : forall name,
    isGraphTarget (createParsedSchema tys documentTypeFilter) name
    = match findTypeByName (createParsedSchema tys documentTypeFilter) name with
      | Some ty => isDocumentOrObject ty
      | None => false
      end).
  { intros name. unfold isGraphTarget, findTypeByName. simpl.
    destruct (List.find _ tys) as [ty|] eqn:Hf; [|apply andb_false_r].
    apply find_some in Hf as [Hin Hn]. apply bool_decide_eq_true in Hn.
    rewrite bool_decide_eq_true_2; [reflexivity|].
    apply elem_of_list_to_set, list_elem_of_In, in_map_iff. exists ty. tauto. }
  split; [|split; [exact Hlookup|]].
  - simpl. intros name. rewrite !elem_of_list_to_set, !list_elem_of_In, !in_map_iff.
    intros (ty & Hn & Hin). apply filter_In in Hin. exists ty. tauto.
  - intros before ty after -> Hb Hd. rewrite Hlookup.
    unfold findTypeByName. simpl. rewrite find_first_occurrence by exact Hb. exact Hd.
Qed.

Lemma registry_lookup_decides_witness :
  isGraphTarget
    (createParsedSchema
       [Examples.type "slug" "string" None; Examples.type "slug" "document" None]
       isDocument)
    "slug" = false.
Proof.
  exact (proj2 (proj2 (registry_lookup_decides
           [Examples.type "slug" "string" None; Examples.type "slug" "document" None]
           isDocument))
           [] (Examples.type "slug" "string" None)
           [Examples.type "slug" "document" None] eq_refl
           (fun u (H : In u []) => match H with end) eq_refl).
Defined.

(** ** A schema without graph types *)

(** X11.  When no type of the schema is a document or an object, a
    conversion creates nothing: the converter is as the constructor left
    it, with no node, no edge and no key - whatever fields the types
    declare. *)
Theorem convert_without_graph_types (s : ParsedSchema) :
  (forall ty, In ty (types s) -> isDocumentOrObject ty = false) ->
  convert (newGraphConverter s) = newGraphConverter s.
Proof.
  intros H. unfold convert.
  assert (Hfold : forall (f : GraphConverter -> SchemaType -> GraphConverter) tys this,
            (forall ty, In ty tys -> isDocumentOrObject ty = false) ->
            fold_left (fun this type => if isDocumentOrObject type then f this type else this)
              tys this = this).
  { intros f tys. induction tys as [|ty tys IH]; intros this Hall; simpl; [reflexivity|].
    rewrite (Hall ty) by (left; reflexivity).
    apply IH. intros ty' Hin. apply Hall. right. exact Hin. }
  rewrite (Hfold createNode) by exact H.
  rewrite (Hfold createEdges) by exact H. reflexivity.
Qed.

Lemma convert_without_graph_types_witness :
  convert (newGraphConverter
    (createParsedSchema [Examples.type "slug" "string" (Some [Examples.categoryRef])]
       isDocument))
  = newGraphConverter
      (createParsedSchema [Examples.type "slug" "string" (Some [Examples.categoryRef])]
         isDocument).
Proof.
  apply convert_without_graph_types.
  intros ty [<-|[]]. reflexivity.
Defined.

(** * Properties of the script's normalizers *)

Lemma inferReferenceTarget_truthy fieldName fieldTitle t :
  Script.inferReferenceTarget fieldName fieldTitle = Some t -> truthy t = true.
Proof.
  unfold Script.inferReferenceTarget. intros H.
  apply find_some in H as [_ H]. apply andb_prop in H. tauto.
Qed.

Lemma inferReferenceTarget_some fieldName fieldTitle :
  truthy fieldName = true ->
  exists t, Script.inferReferenceTarget fieldName fieldTitle = Some t.
Proof.
  intros Hn.
  destruct (Script.inferReferenceTarget fieldName fieldTitle) as [t|] eqn:Hf;
    [exists t; reflexivity|].
  exfalso. unfold Script.inferReferenceTarget in Hf.
  pose proof (find_none _ _ Hf fieldName) as Hnone. cbv beta in Hnone.
  assert (Hlen : (0 <? String.length fieldName)%nat = true).
  { destruct fieldName; [discriminate Hn|reflexivity]. }
  rewrite Hn, Hlen in Hnone.
  assert (Hin : In fieldName
    (List.filter truthy
       (omap (fun p : option string => p)
          [Some (replaceRefSuffix fieldName);
           match fieldTitle with
           | Some title =>
               if truthy title then Some (removeWhitespace (toLowerCase title))
               else None
           | None => None
           end;
           Some fieldName;
           if endsWithChar "s" fieldName then Some (dropLast fieldName) else None]))).
  { apply filter_In. split; [|exact Hn].
    apply list_elem_of_In, list_elem_of_omap. exists (Some fieldName).
    split; [|reflexivity]. apply list_elem_of_In. right. right. left. reflexivity. }
  specialize (Hnone Hin). discriminate Hnone.
Qed.

Lemma forallb_omap {A B} (f : A -> option B) (p : B -> bool) (P : A -> Prop)
    (l : list A) :
  (forall a b, P a -> f a = Some b -> p b = true) ->
  Forall P l -> forallb p (omap f l) = true.
Proof.
  intros Hf Hall. induction Hall as [|a l Ha Hall IH]; [reflexivity|].
  cbn [omap list_omap]. destruct (f a) as [b|] eqn:Hb; [|exact IH].
  cbn [forallb]. rewrite (Hf a b Ha Hb). exact IH.
Qed.

Lemma transformSchemaClubField_normalized (r : Script.RawField) :
  forall f, Script.transformSchemaClubField r = Some f -> normalized f = true.
Proof.
  induction r as [name type title fof ffields fto IHof IHfields]
    using RawField_nested_ind.
  intros f. cbn [Script.transformSchemaClubField].
  destruct (truthyOpt name) eqn:Hname; [|discriminate].
  destruct (truthyOpt type) eqn:Htype; [|discriminate].
  cbn [negb orb]. intros [= <-].
  destruct name as [name|]; [|discriminate Hname].
  destruct type as [type|]; [|discriminate Htype].
  cbn [default from_option id truthyOpt] in *. cbn [normalized truthyOpt].
  rewrite Hname, Htype.
  cbn [andb].
  assert (Hitems : forall o, allOf (fun r => forall f,
                       Script.transformSchemaClubField r = Some f ->
                       normalized f = true) o ->
                     forall l, o = Some l ->
                     forallb normalized (omap Script.transformSchemaClubField l) = true).
  { intros o Hall l ->. simpl in Hall.
    apply (forallb_omap _ _ _ _ (fun a b Ha Hb => Ha b Hb) Hall). }
  repeat (apply andb_true_intro; split).
  - case_bool_decide as Href; [|reflexivity].
    destruct (inferReferenceTarget_some name title Hname) as (t & Ht).
    rewrite Ht. apply inferReferenceTarget_truthy in Ht. exact Ht.
  - case_bool_decide as Harr; [|reflexivity].
    destruct fof as [items|]; [|reflexivity].
    cbn [andb]. apply (Hitems _ IHof). reflexivity.
  - destruct ffields as [subFields|]; [|reflexivity].
    apply (Hitems _ IHfields). reflexivity.
Qed.

Lemma normalized_named f : normalized f = true -> isNamed f = true.
Proof.
  destruct f as [type name title fields ofItems to]. cbn [normalized].
  intros H. repeat (apply andb_prop in H as [H ?]).
  unfold isNamed. cbn [f_name]. assumption.
Qed.

Lemma omap_In {A B} (f : A -> option B) (l : list A) (b : B) :
  In b (omap f l) -> exists a, In a l /\ f a = Some b.
Proof.
  intros H. apply list_elem_of_In, list_elem_of_omap in H as (a & Ha & Hf).
  exists a. split; [apply list_elem_of_In; exact Ha|exact Hf].
Qed.

(** X12.  Whatever the raw array holds, the script's schema.club
    normalizer returns types with non-empty name and type, whose fields
    are, at every depth, named and typed; every reference field has exactly
    one target, a non-empty name, and no other field has targets; only
    array fields have items.  No field of such a schema is skipped by
    [createEdges] for want of a name. *)
Theorem script_normalizer_output (rawSchema : list Script.RawType) (ty : SchemaType) :
  In ty (Script.transformSchema rawSchema) ->
  truthy (t_name ty) = true /\ truthy (t_type ty) = true
  /\ t_of ty = None
  /\ forall field,
       In field (default [] (t_fields ty)) ->
       normalized field = true /\ isNamed field = true.
Proof.
  unfold Script.transformSchema. intros H.
  apply in_map_iff in H as (raw & <- & Hraw).
  apply filter_In in Hraw as [_ Hraw]. apply andb_prop in Hraw as [Hn Ht].
  destruct raw as [name type title fields]. cbn in Hn, Ht |- *.
  destruct name as [name|]; [|discriminate Hn].
  destruct type as [type|]; [|discriminate Ht].
  cbn in Hn, Ht |- *. repeat split; try assumption.
  - destruct fields as [fields|]; [|destruct H].
    cbn in H. apply omap_In in H as (r & _ & Hr).
    eapply transformSchemaClubField_normalized; eauto.
  - destruct fields as [fields|]; [|destruct H].
    cbn in H. apply omap_In in H as (r & _ & Hr).
    eapply normalized_named, transformSchemaClubField_normalized; eauto.
Qed.

Lemma script_normalizer_output_witness :
  truthy (t_name (Script.transformSchemaClubType Examples.rawProduct)) = true.
Proof.
  refine (proj1 (script_normalizer_output
            [Examples.rawProduct; Examples.rawCategory]
            (Script.transformSchemaClubType Examples.rawProduct) _)).
  left. reflexivity.
Defined.

Lemma normalized_reference_explicit f :
  normalized f = true -> f_type f = "reference" -> hasExplicitTargets f = true.
Proof.
  destruct f as [type name title fields ofItems to]. cbn [normalized f_type].
  intros H ->. repeat (apply andb_prop in H as [H ?]).
  rewrite (bool_decide_eq_true_2 _ eq_refl) in *.
  unfold hasExplicitTargets. cbn [f_to].
  destruct to as [[|t [|? ?]]|]; try discriminate. reflexivity.
Qed.

Lemma normalized_items f items :
  normalized f = true -> f_of f = Some items -> forallb normalized items = true.
Proof.
  destruct f as [type name title fields ofItems to]. cbn [normalized f_of].
  intros H ->. repeat (apply andb_prop in H as [H ?]).
  match goal with Hi : _ && forallb normalized items = true |- _ =>
    apply andb_prop in Hi as [_ Hi]; exact Hi end.
Qed.

Lemma normalized_candidates_not_inferred s src fid field c :
  normalized field = true ->
  In c (fieldCandidates s src fid field) ->
  rel (e_style c) <> INFERRED_REFERENCE
  /\ rel (e_style c) <> INFERRED_ARRAY_REFERENCE.
Proof.
  intros Hnorm. unfold fieldCandidates. rewrite !in_app_iff. intros [H|[H|H]].
  - case_bool_decide as Hty; [|contradiction].
    rewrite (normalized_reference_explicit _ Hnorm Hty) in H.
    apply in_map_iff in H as (t & <- & _). split; discriminate.
  - destruct (_ && _); [|contradiction].
    destruct (findObjectType _ _); [|contradiction].
    destruct H as [<-|[]]. split; discriminate.
  - destruct (bool_decide _); [|contradiction].
    destruct (f_of field) as [items|] eqn:Hof; [|contradiction].
    pose proof (normalized_items _ _ Hnorm Hof) as Hitems.
    apply in_flat_map in H as (item & Hitem & H).
    rewrite forallb_forall in Hitems. specialize (Hitems item Hitem).
    unfold itemCandidates in H. rewrite in_app_iff in H. destruct H as [H|H].
    + case_bool_decide as Hty; [|contradiction].
      rewrite (normalized_reference_explicit _ Hitems Hty) in H.
      apply in_map_iff in H as (t & <- & _). split; discriminate.
    + destruct (_ && _); [|contradiction].
      destruct (findObjectType _ _); [|contradiction].
      destruct H as [<-|[]]. split; discriminate.
Qed.

(** X13.  After the script's schema.club normalizer no edge is ever drawn
    as inferred: every reference field arrives with the target the
    normalizer inferred for it, so the resolver's own inference, for fields
    and for array items alike, is never reached. *)
Theorem script_schema_has_no_inferred_edge
    (rawSchema : list Script.RawType) (e : Edge) :
  In e (edges (graph (convert (newGraphConverter
         (createParsedSchema (Script.transformSchema rawSchema) isDocument))))) ->
  rel (e_style e) <> INFERRED_REFERENCE
  /\ rel (e_style e) <> INFERRED_ARRAY_REFERENCE.
Proof.
  intros He. apply convert_emits_candidates in He.
  unfold schemaCandidates in He. cbn [types createParsedSchema] in He.
  apply in_flat_map in He as (ty & Hty & He).
  destruct (isDocumentOrObject ty); [|contradiction].
  unfold typeCandidates in He.
  apply in_flat_map in He as (field & Hfield & He).
  destruct (isNamed field); [|contradiction].
  destruct (script_normalizer_output rawSchema ty Hty) as (_ & _ & _ & Hfields).
  destruct (Hfields field Hfield) as [Hnorm _].
  eapply normalized_candidates_not_inferred; eauto.
Qed.

Lemma script_schema_has_no_inferred_edge_witness :
  rel (e_style (plainCandidate "product" "category" "categoryRef" DIRECT_REFERENCE))
    <> INFERRED_REFERENCE
  /\ rel (e_style (plainCandidate "product" "category" "categoryRef" DIRECT_REFERENCE))
     <> INFERRED_ARRAY_REFERENCE.
Proof.
  apply (script_schema_has_no_inferred_edge
           [Examples.rawProduct; Examples.rawCategory]).
  vm_compute. left. reflexivity.
Defined.

Lemma omap_ext_Forall {A B} (f g : A -> option B) (p : A -> bool) (l : list A) :
  Forall (fun a => p a = true -> f a = g a) l ->
  forallb p l = true -> omap f l = omap g l.
Proof.
  intros Hall. induction Hall as [|a l Ha Hall IH]; [reflexivity|].
  cbn [forallb omap list_omap]. intros H. apply andb_prop in H as [Hp Hl].
  rewrite (Ha Hp), (IH Hl). reflexivity.
Qed.

Lemma transformSimpleField_agrees (r : Script.RawField) :
  SimpleFormat.noExplicitTargets r = true ->
  SimpleFormat.transformSimpleField r = Script.transformSchemaClubField r.
Proof.
  induction r as [name type title fof ffields fto IHof IHfields]
    using RawField_nested_ind.
  cbn [SimpleFormat.noExplicitTargets SimpleFormat.transformSimpleField
       Script.transformSchemaClubField].
  intros H. apply andb_prop in H as [H Hfields]. apply andb_prop in H as [Hto Hof].
  destruct (negb (truthyOpt name) || negb (truthyOpt type)) eqn:Hskip;
    [reflexivity|].
  apply orb_false_elim in Hskip as [_ Htype]. apply negb_false_iff in Htype.
  destruct type as [type|]; [|discriminate Htype].
  cbn [default from_option id].
  assert (Htargets :
    (if bool_decide (type = "reference")
     then match fto with
          | Some to => Some to
          | None =>
              match Script.inferReferenceTarget (default "" name) title with
              | Some possibleTarget => Some [ {| tr_type := possibleTarget |} ]
              | None => None
              end
          end
     else None)
    = (if bool_decide (type = "reference")
       then match Script.inferReferenceTarget (default "" name) title with
            | Some possibleTarget => Some [ {| tr_type := possibleTarget |} ]
            | None => None
            end
       else None)).
  { destruct (bool_decide (type = "reference")) eqn:Href; [|reflexivity].
    apply bool_decide_eq_true in Href. subst type.
    destruct fto as [to|]; [|reflexivity].
    rewrite (bool_decide_eq_true_2 _ eq_refl) in Hto.
    rewrite bool_decide_eq_true_2 in Hto by (eexists; reflexivity).
    discriminate Hto. }
  unfold default in Htargets |- *. cbn [from_option id] in Htargets |- *.
  rewrite Htargets.
  assert (Hitems : forall o,
    allOf (fun r => SimpleFormat.noExplicitTargets r = true ->
                    SimpleFormat.transformSimpleField r
                    = Script.transformSchemaClubField r) o ->
    match o with
    | Some items => forallb SimpleFormat.noExplicitTargets items
    | None => true
    end = true ->
    match o with
    | Some items => Some (omap SimpleFormat.transformSimpleField items)
    | None => None
    end
    = match o with
      | Some items => Some (omap Script.transformSchemaClubField items)
      | None => None
      end).
  { intros [items|] Hall Hb; [|reflexivity]. f_equal.
    apply (omap_ext_Forall _ _ SimpleFormat.noExplicitTargets); assumption. }
  rewrite (Hitems ffields IHfields Hfields).
  destruct (bool_decide (type = "array")); [|reflexivity].
  rewrite (Hitems fof IHof Hof). reflexivity.
Qed.

(** X14.  The simple-format transformer of the script's Sanity parser keeps
    the [to] array of a named reference field as it is, an empty one
    included, and is the schema.club transformer on every field that
    carries no [to] on a reference at any depth. *)
Theorem transformSimpleField_versus_schema_club (r : Script.RawField) :
  (SimpleFormat.noExplicitTargets r = true ->
   SimpleFormat.transformSimpleField r = Script.transformSchemaClubField r)
  /\ (forall name to,
        Script.rf_name r = Some name -> truthy name = true ->
        Script.rf_type r = Some "reference" -> Script.rf_to r = Some to ->
        f_to <$> SimpleFormat.transformSimpleField r = Some (Some to)).
Proof.
  split.
  - apply transformSimpleField_agrees.
  - intros name to Hname Hn Htype Hto. destruct r as [n t title fof ffields fto].
    cbn in Hname, Htype, Hto. subst n t fto.
    cbn [SimpleFormat.transformSimpleField truthyOpt]. rewrite Hn. reflexivity.
Qed.

Lemma transformSimpleField_versus_schema_club_witness :
  f_to <$> SimpleFormat.transformSimpleField
             {| Script.rf_name := Some "owner"; Script.rf_type := Some "reference";
                Script.rf_title := None; Script.rf_of := None;
                Script.rf_fields := None; Script.rf_to := Some [] |}
  = Some (Some []).
Proof.
  exact (proj2 (transformSimpleField_versus_schema_club
                  {| Script.rf_name := Some "owner";
                     Script.rf_type := Some "reference";
                     Script.rf_title := None; Script.rf_of := None;
                     Script.rf_fields := None; Script.rf_to := Some [] |})
           "owner" [] eq_refl eq_refl eq_refl eq_refl).
Defined.

(** * Properties of the script's Sanity parser *)

Lemma dedupFirst_In l : forall seen x,
  In x (dedupFirst seen l) <-> In x l /\ x ∉ seen.
Proof.
  induction l as [|y l IH]; intros seen x; cbn [dedupFirst].
  - simpl. tauto.
  - case_bool_decide as Hy.
    + rewrite IH. simpl. split; [tauto|].
      intros [[<-|H] Hx]; [contradiction|tauto].
    + simpl. rewrite IH, not_elem_of_cons. split.
      * intros [<-|(H & Hne & Hx)]; tauto.
      * intros [[<-|H] Hx]; [tauto|].
        destruct (decide (x = y)) as [->|Hne]; [tauto|]. right. tauto.
Qed.

Lemma dedupFirst_NoDup l : forall seen, NoDup (dedupFirst seen l).
Proof.
  induction l as [|y l IH]; intros seen; cbn [dedupFirst]; [constructor|].
  case_bool_decide as Hy; [apply IH|].
  apply NoDup_cons. split; [|apply IH].
  rewrite list_elem_of_In, dedupFirst_In. intros [_ H]. apply H. left.
Qed.

Lemma dedupFirst_nil_In l x : In x (dedupFirst [] l) <-> In x l.
Proof. rewrite dedupFirst_In. split; [tauto|]. intros H. split; [exact H|]. apply not_elem_of_nil. Qed.

Lemma In_truthy_option (o : option string) (x : string) :
  In x (if truthyOpt o then [default "" o] else []) <-> o = Some x /\ truthy x = true.
Proof.
  destruct o as [d|]; cbn; [|split; [intros []|intros [H _]; discriminate H]].
  destruct (truthy d) eqn:Hd; cbn.
  - split.
    + intros [<-|[]]. tauto.
    + intros [[= <-] _]. left. reflexivity.
  - split; [intros []|]. intros [[= <-] H]. congruence.
Qed.

Lemma nodeReferences_visited (node : SanityFormat.SanityNode) :
  forall x,
    In x (SanityFormat.nodeReferences node)
    <-> exists n, In n (SanityFormat.visited node) /\ SanityFormat.mentions n x.
Proof.
  induction node as [type name deref value ofMembers attributes IHv IHo IHa]
    using SanityFormat.SanityNode_nested_ind.
  intros x. cbn [SanityFormat.nodeReferences SanityFormat.visited].
  rewrite !in_app_iff.
  set (self := SanityFormat.Build_SanityNode type name deref value ofMembers attributes).
  assert (Hself : (In x (if truthyOpt deref then [default "" deref] else [])
                   \/ In x (if bool_decide (type = Some "inline") && truthyOpt name
                            then [default "" name] else []))
                  <-> SanityFormat.mentions self x).
  { unfold SanityFormat.mentions, self. cbn [SanityFormat.sn_dereferencesTo
      SanityFormat.sn_type SanityFormat.sn_name].
    rewrite In_truthy_option.
    destruct (bool_decide (type = Some "inline")) eqn:Hty; cbn [andb].
    - apply bool_decide_eq_true in Hty. rewrite In_truthy_option. tauto.
    - apply bool_decide_eq_false in Hty. simpl. tauto. }
  assert (Hvalue : In x match value with
                        | Some v => dedupFirst [] (flat_map SanityFormat.nodeReferences [v])
                        | None => []
                        end
                   <-> exists n, In n match value with
                                      | Some v => SanityFormat.visited v
                                      | None => []
                                      end /\ SanityFormat.mentions n x).
  { destruct value as [v|].
    - rewrite dedupFirst_nil_In. cbn [flat_map]. rewrite app_nil_r. apply IHv.
    - split; [intros []|intros (n & [] & _)]. }
  assert (Hof : In x match ofMembers with
                     | Some (inl members) =>
                         dedupFirst [] (flat_map SanityFormat.nodeReferences members)
                     | _ => []
                     end
                <-> exists n, In n match ofMembers with
                                   | Some (inl members) =>
                                       flat_map SanityFormat.visited members
                                   | _ => []
                                   end /\ SanityFormat.mentions n x).
  { destruct ofMembers as [[members|single]|];
      try (split; [intros []|intros (n & [] & _)]).
    rewrite dedupFirst_nil_In, in_flat_map. rewrite Forall_forall in IHo. split.
    - intros (m & Hm & Hx). apply list_elem_of_In in Hm.
      apply (IHo m Hm) in Hx as (n & Hn & Hmen).
      exists n. split; [|exact Hmen]. apply in_flat_map. exists m.
      split; [apply list_elem_of_In; exact Hm|exact Hn].
    - intros (n & Hn & Hmen). apply in_flat_map in Hn as (m & Hm & Hn).
      exists m. split; [exact Hm|]. apply list_elem_of_In in Hm.
      apply (IHo m Hm). exists n. tauto. }
  assert (Hattr : In x match attributes with
                       | Some entries =>
                           flat_map
                             (fun entry =>
                                dedupFirst []
                                  (flat_map SanityFormat.nodeReferences [snd entry]))
                             entries
                       | None => []
                       end
                  <-> exists n, In n match attributes with
                                     | Some entries =>
                                         flat_map
                                           (fun entry => SanityFormat.visited (snd entry))
                                           entries
                                     | None => []
                                     end /\ SanityFormat.mentions n x).
  { destruct attributes as [entries|];
      [|split; [intros []|intros (n & [] & _)]].
    rewrite in_flat_map. rewrite Forall_forall in IHa. split.
    - intros (entry & He & Hx). rewrite dedupFirst_nil_In in Hx.
      cbn [flat_map] in Hx. rewrite app_nil_r in Hx.
      apply list_elem_of_In in He.
      apply (IHa entry He) in Hx as (n & Hn & Hmen).
      exists n. split; [|exact Hmen]. apply in_flat_map. exists entry.
      split; [apply list_elem_of_In; exact He|exact Hn].
    - intros (n & Hn & Hmen). apply in_flat_map in Hn as (entry & He & Hn).
      exists entry. split; [exact He|]. rewrite dedupFirst_nil_In.
      cbn [flat_map]. rewrite app_nil_r. apply list_elem_of_In in He.
      apply (IHa entry He). exists n. tauto. }
  rewrite Hvalue, Hof, Hattr. clear Hvalue Hof Hattr IHv IHo IHa.
  split.
  - intros [H|[H|[H|[H|H]]]].
    + exists self. split; [left; reflexivity|]. apply Hself. left. exact H.
    + exists self. split; [left; reflexivity|]. apply Hself. right. exact H.
    + destruct H as (n & Hn & Hm). exists n. split; [|exact Hm].
      right. rewrite !in_app_iff. tauto.
    + destruct H as (n & Hn & Hm). exists n. split; [|exact Hm].
      right. rewrite !in_app_iff. tauto.
    + destruct H as (n & Hn & Hm). exists n. split; [|exact Hm].
      right. rewrite !in_app_iff. tauto.
  - intros (n & [<-|Hn] & Hm).
    + apply Hself in Hm. tauto.
    + rewrite !in_app_iff in Hn. destruct Hn as [Hn|[Hn|Hn]].
      * right. right. left. exists n. tauto.
      * right. right. right. left. exists n. tauto.
      * right. right. right. right. exists n. tauto.
Qed.

Lemma extractAllReferencesRecursive_In nodes x :
  In x (SanityFormat.extractAllReferencesRecursive nodes)
  <-> exists n, In n (flat_map SanityFormat.visited nodes) /\ SanityFormat.mentions n x.
Proof.
  unfold SanityFormat.extractAllReferencesRecursive.
  rewrite dedupFirst_nil_In, in_flat_map. split.
  - intros (m & Hm & Hx). apply nodeReferences_visited in Hx as (n & Hn & Hmen).
    exists n. split; [|exact Hmen]. apply in_flat_map. exists m. tauto.
  - intros (n & Hn & Hmen). apply in_flat_map in Hn as (m & Hm & Hn).
    exists m. split; [exact Hm|]. apply nodeReferences_visited. exists n. tauto.
Qed.

(** X15.  [extractAllReferencesRecursive] returns, without repetition,
    exactly the names mentioned anywhere the search goes: a name is in the
    result if and only if some node among the given ones, their values, the
    members of their [of] arrays and the values of their attributes, at any
    depth, names it by a non-empty [dereferencesTo] or is an inline type of
    that non-empty name.  All references are collected, not the first one
    only. *)
Theorem extractAllReferencesRecursive_collects_all
    (nodes : list SanityFormat.SanityNode) :
  NoDup (SanityFormat.extractAllReferencesRecursive nodes)
  /\ forall x,
       In x (SanityFormat.extractAllReferencesRecursive nodes)
       <-> exists n, In n (flat_map SanityFormat.visited nodes)
                     /\ SanityFormat.mentions n x.
Proof.
  split; [apply dedupFirst_NoDup|]. intros x. apply extractAllReferencesRecursive_In.
Qed.

Lemma visited_self node : In node (SanityFormat.visited node).
Proof. destruct node. left. reflexivity. Qed.

Lemma nonEmpty_In {A} (l : list A) x : In x l -> SanityFormat.nonEmpty l = true.
Proof. destruct l; [intros []|reflexivity]. Qed.

Lemma nonEmpty_false {A} (l : list A) : SanityFormat.nonEmpty l = false <-> l = [].
Proof. destruct l; split; try reflexivity; discriminate. Qed.

(** X16.  A field the Sanity transformer returns has the attribute's name
    and no title.  It carries targets exactly when the reference search
    finds something in its definition, and each of its targets is one of
    the references found there. *)
Theorem transformSanityField_targets
    (fieldName : string) (fieldDef : SanityFormat.SanityNode) (f : SchemaField) :
  SanityFormat.transformSanityField fieldName fieldDef = Some f ->
  f_name f = Some fieldName /\ f_title f = None
  /\ (f_to f = None <-> SanityFormat.extractAllReferencesRecursive [fieldDef] = [])
  /\ forall t, In t (default [] (f_to f)) ->
               In (tr_type t) (SanityFormat.extractAllReferencesRecursive [fieldDef]).
Proof.
  destruct fieldDef as [type name deref value ofMembers attributes].
  cbn [SanityFormat.transformSanityField SanityFormat.sn_value
       SanityFormat.sn_dereferencesTo].
  destruct value as [v|]; [|discriminate].
  set (self := SanityFormat.Build_SanityNode type name deref (Some v) ofMembers attributes).
  set (allRefs := SanityFormat.extractAllReferencesRecursive [self]).
  assert (Hd : truthyOpt deref = true -> In (default "" deref) allRefs).
  { intros H. apply extractAllReferencesRecursive_In. exists self. split.
    - cbn [flat_map]. rewrite app_nil_r. apply visited_self.
    - left. destruct deref as [d|]; [|discriminate H]. split; [reflexivity|exact H]. }
  assert (Hv : truthyOpt (SanityFormat.sn_dereferencesTo v) = true ->
               In (default "" (SanityFormat.sn_dereferencesTo v)) allRefs).
  { intros H. apply extractAllReferencesRecursive_In. exists v. split.
    - cbn [flat_map]. rewrite app_nil_r. unfold self.
      cbn [SanityFormat.visited]. right. rewrite in_app_iff. left. apply visited_self.
    - left. destruct (SanityFormat.sn_dereferencesTo v) as [d|]; [|discriminate H].
      split; [reflexivity|exact H]. }
  clearbody allRefs. clear self.
  destruct (truthyOpt deref) eqn:Hdt;
    destruct (truthyOpt (SanityFormat.sn_dereferencesTo v)) eqn:Hvt;
    cbn [orb];
    destruct (SanityFormat.nonEmpty allRefs) eqn:Hne;
    destruct (bool_decide (SanityFormat.sn_type v = Some "array"));
    destruct (SanityFormat.sn_of v);
    destruct (bool_decide (SanityFormat.sn_type v = Some "object"));
    destruct (SanityFormat.sn_attributes v);
    intros [= <-]; cbn [f_name f_title f_to default from_option id];
    (split; [reflexivity|]); (split; [reflexivity|]);
    try specialize (Hd eq_refl); try specialize (Hv eq_refl);
    (split;
     [split; intros H; try discriminate H;
      try (subst allRefs;
           first [ match goal with Hin : In _ [] |- _ => destruct Hin end
                 | discriminate Hne ]);
      try reflexivity;
      try (apply nonEmpty_false; exact Hne)
     |intros t Ht;
      try (destruct Ht as [<-|[]]; cbn [tr_type]; assumption);
      try (apply in_map_iff in Ht as (x & <- & Hx); exact Hx);
      try destruct Ht]).
Qed.

Lemma transformSanityField_targets_witness :
  f_name
    {| f_type := "reference"; f_name := Some "author"; f_title := None;
       f_fields := None; f_of := None; f_to := Some [ {| tr_type := "person" |} ] |}
  = Some "author".
Proof.
  refine (proj1 (transformSanityField_targets "author"
            {| SanityFormat.sn_type := None; SanityFormat.sn_name := None;
               SanityFormat.sn_dereferencesTo := None;
               SanityFormat.sn_value :=
                 Some {| SanityFormat.sn_type := Some "object";
                         SanityFormat.sn_name := None;
                         SanityFormat.sn_dereferencesTo := Some "person";
                         SanityFormat.sn_value := None; SanityFormat.sn_of := None;
                         SanityFormat.sn_attributes := None |};
               SanityFormat.sn_of := None; SanityFormat.sn_attributes := None |}
            _ _)).
  vm_compute. reflexivity.
Defined.

(** The loop over the attributes of an object field is the loop of
    [transformSanityType]. *)
Lemma subFields_transformAttributes (entries : list (string * SanityFormat.SanityNode)) :
  (fix subFields (entries : list (string * SanityFormat.SanityNode)) :=
     match entries with
     | [] => []
     | (subFieldName, subFieldDef) :: rest =>
         if negb (startsWithChar "_" subFieldName) then
           match SanityFormat.transformSanityField subFieldName subFieldDef with
           | Some subField => subField :: subFields rest
           | None => subFields rest
           end
         else subFields rest
     end) entries
  = SanityFormat.transformAttributes entries.
Proof.
  induction entries as [|[k d] rest IH]; [reflexivity|].
  cbn [SanityFormat.transformAttributes]. rewrite <- IH.
  destruct (startsWithChar "_" k); reflexivity.
Qed.

Lemma transformAttributes_In entries field :
  In field (SanityFormat.transformAttributes entries) ->
  exists fieldName fieldDef,
    In (fieldName, fieldDef) entries /\ startsWithChar "_" fieldName = false
    /\ SanityFormat.transformSanityField fieldName fieldDef = Some field.
Proof.
  induction entries as [|[k d] rest IH]; cbn [SanityFormat.transformAttributes];
    [intros []|].
  destruct (startsWithChar "_" k) eqn:Hk.
  - intros H. destruct (IH H) as (n & def & Hin & Hn & Ht).
    exists n, def. split; [right; exact Hin|tauto].
  - destruct (SanityFormat.transformSanityField k d) as [f|] eqn:Hf.
    + intros [<-|H].
      * exists k, d. split; [left; reflexivity|tauto].
      * destruct (IH H) as (n & def & Hin & Hn & Ht).
        exists n, def. split; [right; exact Hin|tauto].
    + intros H. destruct (IH H) as (n & def & Hin & Hn & Ht).
      exists n, def. split; [right; exact Hin|tauto].
Qed.

(** The nested fields and the items of a transformed field. *)
Lemma transformSanityField_parts fieldName fieldDef f :
  SanityFormat.transformSanityField fieldName fieldDef = Some f ->
  f_name f = Some fieldName
  /\ (f_fields f = None
      \/ exists value attributes,
           SanityFormat.sn_value fieldDef = Some value
           /\ SanityFormat.sn_attributes value = Some attributes
           /\ f_fields f = Some (SanityFormat.transformAttributes attributes))
  /\ (f_of f = None
      \/ exists value arrayOf,
           SanityFormat.sn_value fieldDef = Some value
           /\ SanityFormat.sn_of value = Some arrayOf
           /\ f_type f = "array"
           /\ f_of f = Some (SanityFormat.transformArrayItems arrayOf)).
Proof.
  destruct fieldDef as [type name deref value ofMembers attributes].
  cbn [SanityFormat.transformSanityField SanityFormat.sn_value
       SanityFormat.sn_dereferencesTo].
  destruct value as [v|]; [|discriminate].
  generalize (SanityFormat.extractAllReferencesRecursive
                [SanityFormat.Build_SanityNode type name deref (Some v)
                   ofMembers attributes]).
  intros allRefs.
  destruct (truthyOpt deref || truthyOpt (SanityFormat.sn_dereferencesTo v));
    destruct (SanityFormat.nonEmpty allRefs);
    destruct (bool_decide (SanityFormat.sn_type v = Some "array")) eqn:Harr;
    destruct (SanityFormat.sn_of v) as [arrayOf|] eqn:Hof;
    destruct (bool_decide (SanityFormat.sn_type v = Some "object")) eqn:Hobj;
    destruct (truthyOpt (SanityFormat.sn_dereferencesTo v));
    destruct (SanityFormat.sn_attributes v) as [attrs|] eqn:Hattrs;
    intros [= <-]; cbn [f_name f_fields f_of f_type];
    try (apply bool_decide_eq_true in Harr; apply bool_decide_eq_true in Hobj;
         congruence);
    rewrite ?subFields_transformAttributes;
    (split; [reflexivity|]);
    (split;
     [first [left; reflexivity | right; exists v, attrs; auto]
     |first [left; reflexivity | right; exists v, arrayOf; auto]]).
Qed.

Lemma transformArrayItems_unnamed arrayOf item :
  In item (SanityFormat.transformArrayItems arrayOf) ->
  f_name item = None /\ f_title item = None.
Proof.
  unfold SanityFormat.transformArrayItems. intros H.
  apply omap_In in H as (node & _ & H).
  unfold SanityFormat.transformArrayItem in H.
  repeat match type of H with
         | (if ?c then _ else _) = _ => destruct c
         | match ?o with Some _ => _ | None => _ end = _ => destruct o
         end;
    try discriminate H; injection H as <-; split; reflexivity.
Qed.

Lemma transformSanityField_public (node : SanityFormat.SanityNode) :
  (forall fieldName f,
      SanityFormat.transformSanityField fieldName node = Some f ->
      startsWithChar "_" fieldName = false ->
      SanityFormat.publicNames f = true)
  /\ (forall entries,
        SanityFormat.sn_attributes node = Some entries ->
        forallb SanityFormat.publicNames (SanityFormat.transformAttributes entries)
        = true).
Proof.
  induction node as [type name deref value ofMembers attributes IHv IHo IHa]
    using SanityFormat.SanityNode_nested_ind.
  split.
  - intros fieldName f Hf Hname.
    destruct (transformSanityField_parts _ _ _ Hf) as (Hn & Hfields & _).
    destruct f as [ftype fname ftitle ffields fof fto].
    cbn [f_name f_fields] in Hn, Hfields. subst fname.
    cbn [SanityFormat.publicNames]. rewrite Hname. cbn [negb andb].
    destruct Hfields as [->|(v & attrs & Hv & Hattrs & ->)]; [reflexivity|].
    cbn [SanityFormat.sn_value] in Hv. subst value.
    destruct IHv as [_ IHv]. apply IHv. exact Hattrs.
  - intros entries [= ->].
    induction IHa as [|[k d] rest [Hd _] _ IH]; [reflexivity|].
    cbn [SanityFormat.transformAttributes].
    destruct (startsWithChar "_" k) eqn:Hk; [exact IH|].
    destruct (SanityFormat.transformSanityField k d) as [f|] eqn:Hf; [|exact IH].
    cbn [forallb]. cbn [snd] in Hd. rewrite (Hd k f Hf Hk). exact IH.
Qed.

Lemma publicNames_visible f :
  SanityFormat.publicNames f = true -> isVisibleField f = true.
Proof.
  destruct f as [ftype fname ftitle ffields fof fto].
  cbn [SanityFormat.publicNames]. unfold isVisibleField. cbn [f_name].
  intros H. apply andb_prop in H as [H _]. exact H.
Qed.

Lemma transformSanityType_field sanityType field :
  In field (default [] (t_fields (SanityFormat.transformSanityType sanityType))) ->
  exists fieldName fieldDef,
    SanityFormat.transformSanityField fieldName fieldDef = Some field.
Proof.
  unfold SanityFormat.transformSanityType. cbn [t_fields].
  set (source := match SanityFormat.se_attributes sanityType with
                 | Some attributes => Some attributes
                 | None => _
                 end).
  destruct source as [attributes|]; [|intros []].
  cbn [default from_option id]. intros H.
  apply transformAttributes_In in H as (k & d & _ & _ & Hf). eauto.
Qed.

(** X17.  The Sanity transformer leaves out every attribute whose name
    begins with an underscore, in a type and in the nested object fields at
    any depth; so each field of a transformed type is shown as a row of its
    node.  A field keeps the name of its attribute. *)
Theorem transformSanityType_hides_internal_attributes
    (sanityType : SanityFormat.SanityEntry) (field : SchemaField) :
  In field (default [] (t_fields (SanityFormat.transformSanityType sanityType))) ->
  SanityFormat.publicNames field = true /\ isVisibleField field = true
  /\ exists fieldName fieldDef,
       f_name field = Some fieldName /\ startsWithChar "_" fieldName = false
       /\ SanityFormat.transformSanityField fieldName fieldDef = Some field.
Proof.
  unfold SanityFormat.transformSanityType. cbn [t_fields].
  set (source := match SanityFormat.se_attributes sanityType with
                 | Some attributes => Some attributes
                 | None => _
                 end).
  destruct source as [attributes|]; [|intros []].
  cbn [default from_option id]. intros H.
  apply transformAttributes_In in H as (k & d & _ & Hk & Hf).
  assert (Hp : SanityFormat.publicNames field = true)
    by (exact (proj1 (transformSanityField_public d) k field Hf Hk)).
  split; [exact Hp|]. split; [apply publicNames_visible; exact Hp|].
  exists k, d. split; [|tauto].
  exact (proj1 (transformSanityField_parts _ _ _ Hf)).
Qed.

Lemma transformSanityType_hides_internal_attributes_witness :
  SanityFormat.publicNames SanityExamples.authorField = true.
Proof.
  refine (proj1 (transformSanityType_hides_internal_attributes SanityExamples.post
            SanityExamples.authorField _)).
  vm_compute. right. left. reflexivity.
Defined.

Lemma filter_map_comm {A B} (g : A -> B) (p : B -> bool) (l : list A) :
  List.filter p (List.map g l) = List.map g (List.filter (fun a => p (g a)) l).
Proof.
  induction l as [|a l IH]; [reflexivity|]. cbn [List.map List.filter].
  destruct (p (g a)); cbn [List.map]; rewrite IH; reflexivity.
Qed.

(** X18.  Whether the Sanity parser takes the format with nested attributes
    is decided by the first entry alone.  When that entry has no attributes,
    or has fields, or the array is empty, every entry goes through the
    simple transformer; if moreover no reference field carries a [to], the
    parser returns the very types the script's schema.club parser returns
    for the same entries. *)
Theorem sanity_parser_simple_fallback (rawSchema : list SanityFormat.SanityEntry) :
  SanityFormat.isComplexFormat rawSchema = false ->
  SanityFormat.transformSchema rawSchema
  = List.map (fun item => SimpleFormat.transformSimpleType (SanityFormat.asSimple item))
      (List.filter
         (fun item => truthyOpt (SanityFormat.se_name item)
                      && truthyOpt (SanityFormat.se_type item))
         rawSchema)
  /\ ((forall item field,
         In item rawSchema ->
         In field (default [] (SanityFormat.se_fields item)) ->
         SimpleFormat.noExplicitTargets field = true) ->
      SanityFormat.transformSchema rawSchema
      = Script.transformSchema (List.map SanityFormat.asSimple rawSchema)).
Proof.
  intros Hsimple. unfold SanityFormat.transformSchema. rewrite Hsimple.
  split; [reflexivity|]. intros Hto.
  unfold Script.transformSchema.
  rewrite (filter_map_comm SanityFormat.asSimple), List.map_map.
  apply map_ext_in. intros item Hitem. apply filter_In in Hitem as [Hitem _].
  unfold SimpleFormat.transformSimpleType, Script.transformSchemaClubType.
  cbn [SanityFormat.asSimple Script.rt_name Script.rt_type Script.rt_title
       Script.rt_fields].
  f_equal. specialize (Hto item).
  destruct (SanityFormat.se_fields item) as [fields|]; [|reflexivity].
  f_equal. cbn [default from_option id] in Hto.
  apply (omap_ext_Forall _ _ SimpleFormat.noExplicitTargets).
  - apply Forall_forall. intros r _. apply transformSimpleField_agrees.
  - apply forallb_forall. intros r Hr. apply Hto; assumption.
Qed.

Lemma sanity_parser_simple_fallback_witness :
  SanityFormat.transformSchema [SanityExamples.simplePost; SanityExamples.person]
  = Script.transformSchema
      (List.map SanityFormat.asSimple [SanityExamples.simplePost; SanityExamples.person]).
Proof.
  refine (proj2 (sanity_parser_simple_fallback
            [SanityExamples.simplePost; SanityExamples.person] eq_refl) _).
  intros item field [<-|[<-|[]]]; cbn; [|intros []].
  intros [<-|[]]. reflexivity.
Defined.

Lemma typeCandidates_In s ty c :
  In c (typeCandidates s ty) ->
  exists field fid,
    In field (default [] (t_fields ty)) /\ f_name field = Some fid
    /\ In c (fieldCandidates s (t_name ty) fid field).
Proof.
  unfold typeCandidates. intros H.
  apply in_flat_map in H as (field & Hfield & H).
  unfold isNamed in H. destruct (f_name field) as [fid|] eqn:Hn; [|destruct H].
  cbn [truthyOpt default from_option id] in H.
  destruct (truthy fid); [|destruct H].
  exists field, fid. tauto.
Qed.

(** X19.  In a schema made by the Sanity transformer no array item has a
    name or a title, so a conversion never draws an array composition: the
    edges of an array field are array references, explicit or inferred
    from the field's name alone. *)
Theorem sanity_schema_has_no_array_composition
    (entries : list SanityFormat.SanityEntry) (e : Edge) :
  In e (edges (graph (convert (newGraphConverter
         (createParsedSchema (List.map SanityFormat.transformSanityType entries)
            isDocument))))) ->
  rel (e_style e) <> ARRAY_COMPOSITION.
Proof.
  intros He. apply convert_emits_candidates in He.
  unfold schemaCandidates in He. cbn [types createParsedSchema] in He.
  apply in_flat_map in He as (ty & Hty & He).
  destruct (isDocumentOrObject ty); [|destruct He].
  apply in_map_iff in Hty as (entry & <- & _).
  apply typeCandidates_In in He as (field & fid & Hfield & _ & He).
  apply transformSanityType_field in Hfield as (k & d & Hf).
  destruct (transformSanityField_parts _ _ _ Hf) as (_ & _ & Hof).
  unfold fieldCandidates in He. rewrite !in_app_iff in He.
  destruct He as [He|[He|He]].
  - destruct (bool_decide _); [|destruct He].
    destruct (hasExplicitTargets field); apply in_map_iff in He as (t & <- & _);
      discriminate.
  - destruct (_ && _); [|destruct He].
    destruct (findObjectType _ _); [|destruct He].
    destruct He as [<-|[]]. discriminate.
  - destruct (bool_decide _); [|destruct He].
    destruct Hof as [Hof|(v & arrayOf & _ & _ & _ & Hof)]; rewrite Hof in He;
      [destruct He|].
    apply in_flat_map in He as (item & Hitem & He).
    apply transformArrayItems_unnamed in Hitem as [Hname _].
    unfold itemCandidates in He. rewrite Hname, andb_false_r, app_nil_r in He.
    destruct (bool_decide _); [|destruct He].
    destruct (hasExplicitTargets item); apply in_map_iff in He as (t & <- & _);
      discriminate.
Qed.

Lemma sanity_schema_has_no_array_composition_witness :
  rel (e_style SanityExamples.reviewersEdge) <> ARRAY_COMPOSITION.
Proof.
  refine (sanity_schema_has_no_array_composition
            [SanityExamples.post; SanityExamples.person]
            SanityExamples.reviewersEdge _).
  vm_compute. right. left. reflexivity.
Defined.

(** * The Sanity parsers of the two programs *)

(** The outcome of the script's Sanity parser on a present file. *)
Lemma script_sanity_parse_outcome
    (fileSystem : string -> option string)
    (JSON_parse js_eval :
       string -> RawValue (Element SanityFormat.SanityEntry) + Thrown)
    (schemaPath content : string) :
  fileSystem schemaPath = Some content ->
  SanityFormat.SanityParser_parse fileSystem JSON_parse js_eval schemaPath
  = match parseJsonOrJs (Element SanityFormat.SanityEntry) JSON_parse js_eval
            content with
    | Ok RawOther => Throw SanityUnrecognizedFormat
    | Ok (RawArray items) =>
        match readEntries "name" items with
        | Ok entries =>
            Ok (createParsedSchema (SanityFormat.transformSchema entries) isDocument)
        | Throw e => Throw e
        end
    | Throw e => Throw e
    end.
Proof.
  intros Hfile. unfold SanityFormat.SanityParser_parse, loadFileContent.
  rewrite Hfile. cbn [bind].
  destruct (parseJsonOrJs _ _ _ _) as [[items|]|e]; cbn [bind]; try reflexivity;
    destruct (readEntries "name" items); reflexivity.
Qed.

(** What the script's schema.club parser returns for an array of objects. *)
Lemma script_club_parse_of_array
    (fileSystem : string -> option string)
    (JSON_parse js_eval : string -> RawValue (Element Script.RawType) + Thrown)
    (schemaPath content : string) (items : list Script.RawType) :
  fileSystem schemaPath = Some content ->
  parsedRoot JSON_parse js_eval content (RawArray (Object <$> items)) ->
  Script.SchemaClubParser_parse fileSystem JSON_parse js_eval schemaPath
  = Ok (createParsedSchema (Script.transformSchema items) isDocument).
Proof.
  intros Hfile Hroot. unfold Script.SchemaClubParser_parse, loadFileContent.
  rewrite Hfile. cbn [bind].
  apply parseJsonOrJs_Ok in Hroot. rewrite Hroot. cbn [bind].
  rewrite (proj2 (readEntries_Ok "name" _ items) eq_refl). reflexivity.
Qed.

(** On the simple path, and with no [to] on any reference field, the
    Sanity parser's types are those of the schema.club transformation. *)
Lemma simple_path_is_schema_club (entries : list SanityFormat.SanityEntry) :
  SanityFormat.isComplexFormat entries = false ->
  (forall item field,
      In item entries ->
      In field (default [] (SanityFormat.se_fields item)) ->
      SimpleFormat.noExplicitTargets field = true) ->
  SanityFormat.transformSchema entries
  = Script.transformSchema (SanityFormat.asSimple <$> entries).
Proof.
  intros Hsimple Hto. unfold SanityFormat.transformSchema. rewrite Hsimple.
  unfold Script.transformSchema.
  change (SanityFormat.asSimple <$> entries)
    with (List.map SanityFormat.asSimple entries).
  rewrite (filter_map_comm SanityFormat.asSimple), List.map_map.
  apply map_ext_in. intros item Hitem. apply filter_In in Hitem as [Hitem _].
  unfold SimpleFormat.transformSimpleType, Script.transformSchemaClubType.
  cbn [SanityFormat.asSimple Script.rt_name Script.rt_type Script.rt_title
       Script.rt_fields].
  f_equal. specialize (Hto item).
  destruct (SanityFormat.se_fields item) as [fields|]; [|reflexivity].
  f_equal. cbn [default from_option id] in Hto.
  apply (omap_ext_Forall _ _ SimpleFormat.noExplicitTargets).
  - apply Forall_forall. intros r _. apply transformSimpleField_agrees.
  - apply forallb_forall. intros r Hr. apply Hto; assumption.
Qed.

(** ** C7: the Sanity parsers *)

(** C7 fails on the script.  Its Sanity parser is implemented: for a file
    holding the two simple entries [post] and [category] it returns a
    schema, not the not-implemented error, and the schema is the one the
    script's schema.club parser returns for the same file. *)
Lemma script_sanity_parser_is_implemented :
  SanityFormat.SanityParser_parse SanityExamples.files SanityExamples.strict
    SanityExamples.evaluate "schema.js"
  = Ok (createParsedSchema
          [Examples.type "post" "document"
             (Some [Examples.field "reference" (Some "categoryRef") None None
                      (Some [ {| tr_type := "category" |} ])]);
           Examples.category]
          isDocument)
  /\ SanityFormat.SanityParser_parse SanityExamples.files SanityExamples.strict
       SanityExamples.evaluate "schema.js"
     <> Throw NotImplemented
  /\ SanityFormat.SanityParser_parse SanityExamples.files SanityExamples.strict
       SanityExamples.evaluate "schema.js"
     = Script.SchemaClubParser_parse SanityExamples.files SanityExamples.strict
         SanityExamples.evaluateClub "schema.js".
Proof.
  assert (Hrun : SanityFormat.SanityParser_parse SanityExamples.files
                   SanityExamples.strict SanityExamples.evaluate "schema.js"
                 = Ok (createParsedSchema
                         (SanityFormat.transformSchema
                            [SanityExamples.simplePost; SanityExamples.simpleCategory])
                         isDocument)).
  { rewrite (script_sanity_parse_outcome SanityExamples.files SanityExamples.strict
               SanityExamples.evaluate "schema.js" SanityExamples.simpleLiteral
               eq_refl).
    reflexivity. }
  assert (Htypes : SanityFormat.transformSchema
                     [SanityExamples.simplePost; SanityExamples.simpleCategory]
                   = [Examples.type "post" "document"
                        (Some [Examples.field "reference" (Some "categoryRef") None None
                                 (Some [ {| tr_type := "category" |} ])]);
                      Examples.category])
    by (vm_compute; reflexivity).
  rewrite Hrun, Htypes. split; [reflexivity|]. split; [discriminate|].
  rewrite (script_club_parse_of_array SanityExamples.files SanityExamples.strict
             SanityExamples.evaluateClub "schema.js" SanityExamples.simpleLiteral
             [SanityFormat.asSimple SanityExamples.simplePost;
              SanityFormat.asSimple SanityExamples.simpleCategory] eq_refl).
  - f_equal.
  - eapply root_evaluated; [reflexivity|split; reflexivity|reflexivity].
Qed.

(** C7 (amended).  In the modular program the factory maps the format
    [sanity] to a parser whose [parse] throws the not-implemented error
    whatever the file system and the host's parsers hold, and which returns
    no schema.  In the script the Sanity parser never throws that error:
    for a file whose root is an array of objects it returns the schema of
    its own transformation, and when the first entry puts it on the simple
    path and no reference field carries a [to], that schema is the one the
    script's schema.club parser returns for the same entries. *)
Theorem sanity_parser_not_implemented
    (fileSystem : string -> option string)
    (JSON_parse js_eval : string -> RawValue (Element SchemaType) + Thrown)
    (scriptJSON_parse scriptEval :
       string -> RawValue (Element SanityFormat.SanityEntry) + Thrown)
    (schemaPath : string) :
  Parsers.createParser "sanity" schemaPath = Ok (Parsers.SanityParser schemaPath)
  /\ Parsers.parse fileSystem JSON_parse js_eval (Parsers.SanityParser schemaPath)
     = Throw NotImplemented
  /\ (forall s : ParsedSchema,
        Parsers.parse fileSystem JSON_parse js_eval (Parsers.SanityParser schemaPath)
        <> Ok s)
  /\ errorMessage NotImplemented
     = Some "Sanity format parser not yet implemented. Coming soon!"
  /\ SanityFormat.SanityParser_parse fileSystem scriptJSON_parse scriptEval schemaPath
     <> Throw NotImplemented
  /\ (forall content entries,
        fileSystem schemaPath = Some content ->
        parsedRoot scriptJSON_parse scriptEval content (RawArray (Object <$> entries)) ->
        SanityFormat.SanityParser_parse fileSystem scriptJSON_parse scriptEval
          schemaPath
        = Ok (createParsedSchema (SanityFormat.transformSchema entries) isDocument)
        /\ (SanityFormat.isComplexFormat entries = false ->
            (forall item field,
                In item entries ->
                In field (default [] (SanityFormat.se_fields item)) ->
                SimpleFormat.noExplicitTargets field = true) ->
            forall clubJSON_parse clubEval,
              parsedRoot clubJSON_parse clubEval content
                (RawArray (Object <$> (SanityFormat.asSimple <$> entries))) ->
              SanityFormat.SanityParser_parse fileSystem scriptJSON_parse scriptEval
                schemaPath
              = Script.SchemaClubParser_parse fileSystem clubJSON_parse clubEval
                  schemaPath)).
Proof.
  split; [reflexivity|]. split; [reflexivity|]. split; [discriminate|].
  split; [reflexivity|]. split.
  - unfold SanityFormat.SanityParser_parse, loadFileContent.
    destruct (fileSystem schemaPath) as [content|]; cbn [bind]; [|discriminate].
    destruct (parseJsonOrJs _ _ _ _) as [[items|]|e] eqn:Hparse; cbn [bind];
      [|discriminate|].
    + destruct (readEntries "name" items) as [entries|e] eqn:Hread; cbn [bind];
        [discriminate|].
      apply readEntries_Throw in Hread as [-> _]. discriminate.
    + apply parseJsonOrJs_Throw in Hparse as (m & -> & _). discriminate.
  - intros content entries Hfile Hroot.
    assert (Hrun : SanityFormat.SanityParser_parse fileSystem scriptJSON_parse
                     scriptEval schemaPath
                   = Ok (createParsedSchema (SanityFormat.transformSchema entries)
                           isDocument)).
    { rewrite (script_sanity_parse_outcome _ _ _ _ _ Hfile).
      apply parseJsonOrJs_Ok in Hroot. rewrite Hroot.
      rewrite (proj2 (readEntries_Ok "name" _ entries) eq_refl). reflexivity. }
    split; [exact Hrun|].
    intros Hsimple Hto clubJSON_parse clubEval Hclub.
    rewrite Hrun, (script_club_parse_of_array _ _ _ _ _ _ Hfile Hclub).
    rewrite (simple_path_is_schema_club _ Hsimple Hto). reflexivity.
Qed.

Lemma sanity_parser_not_implemented_witness :
  SanityFormat.SanityParser_parse SanityExamples.files SanityExamples.strict
    SanityExamples.evaluate "schema.js"
  = Script.SchemaClubParser_parse SanityExamples.files SanityExamples.strict
      SanityExamples.evaluateClub "schema.js".
Proof.
  refine (proj2 (proj2 (proj2 (proj2 (proj2 (proj2
            (sanity_parser_not_implemented SanityExamples.files Examples.strict
               Examples.evaluate SanityExamples.strict SanityExamples.evaluate
               "schema.js")))))
            SanityExamples.simpleLiteral
            [SanityExamples.simplePost; SanityExamples.simpleCategory]
            eq_refl _) eq_refl _ SanityExamples.strict SanityExamples.evaluateClub _).
  - eapply root_evaluated; [reflexivity|split; reflexivity|reflexivity].
  - intros item field [<-|[<-|[]]]; cbn; [|intros []].
    intros [<-|[]]. reflexivity.
  - eapply root_evaluated; [reflexivity|split; reflexivity|reflexivity].
Defined.
